(** * xivo-agid: the connection pool, the handler registry and the dispatcher

    A shallow embedding of [xivo_agid/agid.py].  Python statements become
    computations of a state-and-exception monad over a [World] that holds
    the module globals ([_server], [_handlers]), the objects they own and
    a trace of everything the program asks of its collaborators
    ([anysql], [fastagi], [agitb], [moresynchro], [session_scope], the
    handler routines and [logging]).  The collaborators are not part of
    the module: their outcomes are parameters of the development. *)

From Stdlib Require Import ZArith Lia.
From stdpp Require Import gmap strings list fin_maps pretty sorting.

Local Open Scope string_scope.

(** ** Values *)

(** A connection object, a cursor and a lock are known by their identity. *)
Definition conn := nat.
Definition cursor := conn.
Definition lock_id := nat.

(** A Python function object: its [__name__] and its identity. *)
Record pyfun := { fn_name : string; fn_id : nat }.

(** The exceptions the module raises or catches by name, and [Error]
    for any other exception of a collaborator.  All of them derive from
    [Exception] ([SystemExit] and [KeyboardInterrupt] are left out), so
    the bare [except] and [except Exception] catch the same values. *)
Inductive exn :=
| IndexError
| KeyError (key : string)
| ValueError (msg arg : string)
| UnboundLocalError (var : string)
| FastAGIDialPlanBreak (message : string)
| Error (what : string).

Inductive result (A : Type) :=
| Ok (a : A)
| Raise (e : exn).
Arguments Ok {A} a.
Arguments Raise {A} e.

(** The decoded request: [fagi.env] and [fagi.args]. *)
Record FastAGI := { env : gmap string string; args : list string }.

(** Calls into collaborators whose outcome the module does not decide. *)
Inductive call :=
| connect_by_uri (uri : option string)
| conn_close (c : conn)
| conn_cursor (c : conn)
| conn_commit (c : conn)
| Hook_new
| hook_handle
| fagi_verbose (msg : string)
| fagi_appexec (app arg : string)
| fagi_fail
| session_enter
| session_exit (failed : bool)
| run_setup_fn (name : string) (f : pyfun) (cur : cursor)
| run_handle_fn (name : string) (f : pyfun) (cur : cursor) (a : list string)
| server_bind (addr : string) (port : Z).

Inductive level := DEBUG | INFO | ERROR | EXCEPTION.

(** What an observer of one thread sees: each call the program makes,
    with the exception it ended in if any; a [logging] call with its
    format and arguments; the lock requests.  [Borrowed] and [Released]
    mark the return of [DBConnectionPool.acquire] and the entry of
    [DBConnectionPool.release]. *)
Inductive event :=
| Call (c : call) (raised : option exn)
| NewFastAGI (raised : option exn)
| Log (lvl : level) (fmt : string) (a : list string)
| AcquireRead (l : lock_id)
| AcquireWrite (l : lock_id) (granted : bool)
| ReleaseLock (l : lock_id)
| Borrowed (c : conn)
| Released (c : conn).

Global Instance level_eq_dec : EqDecision level.
Proof. solve_decision. Defined.
Global Instance exn_eq_dec : EqDecision exn.
Proof. solve_decision. Defined.
Global Instance pyfun_eq_dec : EqDecision pyfun.
Proof. solve_decision. Defined.
Global Instance call_eq_dec : EqDecision call.
Proof. solve_decision. Defined.
Global Instance event_eq_dec : EqDecision event.
Proof. solve_decision. Defined.

(** ** Objects *)

Record DBConnectionPool := {
  conns : list conn;
  size : Z;
  db_uri : option string
}.

Record Handler := {
  handler_name : string;
  setup_fn : option pyfun;
  handle_fn : pyfun;
  lock : lock_id
}.

(** [DBConnectionPool.__init__] *)
Definition DBConnectionPool_init : DBConnectionPool :=
  {| conns := []; size := 0; db_uri := None |}.

(** ** Reading a trace *)

Fixpoint count_ev (P : event → bool) (t : list event) : nat :=
  match t with
  | [] => 0
  | ev :: t' => (if P ev then 1 else 0) + count_ev P t'
  end.

Definition is_commit (ev : event) : bool :=
  match ev with Call (conn_commit _) _ => true | _ => false end.

Definition is_commit_on (c : conn) (ev : event) : bool :=
  match ev with Call (conn_commit c') _ => bool_decide (c' = c) | _ => false end.

Definition is_connect (ev : event) : bool :=
  match ev with Call (connect_by_uri _) _ => true | _ => false end.

Definition is_close_of (c : conn) (ev : event) : bool :=
  match ev with Call (conn_close c') _ => bool_decide (c' = c) | _ => false end.

Definition is_borrow (ev : event) : bool :=
  match ev with Borrowed _ => true | _ => false end.

Definition is_release (ev : event) : bool :=
  match ev with Released _ => true | _ => false end.

Definition is_release_of (c : conn) (ev : event) : bool :=
  match ev with Released c' => bool_decide (c' = c) | _ => false end.

(** the setup routine of the handler called [name] was invoked *)
Definition is_setup_of (name : string) (ev : event) : bool :=
  match ev with
  | Call (run_setup_fn n _ _) _ => bool_decide (n = name)
  | _ => false
  end.

(** ... and it raised *)
Definition is_failed_setup (ev : event) : bool :=
  match ev with Call (run_setup_fn _ _ _) (Some _) => true | _ => false end.

Definition is_handle_fn (ev : event) : bool :=
  match ev with Call (run_handle_fn _ _ _ _) _ => true | _ => false end.

(** the reload of the handler called [name] was given up *)
Definition is_skip_of (name : string) (ev : event) : bool :=
  bool_decide (ev = Log ERROR "%r has not be reloaded" [name]).

Definition is_lock_ev (ev : event) : bool :=
  match ev with
  | AcquireRead _ | AcquireWrite _ _ | ReleaseLock _ => true
  | _ => false
  end.

Definition is_ev (e : event) (ev : event) : bool := bool_decide (ev = e).

Definition is_call (c : call) (ev : event) : bool :=
  match ev with Call c' _ => bool_decide (c' = c) | _ => false end.

Definition is_returned (c : call) (ev : event) : bool :=
  bool_decide (ev = Call c None).

(** what the pool writes: its markers, its records, and the connections
    it opens and closes *)
Definition pool_ev (ev : event) : bool :=
  match ev with
  | Call (connect_by_uri _) _ | Call (conn_close _) _ => true
  | Log DEBUG _ [] => true
  | Borrowed _ | Released _ => true
  | _ => false
  end.

(** what a reload of the pool writes *)
Definition reload_ev (ev : event) : bool :=
  match ev with
  | Call (connect_by_uri _) _ | Call (conn_close _) _ => true
  | Log DEBUG _ _ => true
  | _ => false
  end.

(** what the methods of a handler write *)
Definition handler_ev (ev : event) : bool :=
  match ev with
  | AcquireRead _ | AcquireWrite _ _ | ReleaseLock _ => true
  | Call (session_enter | session_exit _) _ => true
  | Call (run_setup_fn _ _ _ | run_handle_fn _ _ _ _) _ => true
  | Log (DEBUG | ERROR) _ [_] => true
  | _ => false
  end.

(** what the [except] clauses of the dispatcher write *)
Definition signal_ev (ev : event) : bool :=
  match ev with
  | Call (hook_handle | fagi_verbose _ | fagi_appexec _ _ | fagi_fail) _ => true
  | Log (INFO | EXCEPTION) _ [] => true
  | _ => false
  end.

(** what the dispatcher writes up to the lookup of the handler, and
    when it gives the connection back *)
Definition lookup_ev (ev : event) : bool :=
  pool_ev ev ||
  match ev with
  | Call (conn_cursor _) _ => true
  | Log DEBUG _ [_] => true
  | _ => false
  end.

(** what the dispatcher writes between [acquire] and [release] *)
Definition serve_ev (ev : event) : bool :=
  handler_ev ev ||
  match ev with
  | Call (conn_cursor _ | conn_commit _ | fagi_verbose _) _ => true
  | Log DEBUG _ _ => true
  | _ => false
  end.

Definition is_break (x : exn) : bool :=
  match x with FastAGIDialPlanBreak _ => true | _ => false end.

(** the calls that go to the database driver *)
Definition db_call (c : call) : bool :=
  match c with
  | connect_by_uri _ | conn_close _ | conn_cursor _ | conn_commit _ => true
  | _ => false
  end.

(** ** The collaborators

    [E] is whatever state they keep (the database, the switch at the
    other end of the socket, what the handlers cache); [Sch] is the rest
    of the process as the locks see it (the other threads).  The
    database driver does not raise the exception by which [fastagi] and
    the handlers break the dial plan. *)
Class Collaborators (E Sch : Type) := {
  oracle : call → E → option exn * E;
  read_request : E → result FastAGI * E;
  grant_write : lock_id → Sch → bool * Sch;
  py_int : string → option Z;
  db_errors : ∀ c e m,
    db_call c = true → (oracle c e).1 ≠ Some (FastAGIDialPlanBreak m)
}.

Section Agid.

Context {E Sch : Type} `{!Collaborators E Sch}.

(** The process: [_server] (its pool, configuration and attributes),
    [_handlers], the allocator of object identities, the trace and the
    state of the collaborators. *)
Record World := {
  db_conn_pool : DBConnectionPool;
  _handlers : gmap string Handler;
  config : gmap string string;
  initialized : bool;
  listen_addr : option string;
  listen_port : option Z;
  next_conn : nat;
  next_lock : nat;
  trace : list event;
  ext : E;
  sched : Sch
}.

Definition set_pool (p : DBConnectionPool) (w : World) : World :=
  {| db_conn_pool := p; _handlers := _handlers w; config := config w;
     initialized := initialized w; listen_addr := listen_addr w;
     listen_port := listen_port w; next_conn := next_conn w;
     next_lock := next_lock w; trace := trace w; ext := ext w;
     sched := sched w |}.

Definition set_handlers (h : gmap string Handler) (w : World) : World :=
  {| db_conn_pool := db_conn_pool w; _handlers := h; config := config w;
     initialized := initialized w; listen_addr := listen_addr w;
     listen_port := listen_port w; next_conn := next_conn w;
     next_lock := next_lock w; trace := trace w; ext := ext w;
     sched := sched w |}.

Definition set_listen_addr (a : string) (w : World) : World :=
  {| db_conn_pool := db_conn_pool w; _handlers := _handlers w;
     config := config w; initialized := initialized w;
     listen_addr := Some a; listen_port := listen_port w;
     next_conn := next_conn w; next_lock := next_lock w;
     trace := trace w; ext := ext w; sched := sched w |}.

Definition set_listen_port (p : Z) (w : World) : World :=
  {| db_conn_pool := db_conn_pool w; _handlers := _handlers w;
     config := config w; initialized := initialized w;
     listen_addr := listen_addr w; listen_port := Some p;
     next_conn := next_conn w; next_lock := next_lock w;
     trace := trace w; ext := ext w; sched := sched w |}.

Definition set_initialized (b : bool) (w : World) : World :=
  {| db_conn_pool := db_conn_pool w; _handlers := _handlers w;
     config := config w; initialized := b;
     listen_addr := listen_addr w; listen_port := listen_port w;
     next_conn := next_conn w; next_lock := next_lock w;
     trace := trace w; ext := ext w; sched := sched w |}.

Definition set_next_conn (n : nat) (w : World) : World :=
  {| db_conn_pool := db_conn_pool w; _handlers := _handlers w;
     config := config w; initialized := initialized w;
     listen_addr := listen_addr w; listen_port := listen_port w;
     next_conn := n; next_lock := next_lock w; trace := trace w;
     ext := ext w; sched := sched w |}.

Definition set_next_lock (n : nat) (w : World) : World :=
  {| db_conn_pool := db_conn_pool w; _handlers := _handlers w;
     config := config w; initialized := initialized w;
     listen_addr := listen_addr w; listen_port := listen_port w;
     next_conn := next_conn w; next_lock := n; trace := trace w;
     ext := ext w; sched := sched w |}.

Definition set_trace (t : list event) (w : World) : World :=
  {| db_conn_pool := db_conn_pool w; _handlers := _handlers w;
     config := config w; initialized := initialized w;
     listen_addr := listen_addr w; listen_port := listen_port w;
     next_conn := next_conn w; next_lock := next_lock w; trace := t;
     ext := ext w; sched := sched w |}.

Definition set_ext (e : E) (w : World) : World :=
  {| db_conn_pool := db_conn_pool w; _handlers := _handlers w;
     config := config w; initialized := initialized w;
     listen_addr := listen_addr w; listen_port := listen_port w;
     next_conn := next_conn w; next_lock := next_lock w; trace := trace w;
     ext := e; sched := sched w |}.

Definition set_sched (s : Sch) (w : World) : World :=
  {| db_conn_pool := db_conn_pool w; _handlers := _handlers w;
     config := config w; initialized := initialized w;
     listen_addr := listen_addr w; listen_port := listen_port w;
     next_conn := next_conn w; next_lock := next_lock w; trace := trace w;
     ext := ext w; sched := s |}.

(** ** The monad: a state that survives exceptions *)

Definition M (A : Type) : Type := World → result A * World.

Definition ret {A} (a : A) : M A := λ w, (Ok a, w).

Definition bind {A B} (m : M A) (k : A → M B) : M B := λ w,
  match m w with
  | (Ok a, w') => k a w'
  | (Raise e, w') => (Raise e, w')
  end.

Definition raise {A} (e : exn) : M A := λ w, (Raise e, w).

(** [try: m finally: f]: [f] runs on both exits; an exception of [f]
    replaces the pending one. *)
Definition try_finally {A} (m : M A) (f : M unit) : M A := λ w,
  match m w with
  | (r, w') =>
      match f w' with
      | (Ok _, w'') => (r, w'')
      | (Raise e, w'') => (Raise e, w'')
      end
  end.

(** [try: m except: h] *)
Definition try_except {A} (m : M A) (h : exn → M A) : M A := λ w,
  match m w with
  | (Ok a, w') => (Ok a, w')
  | (Raise e, w') => h e w'
  end.

Notation "x ← m ; k" := (bind m (λ x, k))
  (at level 20, m at level 100, k at level 200, only parsing).
Notation "m ;; k" := (bind m (λ _, k))
  (at level 100, k at level 200, right associativity).

Definition emit (ev : event) : M unit := λ w,
  (Ok tt, set_trace (trace w ++ [ev]) w).

Definition log (lvl : level) (fmt : string) (a : list string) : M unit :=
  emit (Log lvl fmt a).

(** A call into a collaborator: the collaborator answers, and the call
    is recorded with its outcome. *)
Definition collab (c : call) : M unit := λ w,
  match oracle c (ext w) with
  | (None, e') => (Ok tt, set_ext e' (set_trace (trace w ++ [Call c None]) w))
  | (Some x, e') =>
      (Raise x, set_ext e' (set_trace (trace w ++ [Call c (Some x)]) w))
  end.

(** [for x in l: body x] *)
Fixpoint for_each {A} (l : list A) (body : A → M unit) : M unit :=
  match l with
  | [] => ret tt
  | x :: l' => body x ;; for_each l' body
  end.

(** [[m for _ in xrange(n)]] *)
Fixpoint comprehension {A} (n : nat) (m : M A) : M (list A) :=
  match n with
  | O => ret []
  | S n' => x ← m; l ← comprehension n' m; ret (x :: l)
  end.

(** ** [anysql]: [connect_by_uri] makes a new connection object *)
Definition anysql_connect_by_uri (uri : option string) : M conn :=
  collab (connect_by_uri uri) ;;
  λ w, (Ok (next_conn w), set_next_conn (S (next_conn w)) w).

(** [conn.cursor()] *)
Definition conn_cursor_new (c : conn) : M cursor :=
  collab (conn_cursor c) ;; ret c.

(** ** DBConnectionPool *)

Definition get_pool : M DBConnectionPool := λ w, (Ok (db_conn_pool w), w).
Definition put_pool (p : DBConnectionPool) : M unit := λ w, (Ok tt, set_pool p w).

Definition DBConnectionPool_reload (size' : Z) (db_uri' : string) : M unit :=
  (p ← get_pool;
   for_each (conns p) (λ c, collab (conn_close c)) ;;
   cs ← comprehension (Z.to_nat size') (anysql_connect_by_uri (Some db_uri'));
   put_pool {| conns := cs; size := size'; db_uri := Some db_uri' |}) ;;
  log DEBUG "reloaded db conn pool" [].

(** [self.conns.pop()] *)
Definition conns_pop : M conn :=
  p ← get_pool;
  match rev (conns p) with
  | [] => raise IndexError
  | c :: r =>
      put_pool {| conns := rev r; size := size p; db_uri := db_uri p |} ;;
      ret c
  end.

Definition DBConnectionPool_acquire : M conn :=
  c ← try_except
        (c ← conns_pop;
         log DEBUG "acquiring connection: got connection from pool" [] ;;
         ret c)
        (λ e, match e with
              | IndexError =>
                  p ← get_pool;
                  c ← anysql_connect_by_uri (db_uri p);
                  log DEBUG "acquiring connection: pool empty, created new connection" [] ;;
                  ret c
              | _ => raise e
              end);
  emit (Borrowed c) ;;
  ret c.

Definition DBConnectionPool_release (c : conn) : M unit :=
  emit (Released c) ;;
  p ← get_pool;
  if bool_decide (Z.of_nat (length (conns p)) < size p)%Z then
    put_pool {| conns := conns p ++ [c]; size := size p; db_uri := db_uri p |} ;;
    log DEBUG "releasing connection: pool not full, refilled with connection" []
  else
    collab (conn_close c) ;;
    log DEBUG "releasing connection: pool full, connection closed" [].

(** A client of the pool: any sequence of calls, going on after a call
    that raised. *)
Inductive pool_op :=
| Reload (size' : Z) (db_uri' : string)
| Acquire
| Release (c : conn).

Definition run_pool_op (o : pool_op) : M unit :=
  match o with
  | Reload n u => DBConnectionPool_reload n u
  | Acquire => DBConnectionPool_acquire ;; ret tt
  | Release c => DBConnectionPool_release c
  end.

Fixpoint run_pool_ops (ops : list pool_op) (w : World) : World :=
  match ops with
  | [] => w
  | o :: ops' => run_pool_ops ops' (run_pool_op o w).2
  end.

(** ** [moresynchro.RWLock] *)

(** [moresynchro.RWLock()]: a new lock *)
Definition RWLock_new : M lock_id := λ w,
  (Ok (next_lock w), set_next_lock (S (next_lock w)) w).

(** Modelled from the spec: [moresynchro] is another package.  A reader
    waits while a writer holds the lock and then has it: seen from the
    thread that asks, [acquire_read] returns. *)
Definition RWLock_acquire_read (l : lock_id) : M unit := emit (AcquireRead l).

(** Modelled from the spec: [acquire_write] returns a true value when
    the lock is granted and a false one when it is refused to avoid a
    deadlock; which of the two is for the rest of the process to say. *)
Definition RWLock_acquire_write (l : lock_id) : M bool := λ w,
  match grant_write l (sched w) with
  | (b, s') => (Ok b, set_sched s' (set_trace (trace w ++ [AcquireWrite l b]) w))
  end.

(** Modelled from the spec: [release] gives back whichever access the
    thread holds. *)
Definition RWLock_release (l : lock_id) : M unit := emit (ReleaseLock l).

(** ** [session_scope] *)

(** Modelled from the spec: [xivo_dao.helpers.db_utils.session_scope] is
    another package; it is a region that tears the session down on every
    exit, success or failure, and lets the exception of its body
    through.  Entering and leaving are calls that may raise. *)
Definition with_session_scope (body : M unit) : M unit :=
  collab session_enter ;;
  λ w, match body w with
       | (Ok _, w') => collab (session_exit false) w'
       | (Raise e, w') => (collab (session_exit true) ;; raise e) w'
       end.

(** ** Handler *)

Definition Handler_init (handler_name' : string) (setup_fn' : option pyfun)
    (handle_fn' : pyfun) : M Handler :=
  l ← RWLock_new;
  ret {| handler_name := handler_name'; setup_fn := setup_fn';
         handle_fn := handle_fn'; lock := l |}.

Definition Handler_setup (self : Handler) (cur : cursor) : M unit :=
  match setup_fn self with
  | Some f => collab (run_setup_fn (handler_name self) f cur)
  | None => ret tt
  end.

Definition Handler_reload (self : Handler) (cur : cursor) : M unit :=
  match setup_fn self with
  | Some f =>
      granted ← RWLock_acquire_write (lock self);
      if negb granted then
        log ERROR "deadlock detected and avoided for %r" [handler_name self] ;;
        log ERROR "%r has not be reloaded" [handler_name self] ;;
        ret tt
      else
        try_finally
          (collab (run_setup_fn (handler_name self) f cur) ;;
           log DEBUG "handler %r reloaded" [handler_name self])
          (RWLock_release (lock self))
  | None => ret tt
  end.

Definition Handler_handle (self : Handler) (agi : FastAGI) (cur : cursor)
    (a : list string) : M unit :=
  RWLock_acquire_read (lock self) ;;
  try_finally
    (with_session_scope
       (collab (run_handle_fn (handler_name self) (handle_fn self) cur a)))
    (RWLock_release (lock self)).

(** ** The registry *)

Definition get_handlers : M (gmap string Handler) := λ w, (Ok (_handlers w), w).
Definition put_handlers (hs : gmap string Handler) : M unit := λ w,
  (Ok tt, set_handlers hs w).

Definition register (handle_fn' : pyfun) (setup_fn' : option pyfun) : M unit :=
  let handler_name' := fn_name handle_fn' in
  hs ← get_handlers;
  match hs !! handler_name' with
  | Some _ => raise (ValueError "handler %r already registered" handler_name')
  | None =>
      h ← Handler_init handler_name' setup_fn' handle_fn';
      put_handlers (<[handler_name' := h]> hs)
  end.

(** [_handlers[name]] *)
Definition handlers_getitem (name : string) : M Handler :=
  hs ← get_handlers;
  match hs !! name with
  | Some h => ret h
  | None => raise (KeyError name)
  end.

(** [_handlers.itervalues()]: the order of a dictionary is fixed by its
    contents and otherwise unspecified, as is that of [map_to_list]. *)
Definition itervalues (hs : gmap string Handler) : list Handler :=
  (map_to_list hs).*2.

(** ** FastAGIRequestHandler *)

(** [fastagi.FastAGI(self.rfile, self.wfile, self.config)] *)
Definition FastAGI_new : M FastAGI := λ w,
  match read_request (ext w) with
  | (Ok fagi, e') =>
      (Ok fagi, set_ext e' (set_trace (trace w ++ [NewFastAGI None]) w))
  | (Raise x, e') =>
      (Raise x, set_ext e' (set_trace (trace w ++ [NewFastAGI (Some x)]) w))
  end.

(** [fagi.env[key]] *)
Definition env_getitem (fagi : FastAGI) (key : string) : M string :=
  match env fagi !! key with
  | Some v => ret v
  | None => raise (KeyError key)
  end.

(** the statements from [acquire] down to the [finally] *)
Definition FastAGIRequestHandler_handle_body (fagi : FastAGI) : M unit :=
  conn ← DBConnectionPool_acquire;
  try_finally
    (cur ← conn_cursor_new conn;
     handler_name' ← env_getitem fagi "agi_network_script";
     log DEBUG "delegating request handling %r" [handler_name'] ;;
     h ← handlers_getitem handler_name';
     Handler_handle h fagi cur (args fagi) ;;
     collab (conn_commit conn) ;;
     collab (fagi_verbose ("AGI handler '" +:+ handler_name' +:+ "' successfully executed")) ;;
     log DEBUG "request successfully handled" [])
    (DBConnectionPool_release conn).

(** [except fastagi.FastAGIDialPlanBreak, message]; [fagi] is unbound
    when the constructor raised. *)
Definition except_FastAGIDialPlanBreak (fagi : option FastAGI)
    (message : string) : M unit :=
  log INFO "invalid request, dial plan broken" [] ;;
  try_except
    (match fagi with
     | None => raise (UnboundLocalError "fagi")
     | Some _ =>
         collab (fagi_verbose message) ;;
         collab (fagi_appexec "Goto" "agi_fail,s,1") ;;
         collab fagi_fail
     end)
    (λ _, ret tt).

(** the bare [except] *)
Definition except_any (fagi : option FastAGI) (except_hook : option unit) : M unit :=
  log EXCEPTION "unexpected exception" [] ;;
  try_except
    (match except_hook with
     | None => raise (UnboundLocalError "except_hook")
     | Some _ => collab hook_handle
     end ;;
     match fagi with
     | None => raise (UnboundLocalError "fagi")
     | Some _ =>
         collab (fagi_appexec "Goto" "agi_fail,s,1") ;;
         collab fagi_fail
     end)
    (λ _, ret tt).

Definition handle_except (fagi : option FastAGI) (except_hook : option unit)
    (e : exn) : M unit :=
  match e with
  | FastAGIDialPlanBreak message => except_FastAGIDialPlanBreak fagi message
  | _ => except_any fagi except_hook
  end.

Definition FastAGIRequestHandler_handle : M unit := λ w,
  match (log DEBUG "handling request" [] ;; FastAGI_new) w with
  | (Raise e, w1) => handle_except None None e w1
  | (Ok fagi, w1) =>
      match collab Hook_new w1 with
      | (Raise e, w2) => handle_except (Some fagi) None e w2
      | (Ok except_hook, w2) =>
          try_except (FastAGIRequestHandler_handle_body fagi)
            (handle_except (Some fagi) (Some except_hook)) w2
      end
  end.

(** ** AGID *)

(** [self.config[key]] *)
Definition config_getitem (key : string) : M string := λ w,
  match config w !! key with
  | Some v => (Ok v, w)
  | None => (Raise (KeyError key), w)
  end.

(** [int(s)] *)
Definition int (s : string) : M Z :=
  match py_int s with
  | Some z => ret z
  | None => raise (ValueError "invalid literal for int() with base 10: %r" s)
  end.

Definition AGID_setup : M unit :=
  (λ w,
     if negb (initialized w) then
       (a ← config_getitem "listen_address";
        (λ w, (Ok tt, set_listen_addr a w)) ;;
        log DEBUG "listen_addr: %s" [a] ;;
        s ← config_getitem "listen_port";
        p ← int s;
        (λ w, (Ok tt, set_listen_port p w)) ;;
        log DEBUG "listen_port: %d" [pretty p]) w
     else (Ok tt, w)) ;;
  s ← config_getitem "connection_pool_size";
  conn_pool_size ← int s;
  db_uri' ← config_getitem "db_uri";
  DBConnectionPool_reload conn_pool_size db_uri'.

(** [AGID.__init__]; [SocketServer.ThreadingTCPServer.__init__] binds the
    socket *)
Definition AGID_init : M unit :=
  log INFO "xivo-agid starting..." [] ;;
  put_pool DBConnectionPool_init ;;
  AGID_setup ;;
  (λ w, match listen_addr w, listen_port w with
        | Some a, Some p => collab (server_bind a p) w
        | _, _ => (Raise (Error "AttributeError"), w)
        end) ;;
  (λ w, (Ok tt, set_initialized true w)).

(** ** The reload signal *)

Definition sighup_handle : M unit :=
  log DEBUG "reloading core engine" [] ;;
  AGID_setup ;;
  conn ← DBConnectionPool_acquire;
  try_finally
    (cur ← conn_cursor_new conn;
     log DEBUG "reloading handlers" [] ;;
     hs ← get_handlers;
     for_each (itervalues hs) (λ handler, Handler_reload handler cur) ;;
     collab (conn_commit conn) ;;
     log DEBUG "finished reload" [])
    (DBConnectionPool_release conn).

(** [m] leaves the registry alone and writes only events of the class
    [allowed]. *)
Definition emits {A} (m : M A) (allowed : event → bool) : Prop :=
  ∀ w r w', m w = (r, w') →
    _handlers w' = _handlers w ∧
    ∃ d : list event,
      trace w' = (trace w ++ d)%list ∧ Forall (λ ev, allowed ev = true) d.

(** every entry of the registry is filed under the name of its handler *)
Definition registry_wf (hs : gmap string Handler) : Prop :=
  map_Forall (λ k h, handler_name h = k) hs.

(** the handlers of a list that are called [n] and have a setup routine *)
Definition reloadable (n : string) (h : Handler) : bool :=
  bool_decide (handler_name h = n) &&
  match setup_fn h with Some _ => true | None => false end.

Fixpoint num_reloadable (n : string) (hs : list Handler) : nat :=
  match hs with
  | [] => 0
  | h :: hs' => (if reloadable n h then 1 else 0) + num_reloadable n hs'
  end.

(** Only the trace and the collaborators moved between two worlds. *)
Definition io_step (w w' : World) : Prop :=
  ∃ (d : list event) e, w' = set_ext e (set_trace (trace w ++ d)%list w).

(** how many events of a kind the process has seen so far *)
Definition tally (P : event → bool) (w : World) : nat := count_ev P (trace w).

End Agid.

(** ** Scripted collaborators

    A script says which calls raise, which calls break the dial plan and
    what request the switch sends; the locks that refuse a writer are
    listed apart.  Scripts are used to run the module on concrete
    inputs. *)
Record script := {
  failing : list call;
  breaking : list call;
  request : option FastAGI
}.

Definition scripted_oracle (c : call) (s : script) : option exn * script :=
  if bool_decide (c ∈ failing s) then (Some (Error "failure"), s)
  else if negb (db_call c) && bool_decide (c ∈ breaking s)
       then (Some (FastAGIDialPlanBreak "rejected"), s)
       else (None, s).

Definition scripted_request (s : script) : result FastAGI * script :=
  match request s with
  | Some fagi => (Ok fagi, s)
  | None => (Raise (Error "connection reset"), s)
  end.

Definition scripted_grant (l : lock_id) (refused : list lock_id)
    : bool * list lock_id :=
  (bool_decide (l ∉ refused), refused).

(** enough of [int] for the configurations below *)
Definition scripted_int (s : string) : option Z :=
  if bool_decide (s = "2") then Some 2%Z
  else if bool_decide (s = "-1") then Some (-1)%Z
  else if bool_decide (s = "4573") then Some 4573%Z
  else None.

#[export] Instance scripted : Collaborators script (list lock_id).
Proof.
  refine {| oracle := scripted_oracle; read_request := scripted_request;
            grant_write := scripted_grant; py_int := scripted_int |}.
  intros c e m Hc. unfold scripted_oracle. rewrite Hc. simpl.
  destruct (bool_decide (c ∈ failing e)); simpl; congruence.
Defined.

Definition quiet : script := {| failing := []; breaking := []; request := None |}.

Definition sample_config : gmap string string :=
  {[ "listen_address" := "127.0.0.1"; "listen_port" := "4573";
     "connection_pool_size" := "2"; "db_uri" := "postgresql://asterisk" ]}.

(** the process when [AGID.__init__] begins: the class attribute
    [initialized] is false and the pool is new *)
Definition fresh_world (hs : gmap string Handler) (s : script)
    (refused : list lock_id) : @World script (list lock_id) :=
  {| db_conn_pool := DBConnectionPool_init; _handlers := hs;
     config := sample_config; initialized := false;
     listen_addr := None; listen_port := None;
     next_conn := 0; next_lock := 0; trace := []; ext := s;
     sched := refused |}.

(** the process when [AGID.__init__] has returned *)
Definition started_world (hs : gmap string Handler) (s : script)
    (refused : list lock_id) : @World script (list lock_id) :=
  (AGID_init (fresh_world hs s refused)).2.

(** ** Sample inputs *)

(** [agid.register(did_set_call_rights)]: a handler without setup routine *)
Definition did_set_call_rights : pyfun :=
  {| fn_name := "did_set_call_rights"; fn_id := 0 |}.

(** two handlers with a setup routine *)
Definition callerid_forphones : pyfun :=
  {| fn_name := "callerid_forphones"; fn_id := 1 |}.
Definition callerid_setup : pyfun := {| fn_name := "setup"; fn_id := 2 |}.
Definition handynumbers : pyfun := {| fn_name := "handynumbers"; fn_id := 3 |}.
Definition handynumbers_setup : pyfun := {| fn_name := "setup"; fn_id := 4 |}.

(** the registry after the three modules are loaded into an empty one *)
Definition sample_registry : gmap string Handler :=
  _handlers
    (register handynumbers (Some handynumbers_setup)
       (register callerid_forphones (Some callerid_setup)
          (register did_set_call_rights None
             (fresh_world ∅ quiet [])).2).2).2.

Definition sample_request : FastAGI :=
  {| env := {[ "agi_network_script" := "did_set_call_rights" ]};
     args := ["42"] |}.

Definition ghost_request : FastAGI :=
  {| env := {[ "agi_network_script" := "ghost_handler" ]}; args := [] |}.

(** the switch sends [fagi] and every call returns *)
Definition serving (fagi : FastAGI) : script :=
  {| failing := []; breaking := []; request := Some fagi |}.

(** * The rest of the module: start-up, and more ways to read a trace *)

(** [sep.join(l)] *)
Fixpoint join (sep : string) (l : list string) : string :=
  match l with
  | [] => ""
  | [s] => s
  | s :: l' => s +:+ sep +:+ join sep l'
  end.

(** the order of [str] values: byte by byte *)
Definition str_le (a b : string) : Prop := String.leb a b = true.

#[export] Instance str_le_dec : RelDecision str_le.
Proof. intros a b. unfold str_le. apply _. Defined.



(** a setup routine, of any handler, was invoked *)
Definition is_setup (ev : event) : bool :=
  match ev with Call (run_setup_fn _ _ _) _ => true | _ => false end.

(** the session was left, after success or failure *)
Definition is_session_exit (ev : event) : bool :=
  match ev with Call (session_exit _) _ => true | _ => false end.

(** something went to the switch, or the traceback hook ran *)
Definition is_answer (ev : event) : bool :=
  match ev with
  | Call (hook_handle | fagi_verbose _ | fagi_appexec _ _ | fagi_fail) _ => true
  | _ => false
  end.


Definition is_verbose (ev : event) : bool :=
  match ev with Call (fagi_verbose _) _ => true | _ => false end.

(** no two handlers of a registry share a lock *)
Definition locks_distinct (hs : gmap string Handler) : Prop :=
  ∀ k1 k2 h1 h2,
    hs !! k1 = Some h1 → hs !! k2 = Some h2 → lock h1 = lock h2 → k1 = k2.

(** the first function of a list that has the given [__name__], with
    the setup routine it was registered with *)
Fixpoint first_named (name : string) (mods : list (pyfun * option pyfun))
    : option (pyfun * option pyfun) :=
  match mods with
  | [] => None
  | (f, s) :: mods' =>
      if bool_decide (fn_name f = name) then Some (f, s)
      else first_named name mods'
  end.

Section Startup.

Context {E Sch : Type} `{!Collaborators E Sch}.

Local Abbreviation M := (@M E Sch).

Local Notation "x ← m ; k" := (bind m (λ x, k))
  (at level 20, m at level 100, k at level 200, only parsing).
Local Notation "m ;; k" := (bind m (λ _, k))
  (at level 100, k at level 200, right associativity).



(** the modules that call [register] when they are imported, one after
    the other; the import that raises is given up and the next one goes
    on *)
Fixpoint load_modules (mods : list (pyfun * option pyfun))
    (w : @World E Sch) : @World E Sch :=
  match mods with
  | [] => w
  | (f, s) :: mods' => load_modules mods' (register f s w).2
  end.

(** every lock of the registry was made by [RWLock()] *)
Definition locks_allocated (w : @World E Sch) : Prop :=
  map_Forall (λ _ h, lock h < next_lock w) (_handlers w).

(** [f] reads the process apart from the pool, the connections made,
    the trace, the collaborators and the locks *)
Definition server_attr {X} (f : @World E Sch → X) : Prop :=
  ∀ w t e p n s,
    f (set_trace t w) = f w ∧ f (set_ext e w) = f w ∧
    f (set_pool p w) = f w ∧ f (set_next_conn n w) = f w ∧
    f (set_sched s w) = f w.

(** [m] leaves the part [f] of the process as it is *)
Definition keeps {A X} (f : @World E Sch → X) (m : M A) : Prop :=
  ∀ w r w', m w = (r, w') → f w' = f w.

End Startup.

(** ** More sample inputs *)

Definition sample_uri : string := "postgresql://asterisk".



(** an initialized server whose configuration lost its database uri *)
Definition misconfigured_world : @World script (list lock_id) :=
  {| db_conn_pool := {| conns := [0; 1]; size := 2; db_uri := Some sample_uri |};
     _handlers := sample_registry;
     config := {[ "listen_address" := "127.0.0.1"; "listen_port" := "4573";
                  "connection_pool_size" := "2" ]};
     initialized := true;
     listen_addr := Some "127.0.0.1"; listen_port := Some 4573%Z;
     next_conn := 2; next_lock := 3; trace := []; ext := quiet;
     sched := [] |}.

(** three imports, the last one under a name that is taken *)
Definition sample_modules : list (pyfun * option pyfun) :=
  [(did_set_call_rights, None);
   (callerid_forphones, Some callerid_setup);
   ({| fn_name := "did_set_call_rights"; fn_id := 7 |}, Some handynumbers_setup)].

(** * The handler module [did_set_call_rights] *)

Module Rights.

(** What the module tells apart: [call_rights.RuleAppliedException] and
    every other exception. *)
Inductive exc : Type :=
| RuleAppliedException
| Failure (what : string).

Inductive outcome (A : Type) : Type :=
| Return (a : A)
| Throw (x : exc).
Arguments Return {A} a.
Arguments Throw {A} x.

(** A row of [rightcallexten], with the two columns the first query
    selects; [rightcallid] is an integer column. *)
Record row : Type := { rightcallid : Z; exten : string }.

(** The calls the module makes.  [Rule] is the type of the rows of the
    second query, which the module hands to [apply_rules] unread. *)
Inductive act (Rule : Type) : Type :=
| get_variable (name : string)
| query (cur : cursor) (sql : string) (columns : list string)
    (parameters : option (list string))
| fetchall (cur : cursor)
| allow
| extension_matches (srcnum pattern : string)
| apply_rules (res : list Rule).
Arguments get_variable {Rule} name.
Arguments query {Rule} cur sql columns parameters.
Arguments fetchall {Rule} cur.
Arguments allow {Rule}.
Arguments extension_matches {Rule} srcnum pattern.
Arguments apply_rules {Rule} res.

(** A call, and the exception it raised if it did not return. *)
Inductive step (Rule : Type) : Type :=
| Did (a : act Rule) (raised : option exc).
Arguments Did {Rule} a raised.

Definition raised_by {Rule} (s : step Rule) : option exc :=
  match s with Did _ o => o end.

Definition returned {Rule} (s : step Rule) : Prop := raised_by s = None.

(** the exception of an outcome *)
Definition thrown {A} (o : outcome A) : option exc :=
  match o with Return _ => None | Throw x => Some x end.

Fixpoint count_steps {Rule} (P : step Rule → bool) (l : list (step Rule)) : nat :=
  match l with
  | [] => 0
  | s :: l' => (if P s then 1 else 0) + count_steps P l'
  end.

Definition is_query {Rule} (s : step Rule) : bool :=
  match s with Did (query _ _ _ _) _ => true | _ => false end.

Definition is_apply_rules {Rule} (s : step Rule) : bool :=
  match s with Did (apply_rules _) _ => true | _ => false end.

Definition is_fetchall {Rule} (s : step Rule) : bool :=
  match s with Did (fetchall _) _ => true | _ => false end.

Definition is_allow {Rule} (s : step Rule) : bool :=
  match s with Did allow _ => true | _ => false end.

Definition is_extension_matches {Rule} (s : step Rule) : bool :=
  match s with Did (extension_matches _ _) _ => true | _ => false end.

(** The collaborators: the channel [agi], the cursor, and the module
    [call_rights].  [extension_matches] is a function of its two
    arguments; the other calls may depend on what happened before.
    [fetchall] is typed by the columns of the query it follows.
    [set_iter] is the order in which a [set] built from a sequence of
    insertions is iterated: some order of its distinct elements. *)
Class CallRights (E Rule : Type) : Type := {
  agi_get_variable : FastAGI → string → E → outcome string * E;
  cursor_query :
    cursor → string → list string → option (list string) → E → outcome unit * E;
  fetch_rightcallexten : cursor → E → outcome (list row) * E;
  fetch_rightcall : cursor → E → outcome (list Rule) * E;
  call_rights_allow : FastAGI → E → outcome unit * E;
  call_rights_extension_matches : string → string → outcome bool;
  call_rights_apply_rules : FastAGI → list Rule → E → outcome unit * E;
  RIGHTCALL_AUTHORIZATION_COLNAME : string;
  RIGHTCALL_PASSWD_COLNAME : string;
  set_iter : list Z → list Z;
  set_iter_perm : ∀ l, set_iter l ≡ₚ remove_dups l
}.

Section Module_.
Context {E Rule : Type} `{!CallRights E Rule}.

(** The calls made so far and the state of the collaborators. *)
Record Run : Type := { steps : list (step Rule); backend : E }.

Definition R (A : Type) : Type := Run → outcome A * Run.

Definition ret {A} (a : A) : R A := λ w, (Return a, w).

Definition bind {A B} (m : R A) (k : A → R B) : R B := λ w,
  match m w with
  | (Return a, w') => k a w'
  | (Throw x, w') => (Throw x, w')
  end.

Definition raise {A} (x : exc) : R A := λ w, (Throw x, w).

Definition try_except {A} (m : R A) (h : exc → R A) : R A := λ w,
  match m w with
  | (Return a, w') => (Return a, w')
  | (Throw x, w') => h x w'
  end.

Notation "x ← m ; k" := (bind m (λ x, k))
  (at level 20, m at level 100, k at level 200, only parsing).
Notation "m ;; k" := (bind m (λ _, k))
  (at level 100, k at level 200, right associativity).

(** a call whose outcome may depend on the state of the collaborators *)
Definition did {A} (a : act Rule) (f : E → outcome A * E) : R A := λ w,
  match f (backend w) with
  | (o, e) =>
      (o, {| steps := steps w ++ [Did a (thrown o)]; backend := e |})
  end.

(** the generator
    [(row['rightcallid'] for row in res
      if call_rights.extension_matches(srcnum, row['exten']))],
    consumed to its end: the ids in the order of the rows *)
Fixpoint matching_ids (srcnum : string) (res : list row) : R (list Z) :=
  match res with
  | [] => ret []
  | r :: res' =>
      b ← did (extension_matches srcnum (exten r))
              (λ e, (call_rights_extension_matches srcnum (exten r), e));
      ids ← matching_ids srcnum res';
      ret (if b : bool then rightcallid r :: ids else ids)
  end.

(** the text of the second query around the list of ids *)
Definition rightcall_query (rightcallids : string) : string :=
  "SELECT ${columns} FROM rightcall "
  +:+ "INNER JOIN rightcallmember "
  +:+ "ON rightcall.id = rightcallmember.rightcallid "
  +:+ "INNER JOIN incall "
  +:+ "ON CAST(rightcallmember.typeval AS integer) = incall.id "
  +:+ "WHERE rightcall.id IN " +:+ rightcallids +:+ " "
  +:+ "AND rightcallmember.type = 'incall' "
  +:+ "AND incall.id = %s "
  +:+ "AND rightcall.commented = 0".

(** ['(' + ','.join((str(el) for el in rightcallidset)) + ')'] *)
Definition rightcallids_of (rightcallidset : list Z) : string :=
  "(" +:+ join "," (pretty <$> set_iter rightcallidset) +:+ ")".

Definition _did_set_call_rights
    (agi : FastAGI) (cur : cursor) (args : list string) : R unit :=
  srcnum ← did (get_variable "XIVO_SRCNUM")
               (agi_get_variable agi "XIVO_SRCNUM");
  incall_id ← did (get_variable "XIVO_INCALL_ID")
                  (agi_get_variable agi "XIVO_INCALL_ID");
  did (query cur "SELECT ${columns} FROM rightcallexten"
         ["rightcallid"; "exten"] None)
      (cursor_query cur "SELECT ${columns} FROM rightcallexten"
         ["rightcallid"; "exten"] None) ;;
  res ← did (fetchall cur) (fetch_rightcallexten cur);
  match res with
  | [] => did allow (call_rights_allow agi)
  | _ :: _ => ret tt
  end ;;
  rightcallidset ← matching_ids srcnum res;
  match rightcallidset with
  | [] => did allow (call_rights_allow agi)
  | _ :: _ => ret tt
  end ;;
  let rightcallids := rightcallids_of rightcallidset in
  did (query cur (rightcall_query rightcallids)
         [RIGHTCALL_AUTHORIZATION_COLNAME; RIGHTCALL_PASSWD_COLNAME]
         (Some [incall_id]))
      (cursor_query cur (rightcall_query rightcallids)
         [RIGHTCALL_AUTHORIZATION_COLNAME; RIGHTCALL_PASSWD_COLNAME]
         (Some [incall_id])) ;;
  res ← did (fetchall cur) (fetch_rightcall cur);
  did (apply_rules res) (call_rights_apply_rules agi res) ;;
  did allow (call_rights_allow agi).

Definition did_set_call_rights
    (agi : FastAGI) (cur : cursor) (args : list string) : R unit :=
  try_except (_did_set_call_rights agi cur args)
    (λ x, match x with
          | RuleAppliedException => ret tt
          | Failure _ => raise x
          end).

(** ** Reading a run *)

(** the row matches the number *)
Definition matched (srcnum : string) (r : row) : bool :=
  match call_rights_extension_matches srcnum (exten r) with
  | Return true => true
  | _ => false
  end.

Definition asked (srcnum : string) (r : row) : step Rule :=
  Did (extension_matches srcnum (exten r)) None.

(** a run in which the calls made are [l]: every call returned, or the
    last one raised the exception of the run *)
Definition paced {A} (r : outcome A) (l : list (step Rule)) : Prop :=
  match r with
  | Return _ => Forall returned l
  | Throw x => ∃ before last,
      l = (before ++ [last])%list ∧ Forall returned before ∧
      raised_by last = Some x
  end.

Definition runs {A} (m : R A) (P : step Rule → bool) : Prop :=
  ∀ w r w', m w = (r, w') →
    ∃ l, steps w' = (steps w ++ l)%list ∧ paced r l ∧
         Forall (λ s, P s = true) l.

(** the four calls every run starts with, when they return *)
Definition opening (cur : cursor) : list (step Rule) :=
  [Did (get_variable "XIVO_SRCNUM") None;
   Did (get_variable "XIVO_INCALL_ID") None;
   Did (query cur "SELECT ${columns} FROM rightcallexten"
          ["rightcallid"; "exten"] None) None;
   Did (fetchall cur) None].

(** what a computation adds to the calls made, with its outcome *)
Definition post {A} (m : R A) (Q : outcome A → list (step Rule) → Prop) : Prop :=
  ∀ w r w', m w = (r, w') → ∃ l, steps w' = (steps w ++ l)%list ∧ Q r l.

End Module_.

(** ** A scripted [call_rights]

    [allow] raises [RuleAppliedException], as does [apply_rules] when a
    rule decides; the table [rightcallexten] and the rules found are
    given, a pattern matches the numbers it is a prefix of, and the
    calls listed in [down] fail. *)
Record rights_script : Type := {
  variables : gmap string string;
  table : list row;
  rules : list (string * string);
  deciding : bool;
  down : list string
}.

Definition fails (what : string) (s : rights_script) : bool :=
  bool_decide (what ∈ down s).

#[global] Instance scripted_rights : CallRights rights_script (string * string) := {|
  agi_get_variable _ name s :=
    (if fails "get_variable" s then Throw (Failure "hangup")
     else Return (default "" (variables s !! name)), s);
  cursor_query _ _ _ _ s :=
    (if fails "query" s then Throw (Failure "query failed") else Return tt, s);
  fetch_rightcallexten _ s :=
    (if fails "fetchall" s then Throw (Failure "no result")
     else Return (table s), s);
  fetch_rightcall _ s :=
    (if fails "fetchall" s then Throw (Failure "no result")
     else Return (rules s), s);
  call_rights_allow _ s := (Throw RuleAppliedException, s);
  call_rights_extension_matches srcnum pattern :=
    Return (String.prefix pattern srcnum);
  call_rights_apply_rules _ res s :=
    (if deciding s then Throw RuleAppliedException else Return tt, s);
  RIGHTCALL_AUTHORIZATION_COLNAME := "rightcall.authorization";
  RIGHTCALL_PASSWD_COLNAME := "rightcall.passwd";
  set_iter l := merge_sort Z.le (remove_dups l);
  set_iter_perm l := merge_sort_Permutation Z.le (remove_dups l)
|}.

Definition sample_call : rights_script :=
  {| variables := {[ "XIVO_SRCNUM" := "0140"; "XIVO_INCALL_ID" := "12" ]};
     table := [ {| rightcallid := 7; exten := "01" |};
                {| rightcallid := 3; exten := "06" |};
                {| rightcallid := 7; exten := "014" |};
                {| rightcallid := 5; exten := "0" |} ];
     rules := [("1", "")];
     deciding := false;
     down := [] |}.

(** a caller whose number no row of the table matches *)
Definition foreign_call : rights_script :=
  {| variables := {[ "XIVO_SRCNUM" := "0033"; "XIVO_INCALL_ID" := "12" ]};
     table := [ {| rightcallid := 7; exten := "01" |};
                {| rightcallid := 3; exten := "06" |} ];
     rules := [];
     deciding := false;
     down := [] |}.

Definition start (s : rights_script) : @Run rights_script (string * string) :=
  {| steps := []; backend := s |}.

End Rights.

(** * Properties *)

Local Close Scope string_scope.

Lemma count_ev_app P t1 t2 :
  count_ev P (t1 ++ t2) = count_ev P t1 + count_ev P t2.
Proof. induction t1 as [|ev t1 IH]; simpl; [done|]. rewrite IH. lia. Qed.

Lemma count_ev_none P t :
  Forall (λ ev, P ev = false) t → count_ev P t = 0.
Proof. induction 1 as [|ev t Hev _ IH]; simpl; [done|]. by rewrite Hev, IH. Qed.

Section Proofs.

Context {E Sch : Type} `{!Collaborators E Sch}.

Implicit Types (w : @World E Sch) (c : conn) (p : DBConnectionPool).

Local Abbreviation M := (@M E Sch).

Local Notation "x ← m ; k" := (bind m (λ x, k))
  (at level 20, m at level 100, k at level 200, only parsing).
Local Notation "m ;; k" := (bind m (λ _, k))
  (at level 100, k at level 200, right associativity).

Lemma io_step_refl w : io_step w w.
Proof. exists [], (ext w). destruct w; simpl. by rewrite app_nil_r. Qed.

Lemma io_step_trans w1 w2 w3 : io_step w1 w2 → io_step w2 w3 → io_step w1 w3.
Proof.
  intros (d1 & e1 & ->) (d2 & e2 & ->). exists (d1 ++ d2)%list, e2.
  simpl. by rewrite app_assoc.
Qed.

Lemma collab_io k w r w' : collab k w = (r, w') → io_step w w'.
Proof.
  unfold collab. destruct (oracle k (ext w)) as [[x|] e'];
    intros [= <- <-]; by eexists _, _.
Qed.

Lemma emit_io ev w r w' : emit ev w = (r, w') → io_step w w'.
Proof.
  intros [= <- <-]. exists [ev], (ext w). by destruct w.
Qed.

Lemma for_each_close_io l w r w' :
  for_each l (λ c, collab (conn_close c)) w = (r, w') → io_step w w'.
Proof.
  revert w. induction l as [|c l IH]; intros w; simpl.
  - intros [= <- <-]. apply io_step_refl.
  - unfold bind. destruct (collab (conn_close c) w) as [[[]|x] w1] eqn:H1.
    + intros H2. eapply io_step_trans; [by eapply collab_io | by eapply IH].
    + intros [= <- <-]. by eapply collab_io.
Qed.


Lemma comprehension_connect n uri w r w' :
  comprehension n (anysql_connect_by_uri uri) w = (r, w') →
  db_conn_pool w' = db_conn_pool w ∧
  match r with
  | Ok cs => cs = seq (next_conn w) n ∧ next_conn w' = next_conn w + n
  | Raise _ => True
  end.
Proof.
  revert w r w'. induction n as [|n IH]; intros w r w'; simpl.
  - intros [= <- <-]. split; [done|]. split; [done|lia].
  - unfold bind at 1. unfold anysql_connect_by_uri at 1. unfold bind at 1.
    destruct (collab (connect_by_uri uri) w) as [[[]|x] w1] eqn:H1.
    + apply collab_io in H1 as (d & e & ->). simpl.
      unfold bind at 1.
      destruct (comprehension n _ _) as [[cs|x] w2] eqn:H2;
        apply IH in H2 as [Hp Hr]; simpl in *; intros [= <- <-].
      * destruct Hr as [-> ->]. split; [done|]. split; [done|lia].
      * done.
    + apply collab_io in H1 as (d & e & ->). by intros [= <- <-].
Qed.

Lemma reload_pool n u w r w' :
  DBConnectionPool_reload n u w = (r, w') →
  (r = Ok tt ∧
   db_conn_pool w' =
     {| conns := seq (next_conn w) (Z.to_nat n); size := n; db_uri := Some u |} ∧
   next_conn w' = next_conn w + Z.to_nat n) ∨
  (∃ e, r = Raise e ∧ db_conn_pool w' = db_conn_pool w).
Proof.
  unfold DBConnectionPool_reload, bind, get_pool, put_pool, log, emit.
  destruct (for_each _ _ w) as [[[]|x] w1] eqn:H1;
    apply for_each_close_io in H1 as (d1 & e1 & ->).
  - destruct (comprehension _ _ _) as [[cs|x] w2] eqn:H2;
      apply comprehension_connect in H2 as [Hp Hr]; simpl in *.
    + destruct Hr as [-> Hn]. intros [= <- <-]; left. by simpl.
    + intros [= <- <-]; right. by exists x.
  - intros [= <- <-]; right. by exists x.
Qed.

Lemma release_pool c w :
  ∃ r w', DBConnectionPool_release c w = (r, w') ∧
    _handlers w' = _handlers w ∧ next_conn w' = next_conn w ∧
    tally is_release w' = tally is_release w + 1 ∧
    tally (is_release_of c) w' = tally (is_release_of c) w + 1 ∧
    tally is_borrow w' = tally is_borrow w ∧
    tally is_connect w' = tally is_connect w ∧
    if bool_decide (Z.of_nat (length (conns (db_conn_pool w))) < size (db_conn_pool w))%Z
    then r = Ok tt ∧ ext w' = ext w ∧
         db_conn_pool w' =
           {| conns := conns (db_conn_pool w) ++ [c];
              size := size (db_conn_pool w); db_uri := db_uri (db_conn_pool w) |} ∧
         tally (is_close_of c) w' = tally (is_close_of c) w
    else db_conn_pool w' = db_conn_pool w ∧
         tally (is_close_of c) w' = tally (is_close_of c) w + 1.
Proof.
  unfold DBConnectionPool_release, bind, get_pool, put_pool, log, emit, tally.
  simpl. case_bool_decide; simpl.
  - eexists _, _. split; [done|]. simpl. rewrite !count_ev_app; simpl.
    rewrite bool_decide_true by done. repeat split; lia.
  - unfold collab; simpl.
    destruct (oracle (conn_close c) (ext w)) as [[x|] e']; simpl;
      eexists _, _; (split; [done|]); simpl; rewrite !count_ev_app; simpl;
      rewrite bool_decide_true by done; repeat split; lia.
Qed.


Lemma acquire_pop cs c w :
  conns (db_conn_pool w) = cs ++ [c] →
  DBConnectionPool_acquire w =
    (Ok c,
     set_trace
       (trace w ++
          [Log DEBUG "acquiring connection: got connection from pool" [];
           Borrowed c])
       (set_pool {| conns := cs; size := size (db_conn_pool w);
                    db_uri := db_uri (db_conn_pool w) |} w)).
Proof.
  intros Hcs.
  unfold DBConnectionPool_acquire, bind, try_except, conns_pop, bind,
    get_pool, put_pool, log, emit, ret.
  rewrite Hcs, rev_app_distr. simpl. rewrite rev_involutive.
  by rewrite <- app_assoc.
Qed.

Lemma acquire_open w :
  conns (db_conn_pool w) = [] →
  DBConnectionPool_acquire w =
    match oracle (connect_by_uri (db_uri (db_conn_pool w))) (ext w) with
    | (None, e') =>
        (Ok (next_conn w),
         set_trace
           (trace w ++
              [Call (connect_by_uri (db_uri (db_conn_pool w))) None;
               Log DEBUG "acquiring connection: pool empty, created new connection" [];
               Borrowed (next_conn w)])
           (set_next_conn (S (next_conn w)) (set_ext e' w)))
    | (Some x, e') =>
        (Raise x,
         set_trace
           (trace w ++ [Call (connect_by_uri (db_uri (db_conn_pool w))) (Some x)])
           (set_ext e' w))
    end.
Proof.
  intros Hcs.
  unfold DBConnectionPool_acquire, bind, try_except, conns_pop, bind,
    get_pool, put_pool, log, emit, ret, raise, anysql_connect_by_uri, bind,
    collab.
  rewrite Hcs. simpl.
  destruct (oracle _ (ext w)) as [[x|] e']; simpl; [done|].
  by rewrite <- !app_assoc.
Qed.

(** the reserve is emptied from its end, without a call to the driver *)
Lemma acquire_all cs w :
  conns (db_conn_pool w) = cs →
  ∃ w', comprehension (length cs) DBConnectionPool_acquire w = (Ok (rev cs), w') ∧
    conns (db_conn_pool w') = [] ∧
    size (db_conn_pool w') = size (db_conn_pool w) ∧
    db_uri (db_conn_pool w') = db_uri (db_conn_pool w) ∧
    next_conn w' = next_conn w ∧ ext w' = ext w ∧
    tally is_connect w' = tally is_connect w.
Proof.
  revert w. induction cs as [|c cs IH] using rev_ind; intros w Hcs.
  - simpl. by eexists.
  - rewrite length_app, Nat.add_comm. simpl. unfold bind at 1.
    rewrite (acquire_pop cs c) by done. cbv beta iota. unfold bind at 1.
    match goal with |- context [comprehension _ _ ?w1] =>
      destruct (IH w1) as (w' & Hrun & H1 & H2 & H3 & H4 & H5 & H6); [done|] end.
    rewrite Hrun. eexists. split.
    + unfold ret. by rewrite rev_app_distr.
    + simpl in *. repeat split; try done.
      rewrite H6. unfold tally; simpl. rewrite count_ev_app; simpl. lia.
Qed.


Lemma acquire_bound w r w' :
  DBConnectionPool_acquire w = (r, w') →
  size (db_conn_pool w') = size (db_conn_pool w) ∧
  length (conns (db_conn_pool w')) ≤ length (conns (db_conn_pool w)).
Proof.
  destruct (conns (db_conn_pool w)) as [|c cs _] eqn:Hcs using rev_ind.
  - rewrite acquire_open by done.
    destruct (oracle _ _) as [[x|] e']; intros [= <- <-]; simpl;
      rewrite ?Hcs; simpl; split; (done || lia).
  - rewrite (acquire_pop cs c) by done. intros [= <- <-]. simpl.
    rewrite length_app. split; [done|lia].
Qed.

(** the bound that every call of the pool keeps *)
Lemma pool_op_bounded o w :
  (Z.of_nat (length (conns (db_conn_pool w))) ≤ Z.max 0 (size (db_conn_pool w)))%Z →
  let p' := db_conn_pool (run_pool_op o w).2 in
  (Z.of_nat (length (conns p')) ≤ Z.max 0 (size p'))%Z.
Proof.
  intros Hw. destruct o as [n u| |c]; simpl.
  - destruct (DBConnectionPool_reload n u w) as [r w'] eqn:Hr. simpl.
    apply reload_pool in Hr as [(_ & -> & _)|(x & _ & ->)]; simpl; [|done].
    rewrite length_seq. lia.
  - unfold bind. destruct (DBConnectionPool_acquire w) as [[c|x] w'] eqn:Ha;
      apply acquire_bound in Ha as [Hs Hl]; simpl; rewrite Hs; lia.
  - destruct (release_pool c w) as (r & w' & -> & _ & _ & _ & _ & _ & _ & Hp).
    simpl. case_bool_decide.
    + destruct Hp as (_ & _ & -> & _). simpl. rewrite length_app. simpl. lia.
    + destruct Hp as [-> _]. done.
Qed.

Lemma pool_ops_bounded ops w :
  (Z.of_nat (length (conns (db_conn_pool w))) ≤ Z.max 0 (size (db_conn_pool w)))%Z →
  let p' := db_conn_pool (run_pool_ops ops w) in
  (Z.of_nat (length (conns p')) ≤ Z.max 0 (size p'))%Z.
Proof.
  revert w. induction ops as [|o ops IH]; intros w Hw; simpl; [done|].
  apply IH. by apply pool_op_bounded.
Qed.

(** C3 (as amended): a connection borrowed before [reload(size, uri)] and
    released right after it is closed, not cached; when other calls of
    the pool come between the reload and the release, the release caches
    the connection if the reserve then holds fewer than [size]
    connections and closes it otherwise. *)
Theorem C3_stale_connection_closed_when_full c n u w w1 :
  DBConnectionPool_reload n u w = (Ok tt, w1) →
  (∃ r w2, DBConnectionPool_release c w1 = (r, w2) ∧
     db_conn_pool w2 = db_conn_pool w1 ∧
     tally (is_close_of c) w2 = tally (is_close_of c) w1 + 1) ∧
  (∀ ops, let w2 := run_pool_ops ops w1 in
     ∃ r w3, DBConnectionPool_release c w2 = (r, w3) ∧
       if bool_decide (Z.of_nat (length (conns (db_conn_pool w2)))
                        < size (db_conn_pool w2))%Z
       then conns (db_conn_pool w3) = conns (db_conn_pool w2) ++ [c] ∧
            tally (is_close_of c) w3 = tally (is_close_of c) w2
       else db_conn_pool w3 = db_conn_pool w2 ∧
            tally (is_close_of c) w3 = tally (is_close_of c) w2 + 1).
Proof.
  intros Hr. split.
  - apply reload_pool in Hr as [(_ & Hp & _)|(x & ? & _)]; [|done].
    destruct (release_pool c w1) as (r & w2 & Hrel & _ & _ & _ & _ & _ & _ & Hc).
    exists r, w2. split; [done|].
    rewrite bool_decide_false in Hc; [done|].
    rewrite Hp; simpl. rewrite length_seq. lia.
  - intros ops w2.
    destruct (release_pool c w2) as (r & w3 & Hrel & _ & _ & _ & _ & _ & _ & Hc).
    exists r, w3. split; [done|]. case_bool_decide.
    + destruct Hc as (_ & _ & -> & ?). done.
    + done.
Qed.

(** C4 (as amended): in every state that calls of [reload], [acquire] and
    [release] reach from a new pool, the reserve holds at most
    [max(size, 0)] connections, hence at most [size] when [size] is not
    negative; [release(conn)] caches [conn] exactly when the reserve
    holds fewer than [size] connections and closes it otherwise. *)
Theorem C4_reserve_bounded ops c w0 :
  db_conn_pool w0 = DBConnectionPool_init →
  let w := run_pool_ops ops w0 in
  let p := db_conn_pool w in
  (Z.of_nat (length (conns p)) ≤ Z.max 0 (size p))%Z ∧
  ((0 ≤ size p)%Z → (Z.of_nat (length (conns p)) ≤ size p)%Z) ∧
  ∃ r w', DBConnectionPool_release c w = (r, w') ∧
    if bool_decide (Z.of_nat (length (conns p)) < size p)%Z
    then r = Ok tt ∧
         db_conn_pool w' =
           {| conns := conns p ++ [c]; size := size p; db_uri := db_uri p |} ∧
         tally (is_close_of c) w' = tally (is_close_of c) w
    else db_conn_pool w' = p ∧
         tally (is_close_of c) w' = tally (is_close_of c) w + 1.
Proof.
  intros H0 w p.
  assert (Hb : (Z.of_nat (length (conns p)) ≤ Z.max 0 (size p))%Z).
  { apply pool_ops_bounded. rewrite H0. simpl. lia. }
  split; [done|]. split; [lia|].
  destruct (release_pool c w) as (r & w' & Hrel & _ & _ & _ & _ & _ & _ & Hc).
  exists r, w'. split; [done|]. fold p in Hc. case_bool_decide.
  - destruct Hc as (? & _ & ? & ?). done.
  - done.
Qed.

(** C5: [acquire()] takes the last connection of a reserve that is not
    empty and returns it without a call to the driver; on an empty
    reserve it returns the new connection that [connect_by_uri] makes for
    the current uri; it is a function of the state alone and waits for
    nothing.  After [reload(N, uri)], [N] calls of [acquire()] return the
    [N] connections of the reserve, all distinct, and the next call
    opens a connection that is none of them. *)
Theorem C5_acquire_pops_or_opens w :
  (∀ cs c, conns (db_conn_pool w) = cs ++ [c] →
     ∃ w', DBConnectionPool_acquire w = (Ok c, w') ∧
       conns (db_conn_pool w') = cs ∧
       tally is_connect w' = tally is_connect w) ∧
  (∀ e', conns (db_conn_pool w) = [] →
     oracle (connect_by_uri (db_uri (db_conn_pool w))) (ext w) = (None, e') →
     ∃ w', DBConnectionPool_acquire w = (Ok (next_conn w), w') ∧
       conns (db_conn_pool w') = [] ∧
       next_conn w' = S (next_conn w) ∧
       trace w' = trace w ++
         [Call (connect_by_uri (db_uri (db_conn_pool w))) None;
          Log DEBUG "acquiring connection: pool empty, created new connection" [];
          Borrowed (next_conn w)]) ∧
  (∀ (N : nat) uri w1,
     DBConnectionPool_reload (Z.of_nat N) uri w = (Ok tt, w1) →
     ∃ w2, comprehension N DBConnectionPool_acquire w1
             = (Ok (rev (conns (db_conn_pool w1))), w2) ∧
       length (conns (db_conn_pool w1)) = N ∧
       NoDup (conns (db_conn_pool w1)) ∧
       tally is_connect w2 = tally is_connect w1 ∧
       ∀ e', oracle (connect_by_uri (Some uri)) (ext w2) = (None, e') →
         ∃ c' w3, DBConnectionPool_acquire w2 = (Ok c', w3) ∧
           (c' ∉ conns (db_conn_pool w1)) ∧
           tally (is_call (connect_by_uri (Some uri))) w3
             = tally (is_call (connect_by_uri (Some uri))) w2 + 1).
Proof.
  split; [|split].
  - intros cs c Hcs. rewrite (acquire_pop cs c) by done.
    eexists. split; [done|]. split; [done|].
    unfold tally. simpl. rewrite count_ev_app. simpl. lia.
  - intros e' Hcs Ho. rewrite acquire_open, Ho by done.
    eexists. by repeat split.
  - intros N uri w1 Hr.
    apply reload_pool in Hr as [(_ & Hp & Hn)|(x & ? & _)]; [|done].
    rewrite Nat2Z.id in Hp, Hn.
    destruct (acquire_all (conns (db_conn_pool w1)) w1)
      as (w2 & Hrun & Hc2 & Hs2 & Hu2 & Hn2 & He2 & Ht2); [done|].
    assert (Hlen : length (conns (db_conn_pool w1)) = N).
    { rewrite Hp. simpl. apply length_seq. }
    rewrite Hlen in Hrun. exists w2. split; [done|]. split; [done|].
    split. { rewrite Hp. simpl. apply NoDup_seq. }
    split; [done|]. intros e' Ho.
    rewrite Hp in Hu2. simpl in Hu2.
    exists (next_conn w2). rewrite acquire_open, Hu2, Ho by done.
    eexists. split; [done|]. split.
    + rewrite Hp. simpl. rewrite Hn2, Hn, elem_of_seq. lia.
    + unfold tally. simpl. rewrite count_ev_app. simpl.
      rewrite bool_decide_true by done. lia.
Qed.


(** C6: [register(handle_fn, setup_fn)] under a name that is already in
    the registry raises [ValueError] and changes nothing, so the handler
    registered first stays; under a new name it adds the one entry for
    that name and leaves every other entry as it was. *)
Theorem C6_register_refuses_duplicates f s w :
  (∀ h0, _handlers w !! fn_name f = Some h0 →
     register f s w
       = (Raise (ValueError "handler %r already registered" (fn_name f)), w)) ∧
  (_handlers w !! fn_name f = None →
     ∃ w', register f s w = (Ok tt, w') ∧
       _handlers w' !! fn_name f =
         Some {| handler_name := fn_name f; setup_fn := s; handle_fn := f;
                 lock := next_lock w |} ∧
       (∀ k, k ≠ fn_name f → _handlers w' !! k = _handlers w !! k) ∧
       base.size (_handlers w') = S (base.size (_handlers w))).
Proof.
  unfold register, bind, get_handlers, put_handlers, Handler_init, bind,
    RWLock_new, ret, raise.
  split.
  - intros h0 Hh. by rewrite Hh.
  - intros Hh. rewrite Hh. eexists. split; [done|]. simpl.
    split; [by rewrite lookup_insert_eq|].
    split; [by intros k Hk; rewrite lookup_insert_ne|].
    by rewrite map_size_insert_None.
Qed.

(** the registry that [register] builds is filed by handler name *)
Lemma register_wf f s w r w' :
  registry_wf (_handlers w) → register f s w = (r, w') →
  registry_wf (_handlers w').
Proof.
  unfold register, bind, get_handlers, put_handlers, Handler_init, bind,
    RWLock_new, ret, raise, registry_wf.
  intros Hwf. destruct (_handlers w !! fn_name f) eqn:Hf; intros [= <- <-].
  - done.
  - simpl. by apply map_Forall_insert_2.
Qed.

(** C7: when the handler has a setup routine and its lock refuses the
    writer, [Handler.reload] returns after two error records: the setup
    routine is not called, and the pool, the registry and everything the
    collaborators hold (what an earlier setup produced) are as before. *)
Theorem C7_refused_reload_is_skipped h f cur w s' :
  setup_fn h = Some f →
  grant_write (lock h) (sched w) = (false, s') →
  ∃ w', Handler_reload h cur w = (Ok tt, w') ∧
    trace w' = trace w ++
      [AcquireWrite (lock h) false;
       Log ERROR "deadlock detected and avoided for %r" [handler_name h];
       Log ERROR "%r has not be reloaded" [handler_name h]] ∧
    (∀ name, tally (is_setup_of name) w' = tally (is_setup_of name) w) ∧
    ext w' = ext w ∧
    db_conn_pool w' = db_conn_pool w ∧
    _handlers w' = _handlers w.
Proof.
  intros Hf Hg.
  unfold Handler_reload, bind, RWLock_acquire_write, log, emit, ret.
  rewrite Hf, Hg. simpl. eexists. split; [done|]. simpl.
  split; [by rewrite <- !app_assoc|]. split; [|done].
  intros name. unfold tally. simpl. rewrite !count_ev_app. simpl. lia.
Qed.

(** C9: for a handler without a setup routine, [Handler.setup] and
    [Handler.reload] return at once and leave the process as it was: no
    routine is called and no lock is asked for. *)
Theorem C9_no_setup_routine_is_noop h cur w :
  setup_fn h = None →
  Handler_setup h cur w = (Ok tt, w) ∧ Handler_reload h cur w = (Ok tt, w).
Proof.
  intros Hf. unfold Handler_setup, Handler_reload. by rewrite Hf.
Qed.

(** C10: every run of [Handler.handle], whether it returns or raises,
    asks for the read lock first and releases the lock last, and asks
    for or releases no lock in between: one acquisition, one release,
    also when the handle routine or the end of the session raises. *)
Theorem C10_read_lock_released_once h agi cur a w :
  ∃ r w' d, Handler_handle h agi cur a w = (r, w') ∧
    trace w' = trace w ++ AcquireRead (lock h) :: d ++ [ReleaseLock (lock h)] ∧
    count_ev is_lock_ev d = 0 ∧
    tally (is_ev (AcquireRead (lock h))) w'
      = tally (is_ev (AcquireRead (lock h))) w + 1 ∧
    tally (is_ev (ReleaseLock (lock h))) w'
      = tally (is_ev (ReleaseLock (lock h))) w + 1.
Proof.
  unfold Handler_handle, bind, try_finally, with_session_scope, bind,
    RWLock_acquire_read, RWLock_release, emit, collab, raise, tally.
  simpl.
  destruct (oracle session_enter (ext w)) as [[x1|] e1]; simpl.
  { eexists _, _, [_]. split; [done|]. simpl. rewrite <- !app_assoc. simpl.
    split; [done|]. split; [done|]. rewrite !count_ev_app. simpl.
    unfold is_ev. rewrite !bool_decide_true by done. simpl. lia. }
  destruct (oracle (run_handle_fn _ _ _ _) e1) as [[x2|] e2]; simpl;
    (destruct (oracle (session_exit _) e2) as [[x3|] e3]; simpl;
     eexists _, _, [_; _; _]; (split; [done|]); simpl;
     rewrite <- !app_assoc; simpl; (split; [done|]); (split; [done|]);
     rewrite !count_ev_app; simpl; unfold is_ev;
     rewrite !bool_decide_true by done; simpl; lia).
Qed.


(** ** What each operation writes *)

Lemma emits_tally {A} (m : M A) allowed P w r w' :
  emits m allowed → m w = (r, w') →
  (∀ ev, allowed ev = true → P ev = false) →
  tally P w' = tally P w.
Proof.
  intros Hm Hrun HP. destruct (Hm _ _ _ Hrun) as (_ & d & Hd & Hall).
  unfold tally. rewrite Hd, count_ev_app, (count_ev_none P d); [lia|].
  eapply Forall_impl; [done|]. auto.
Qed.

Lemma emits_mono {A} (m : M A) (a1 a2 : event → bool) :
  (∀ ev, a1 ev = true → a2 ev = true) → emits m a1 → emits m a2.
Proof.
  intros Hsub Hm w r w' Hrun. destruct (Hm _ _ _ Hrun) as (? & d & ? & Hall).
  split; [done|]. exists d. split; [done|]. eapply Forall_impl; [done|]. auto.
Qed.

Lemma emits_pure {A} (m : M A) allowed :
  (∀ w, ∃ r w', m w = (r, w') ∧ _handlers w' = _handlers w ∧ trace w' = trace w) →
  emits m allowed.
Proof.
  intros Hm w r w' Hrun. destruct (Hm w) as (r0 & w0 & H0 & Hh & Ht).
  rewrite Hrun in H0. simplify_eq. split; [done|]. exists [].
  by rewrite app_nil_r.
Qed.

Lemma emits_ret {A} (a : A) allowed : @emits E Sch A (ret a) allowed.
Proof. apply emits_pure. intros w. by eexists _, _. Qed.

Lemma emits_raise {A} x allowed : @emits E Sch A (raise x) allowed.
Proof. apply emits_pure. intros w. by eexists _, _. Qed.

Lemma emits_bind {A B} (m : M A) (k : A → M B) allowed :
  emits m allowed → (∀ a, emits (k a) allowed) → emits (bind m k) allowed.
Proof.
  intros Hm Hk w r w'. unfold bind.
  destruct (m w) as [[a|x] w1] eqn:H1;
    destruct (Hm _ _ _ H1) as (Hh1 & d1 & Ht1 & Hall1).
  - intros H2. destruct (Hk a _ _ _ H2) as (Hh2 & d2 & Ht2 & Hall2).
    split; [congruence|]. exists (d1 ++ d2)%list.
    split; [by rewrite Ht2, Ht1, app_assoc|]. by apply Forall_app.
  - intros [= <- <-]. split; [done|]. by exists d1.
Qed.

Lemma emits_try_finally {A} (m : M A) f allowed :
  emits m allowed → emits f allowed → emits (try_finally m f) allowed.
Proof.
  intros Hm Hf w r w'. unfold try_finally.
  destruct (m w) as [r1 w1] eqn:H1.
  destruct (Hm _ _ _ H1) as (Hh1 & d1 & Ht1 & Hall1).
  destruct (f w1) as [[[]|x] w2] eqn:H2;
    destruct (Hf _ _ _ H2) as (Hh2 & d2 & Ht2 & Hall2);
    intros [= <- <-]; (split; [congruence|]); exists (d1 ++ d2)%list;
    (split; [by rewrite Ht2, Ht1, app_assoc|]); by apply Forall_app.
Qed.

Lemma emits_try_except {A} (m : M A) h allowed :
  emits m allowed → (∀ x, emits (h x) allowed) → emits (try_except m h) allowed.
Proof.
  intros Hm Hh w r w'. unfold try_except.
  destruct (m w) as [[a|x] w1] eqn:H1;
    destruct (Hm _ _ _ H1) as (Hh1 & d1 & Ht1 & Hall1).
  - intros [= <- <-]. split; [done|]. by exists d1.
  - intros H2. destruct (Hh x _ _ _ H2) as (Hh2 & d2 & Ht2 & Hall2).
    split; [congruence|]. exists (d1 ++ d2)%list.
    split; [by rewrite Ht2, Ht1, app_assoc|]. by apply Forall_app.
Qed.

Lemma emits_emit ev (allowed : event → bool) :
  allowed ev = true → @emits E Sch _ (emit ev) allowed.
Proof.
  intros Hev w r w' [= <- <-]. split; [done|]. exists [ev]. split; [done|].
  by constructor.
Qed.

Lemma emits_collab k (allowed : event → bool) :
  (∀ o, allowed (Call k o) = true) → emits (collab k) allowed.
Proof.
  intros Hk w r w'. unfold collab.
  destruct (oracle k (ext w)) as [[x|] e']; intros [= <- <-];
    (split; [done|]); eexists [_]; (split; [done|]); by constructor.
Qed.

Lemma emits_for_each {A} (l : list A) (body : A → M unit) allowed :
  (∀ x, emits (body x) allowed) → emits (for_each l body) allowed.
Proof.
  intros Hb. induction l as [|x l IH]; simpl.
  - apply emits_ret.
  - apply emits_bind; [apply Hb | by intros _].
Qed.

Lemma emits_comprehension {A} n (m : M A) allowed :
  emits m allowed → emits (comprehension n m) allowed.
Proof.
  intros Hm. induction n as [|n IH]; simpl.
  - apply emits_ret.
  - apply emits_bind; [done|]. intros x. apply emits_bind; [done|].
    intros l. apply emits_ret.
Qed.


Ltac emits_step :=
  first
    [ apply emits_ret | apply emits_raise
    | apply emits_emit; reflexivity
    | apply emits_collab; intros ?; reflexivity
    | apply emits_bind; [|intros ?]
    | apply emits_try_finally
    | apply emits_try_except; [|intros ?]
    | apply emits_for_each; intros ?
    | apply emits_comprehension
    | apply emits_pure; intros ?; by eexists _, _
    | match goal with |- emits (match ?x with _ => _ end) _ => destruct x end
    | match goal with |- emits (if ?b then _ else _) _ => destruct b end ].

Ltac emits_tac := repeat emits_step.

Lemma emits_acquire : emits DBConnectionPool_acquire pool_ev.
Proof.
  unfold DBConnectionPool_acquire, conns_pop, anysql_connect_by_uri, log,
    get_pool, put_pool.
  emits_tac.
Qed.

Lemma emits_release c : emits (DBConnectionPool_release c) pool_ev.
Proof.
  unfold DBConnectionPool_release, log, get_pool, put_pool. emits_tac.
Qed.

Lemma emits_reload n u : emits (DBConnectionPool_reload n u) reload_ev.
Proof.
  unfold DBConnectionPool_reload, anysql_connect_by_uri, log, get_pool,
    put_pool.
  emits_tac.
Qed.

Lemma emits_with_session_scope body :
  emits body handler_ev → emits (with_session_scope body) handler_ev.
Proof.
  intros Hb. unfold with_session_scope. apply emits_bind; [emits_tac|].
  intros _ w r w'. destruct (body w) as [[[]|x] w1] eqn:H1;
    destruct (Hb _ _ _ H1) as (Hh1 & d1 & Ht1 & Hall1); intros H2.
  - assert (He : emits (collab (session_exit false)) handler_ev) by emits_tac.
    destruct (He _ _ _ H2) as (Hh2 & d2 & Ht2 & Hall2).
    split; [congruence|]. exists (d1 ++ d2)%list.
    split; [by rewrite Ht2, Ht1, app_assoc|]. by apply Forall_app.
  - assert (He : emits (collab (session_exit true) ;; raise x : M unit) handler_ev)
      by emits_tac.
    destruct (He _ _ _ H2) as (Hh2 & d2 & Ht2 & Hall2).
    split; [congruence|]. exists (d1 ++ d2)%list.
    split; [by rewrite Ht2, Ht1, app_assoc|]. by apply Forall_app.
Qed.

Lemma emits_Handler_handle h agi cur a :
  emits (Handler_handle h agi cur a) handler_ev.
Proof.
  unfold Handler_handle, RWLock_acquire_read, RWLock_release.
  apply emits_bind; [emits_tac|]. intros _. apply emits_try_finally.
  - apply emits_with_session_scope. emits_tac.
  - emits_tac.
Qed.

Lemma emits_acquire_write l : emits (RWLock_acquire_write l) handler_ev.
Proof.
  intros w r w'. unfold RWLock_acquire_write.
  destruct (grant_write l (sched w)) as [b s']. intros [= <- <-].
  split; [done|]. eexists [_]. split; [done|]. by constructor.
Qed.

Lemma emits_Handler_reload h cur : emits (Handler_reload h cur) handler_ev.
Proof.
  unfold Handler_reload, RWLock_release, log.
  destruct (setup_fn h); [|emits_tac].
  apply emits_bind; [apply emits_acquire_write|]. intros b. emits_tac.
Qed.

Lemma emits_handle_except fagi hook x :
  emits (handle_except fagi hook x) signal_ev.
Proof.
  unfold handle_except, except_any, except_FastAGIDialPlanBreak, log.
  emits_tac.
Qed.


(** ** The dispatcher *)

Lemma tally_io P w (d : list event) e :
  tally P (set_ext e (set_trace (trace w ++ d) w)) = tally P w + count_ev P d.
Proof. unfold tally. simpl. apply count_ev_app. Qed.

Lemma collab_db_raise k w x w' :
  db_call k = true → collab k w = (Raise x, w') → is_break x = false.
Proof.
  intros Hk. unfold collab.
  destruct (oracle k (ext w)) as [[y|] e'] eqn:Ho; intros [= <- <-].
  destruct y; try done. exfalso.
  eapply (db_errors k (ext w)); [done|]. by rewrite Ho.
Qed.

Lemma acquire_raise w x w' :
  DBConnectionPool_acquire w = (Raise x, w') →
  is_break x = false ∧ tally is_borrow w' = tally is_borrow w ∧
  tally is_release w' = tally is_release w.
Proof.
  destruct (conns (db_conn_pool w)) as [|c cs _] eqn:Hcs using rev_ind.
  - rewrite acquire_open by done.
    destruct (oracle _ (ext w)) as [[y|] e'] eqn:Ho; intros [= <- <-].
    split.
    + destruct y; try done. exfalso.
      eapply (db_errors _ (ext w)); [|by rewrite Ho]. done.
    + unfold tally. simpl. rewrite !count_ev_app. simpl. lia.
  - by rewrite (acquire_pop cs c).
Qed.

Lemma acquire_ok w c w' :
  DBConnectionPool_acquire w = (Ok c, w') →
  tally is_borrow w' = tally is_borrow w + 1 ∧
  tally is_release w' = tally is_release w ∧
  tally (is_release_of c) w' = tally (is_release_of c) w ∧
  tally (is_close_of c) w' = tally (is_close_of c) w.
Proof.
  destruct (conns (db_conn_pool w)) as [|c0 cs _] eqn:Hcs using rev_ind.
  - rewrite acquire_open by done.
    destruct (oracle _ (ext w)) as [[y|] e'] eqn:Ho; intros [= <- <-].
    unfold tally. simpl. rewrite !count_ev_app. simpl. lia.
  - rewrite (acquire_pop cs c0) by done. intros [= <- <-].
    unfold tally. simpl. rewrite !count_ev_app. simpl. lia.
Qed.

Lemma release_result c w r w' :
  DBConnectionPool_release c w = (r, w') →
  (r = Ok tt ∨ ∃ x, r = Raise x ∧ is_break x = false) ∧
  tally is_release w' = tally is_release w + 1 ∧
  tally (is_release_of c) w' = tally (is_release_of c) w + 1 ∧
  tally is_borrow w' = tally is_borrow w.
Proof.
  intros Hrel.
  destruct (release_pool c w) as (r0 & w0 & H0 & _ & _ & H1 & H2 & H3 & _).
  rewrite Hrel in H0. simplify_eq. split; [|done].
  revert Hrel. unfold DBConnectionPool_release, bind, emit, get_pool, put_pool, log, emit.
  simpl. case_bool_decide; simpl.
  - intros [= <- <-]. by left.
  - destruct (collab (conn_close c) _) as [[[]|x] w1] eqn:Hc.
    + intros [= <- <-]. by left.
    + intros [= <- <-]. right. exists x. split; [done|].
      eapply collab_db_raise; [|exact Hc]. done.
Qed.

Lemma handle_except_other fagi hook x :
  is_break x = false → handle_except fagi hook x = except_any fagi hook.
Proof. by destruct x. Qed.

Lemma handle_except_ok fagi hook x w :
  ∃ w', handle_except fagi hook x w = (Ok tt, w').
Proof.
  unfold handle_except, except_any, except_FastAGIDialPlanBreak, try_except,
    bind, log, emit, collab, raise, ret.
  destruct x, fagi, hook; simpl;
    repeat match goal with
      | |- context [oracle ?k ?e] => destruct (oracle k e) as [[?|] ?]; simpl
      end; by eexists.
Qed.


Lemma tally_unchanged P (allowed : event → bool) w w' (d : list event) :
  trace w' = trace w ++ d → Forall (λ ev, allowed ev = true) d →
  (∀ ev, allowed ev = true → P ev = false) →
  tally P w' = tally P w.
Proof.
  intros Hd Hall HP. unfold tally.
  rewrite Hd, count_ev_app, (count_ev_none P d); [lia|].
  eapply Forall_impl; [done|]. auto.
Qed.

Lemma prefix_inv w fagi wf wk :
  (log DEBUG "handling request" [] ;; FastAGI_new) w = (Ok fagi, wf) →
  collab Hook_new wf = (Ok tt, wk) →
  ∃ e, wk = set_ext e (set_trace
    (trace w ++ [Log DEBUG "handling request" []; NewFastAGI None;
                 Call Hook_new None]) w).
Proof.
  unfold bind, log, emit, FastAGI_new, collab. simpl.
  destruct (read_request (ext w)) as [[f|x] e1]; intros [= <- <-]. simpl.
  destruct (oracle Hook_new e1) as [[x|] e2]; intros [= <-].
  exists e2. simpl. by rewrite <- !app_assoc.
Qed.

(** the bare [except] with both locals bound: the record, the hook,
    then the two commands, each one sent if the one before returned *)
Lemma except_any_spec fagi hook w :
  ∃ w', except_any (Some fagi) (Some hook) w = (Ok tt, w') ∧
    tally (is_ev (Log EXCEPTION "unexpected exception" [])) w'
      = tally (is_ev (Log EXCEPTION "unexpected exception" [])) w + 1 ∧
    tally (is_ev (Log INFO "invalid request, dial plan broken" [])) w'
      = tally (is_ev (Log INFO "invalid request, dial plan broken" [])) w ∧
    tally (is_call hook_handle) w' = tally (is_call hook_handle) w + 1 ∧
    tally (is_call (fagi_appexec "Goto" "agi_fail,s,1")) w'
      + tally (is_returned hook_handle) w
      = tally (is_call (fagi_appexec "Goto" "agi_fail,s,1")) w
        + tally (is_returned hook_handle) w' ∧
    tally (is_call fagi_fail) w'
      + tally (is_returned (fagi_appexec "Goto" "agi_fail,s,1")) w
      = tally (is_call fagi_fail) w
        + tally (is_returned (fagi_appexec "Goto" "agi_fail,s,1")) w'.
Proof.
  unfold except_any, try_except, bind, log, emit, collab, raise, ret, tally.
  simpl.
  destruct (oracle hook_handle (ext w)) as [[x1|] e1]; simpl.
  { eexists. split; [done|]. simpl. rewrite !count_ev_app. simpl.
    repeat split; lia. }
  destruct (oracle (fagi_appexec _ _) e1) as [[x2|] e2]; simpl.
  { eexists. split; [done|]. simpl. rewrite !count_ev_app. simpl.
    repeat split; lia. }
  destruct (oracle fagi_fail e2) as [[x3|] e3]; simpl;
    (eexists; split; [done|]; simpl; rewrite !count_ev_app; simpl;
     repeat split; lia).
Qed.

Lemma body_unknown fagi name w r w' :
  env fagi !! "agi_network_script"%string = Some name →
  _handlers w !! name = None →
  FastAGIRequestHandler_handle_body fagi w = (r, w') →
  (∃ x, r = Raise x ∧ is_break x = false) ∧
  (∃ d, trace w' = trace w ++ d ∧ Forall (λ ev, lookup_ev ev = true) d) ∧
  (∀ c w1, DBConnectionPool_acquire w = (Ok c, w1) →
     tally is_borrow w' = tally is_borrow w + 1 ∧
     tally is_release w' = tally is_release w + 1 ∧
     tally (is_release_of c) w' = tally (is_release_of c) w + 1) ∧
  (∀ x w1, DBConnectionPool_acquire w = (Raise x, w1) →
     tally is_borrow w' = tally is_borrow w ∧
     tally is_release w' = tally is_release w).
Proof.
  intros He Hh. unfold FastAGIRequestHandler_handle_body. unfold bind at 1.
  destruct (DBConnectionPool_acquire w) as [[c|x] w1] eqn:Ha.
  2:{ intros [= <- <-]. destruct (acquire_raise _ _ _ Ha) as (Hx & Hb & Hr).
      destruct (emits_acquire _ _ _ Ha) as (_ & d1 & Hd1 & Hall1).
      split; [by exists x|]. split.
      { exists d1. split; [done|]. eapply Forall_impl; [done|].
        intros ev Hev. unfold lookup_ev. by rewrite Hev. }
      split; [done|]. by intros ? ? [= <- <-]. }
  destruct (emits_acquire _ _ _ Ha) as (Hh1 & d1 & Hd1 & Hall1).
  destruct (acquire_ok _ _ _ Ha) as (Hb1 & Hr1 & Hro1 & _).
  unfold try_finally.
  match goal with |- context [match ?inner w1 with _ => _ end] =>
    assert (∃ x w2 d2, inner w1 = (Raise x, w2) ∧ is_break x = false ∧
              trace w2 = trace w1 ++ d2 ∧
              Forall (λ ev, lookup_ev ev = true) d2 ∧
              count_ev is_borrow d2 = 0 ∧ count_ev is_release d2 = 0 ∧
              count_ev (is_release_of c) d2 = 0)
      as (x & w2 & d2 & -> & Hx & Hd2 & Hall2 & Hb2 & Hr2 & Hro2)
  end.
  { unfold conn_cursor_new, bind, env_getitem, handlers_getitem, bind,
      get_handlers, log, emit, ret, raise.
    destruct (collab (conn_cursor c) w1) as [[[]|x] w2] eqn:Hc.
    - unfold collab in Hc.
      destruct (oracle (conn_cursor c) (ext w1)) as [[y|] e']; simplify_eq.
      rewrite He. simpl. rewrite Hh1, Hh.
      eexists _, _, [_; _]. split; [done|]. simpl.
      rewrite <- !app_assoc. repeat split; try done.
      by repeat constructor.
    - pose proof (collab_db_raise (conn_cursor c) _ _ _ eq_refl Hc) as Hx.
      unfold collab in Hc.
      destruct (oracle (conn_cursor c) (ext w1)) as [[y|] e']; simplify_eq.
      eexists _, _, [_]. split; [done|]. simpl. repeat split; try done.
      by repeat constructor. }
  destruct (DBConnectionPool_release c w2) as [rr w3] eqn:Hrel.
  destruct (emits_release _ _ _ _ Hrel) as (_ & d3 & Hd3 & Hall3).
  destruct (release_result _ _ _ _ Hrel) as (Hrr & Hr3 & Hro3 & Hb3).
  assert (Hall : Forall (λ ev, lookup_ev ev = true) (d1 ++ d2 ++ d3)).
  { rewrite !Forall_app. split_and!; [|done|].
    - eapply Forall_impl; [exact Hall1|].
      intros ev Hev. unfold lookup_ev. by rewrite Hev.
    - eapply Forall_impl; [exact Hall3|].
      intros ev Hev. unfold lookup_ev. by rewrite Hev. }
  assert (Hcount : ∀ P, tally P w3 = tally P w1 + count_ev P d2 + (tally P w3 - tally P w2)).
  { intros P. unfold tally. rewrite Hd3, Hd2, !count_ev_app. lia. }
  intros Hres.
  assert (w' = w3 ∧ ∃ x', r = Raise x' ∧ is_break x' = false) as [-> Hr].
  { destruct Hrr as [->|(x' & -> & Hx')]; simplify_eq; eauto. }
  split; [done|]. split.
  { exists (d1 ++ d2 ++ d3)%list. split; [|done].
    by rewrite Hd3, Hd2, Hd1, <- !app_assoc. }
  split; [|done].
  intros c' w1' [= <- <-].
  rewrite (Hcount is_borrow), (Hcount is_release), (Hcount (is_release_of c)).
  lia.
Qed.


Ltac by_cases_on_event :=
  let ev := fresh "ev" in
  intros ev; destruct ev as [[]| |[] ? [|? []]| | | | |]; simpl; done.

(** C8: a request whose header names a handler that is not in the
    registry is answered as an unexpected failure: the dispatcher
    records the exception, runs the traceback hook and then sends the
    [Goto agi_fail] and the fail commands, each if the step before
    returned; it does not treat the request as a broken dial plan, calls
    no handle routine, commits nothing, gives the connection it borrowed
    back to the pool once, and returns without an exception. *)
Theorem C8_unknown_handler_fails_cleanly w fagi wf wk name :
  (log DEBUG "handling request" [] ;; FastAGI_new) w = (Ok fagi, wf) →
  collab Hook_new wf = (Ok tt, wk) →
  env fagi !! "agi_network_script"%string = Some name →
  _handlers w !! name = None →
  ∃ w', FastAGIRequestHandler_handle w = (Ok tt, w') ∧
    tally (is_ev (Log EXCEPTION "unexpected exception" [])) w'
      = tally (is_ev (Log EXCEPTION "unexpected exception" [])) w + 1 ∧
    tally (is_ev (Log INFO "invalid request, dial plan broken" [])) w'
      = tally (is_ev (Log INFO "invalid request, dial plan broken" [])) w ∧
    tally (is_call hook_handle) w' = tally (is_call hook_handle) w + 1 ∧
    tally (is_call (fagi_appexec "Goto" "agi_fail,s,1")) w'
      + tally (is_returned hook_handle) w
      = tally (is_call (fagi_appexec "Goto" "agi_fail,s,1")) w
        + tally (is_returned hook_handle) w' ∧
    tally (is_call fagi_fail) w'
      + tally (is_returned (fagi_appexec "Goto" "agi_fail,s,1")) w
      = tally (is_call fagi_fail) w
        + tally (is_returned (fagi_appexec "Goto" "agi_fail,s,1")) w' ∧
    tally is_commit w' = tally is_commit w ∧
    tally is_handle_fn w' = tally is_handle_fn w ∧
    (∀ c w1, DBConnectionPool_acquire wk = (Ok c, w1) →
       tally is_borrow w' = tally is_borrow w + 1 ∧
       tally is_release w' = tally is_release w + 1 ∧
       tally (is_release_of c) w' = tally (is_release_of c) w + 1) ∧
    (∀ x w1, DBConnectionPool_acquire wk = (Raise x, w1) →
       tally is_borrow w' = tally is_borrow w ∧
       tally is_release w' = tally is_release w).
Proof.
  intros Hf Hk He Hh.
  destruct (prefix_inv _ _ _ _ Hf Hk) as [e2 Hwk].
  unfold FastAGIRequestHandler_handle. rewrite Hf, Hk. unfold try_except.
  destruct (FastAGIRequestHandler_handle_body fagi wk) as [rb w3] eqn:Hb.
  assert (Hhk : _handlers wk !! name = None) by by rewrite Hwk.
  destruct (body_unknown _ _ _ _ _ He Hhk Hb)
    as ((x & -> & Hx) & (d & Hd & Hall) & Hok & Hraise).
  rewrite handle_except_other by done.
  destruct (except_any_spec fagi tt w3) as (w' & Hrun & S1 & S2 & S3 & S4 & S5).
  exists w'. split; [done|].
  assert (Hsig : ∀ P, (∀ ev, signal_ev ev = true → P ev = false) →
                      tally P w' = tally P w3).
  { intros P HP. eapply emits_tally; [|exact Hrun|exact HP].
    rewrite <- (handle_except_other _ _ (KeyError name)) by done.
    apply emits_handle_except. }
  assert (Hbody : ∀ P, (∀ ev, lookup_ev ev = true → P ev = false) →
                       tally P w3 = tally P wk).
  { intros P HP. by eapply tally_unchanged. }
  assert (Hpre : ∀ P, tally P wk = tally P w + count_ev P
            [Log DEBUG "handling request" []; NewFastAGI None; Call Hook_new None]).
  { intros P. rewrite Hwk. apply tally_io. }
  split. { rewrite S1, Hbody, Hpre by by_cases_on_event. simpl. lia. }
  split. { rewrite S2, Hbody, Hpre by by_cases_on_event. simpl. lia. }
  split. { rewrite S3, Hbody, Hpre by by_cases_on_event. simpl. lia. }
  split.
  { rewrite (Hbody (is_call (fagi_appexec _ _))) in S4 by by_cases_on_event.
    rewrite (Hbody (is_returned hook_handle)) in S4 by by_cases_on_event.
    rewrite !Hpre in S4. simpl in S4. lia. }
  split.
  { rewrite (Hbody (is_call fagi_fail)) in S5 by by_cases_on_event.
    rewrite (Hbody (is_returned (fagi_appexec _ _))) in S5 by by_cases_on_event.
    rewrite !Hpre in S5. simpl in S5. lia. }
  split. { rewrite Hsig, Hbody, Hpre by by_cases_on_event. simpl. lia. }
  split. { rewrite Hsig, Hbody, Hpre by by_cases_on_event. simpl. lia. }
  split.
  - intros c w1 Ha. destruct (Hok _ _ Ha) as (B & R & RO).
    rewrite !Hsig by by_cases_on_event. rewrite B, R, RO, !Hpre. simpl. lia.
  - intros y w1 Ha. destruct (Hraise _ _ Ha) as (B & R).
    rewrite !Hsig by by_cases_on_event. rewrite B, R, !Hpre. simpl. lia.
Qed.


Lemma emits_serve fagi c :
  emits (cur ← conn_cursor_new c;
         handler_name' ← env_getitem fagi "agi_network_script";
         log DEBUG "delegating request handling %r" [handler_name'] ;;
         h ← handlers_getitem handler_name';
         Handler_handle h fagi cur (args fagi) ;;
         collab (conn_commit c) ;;
         collab (fagi_verbose
                   ("AGI handler '" +:+ handler_name' +:+ "' successfully executed")) ;;
         log DEBUG "request successfully handled" [])
    serve_ev.
Proof.
  unfold conn_cursor_new, env_getitem, handlers_getitem, get_handlers, log.
  apply emits_bind; [emits_tac|]. intros cur.
  apply emits_bind; [emits_tac|]. intros name.
  apply emits_bind; [emits_tac|]. intros _.
  apply emits_bind; [emits_tac|]. intros h.
  apply emits_bind; [|intros _; emits_tac].
  eapply emits_mono; [|apply emits_Handler_handle].
  intros ev Hev. unfold serve_ev. by rewrite Hev.
Qed.

Lemma body_known fagi name h w c w1 r w' :
  env fagi !! "agi_network_script"%string = Some name →
  _handlers w !! name = Some h →
  DBConnectionPool_acquire w = (Ok c, w1) →
  FastAGIRequestHandler_handle_body fagi w = (r, w') →
  tally is_borrow w' = tally is_borrow w + 1 ∧
  tally is_release w' = tally is_release w + 1 ∧
  tally (is_release_of c) w' = tally (is_release_of c) w + 1 ∧
  (∀ x w2, conn_cursor_new c w1 = (Raise x, w2) →
     tally is_commit w' = tally is_commit w) ∧
  (∀ w2 rh w3,
     conn_cursor_new c w1 = (Ok c, w2) →
     Handler_handle h fagi c (args fagi)
       (log DEBUG "delegating request handling %r" [name] w2).2 = (rh, w3) →
     match rh with
     | Ok _ =>
         tally is_commit w' = tally is_commit w + 1 ∧
         tally (is_commit_on c) w' = tally (is_commit_on c) w + 1
     | Raise _ => tally is_commit w' = tally is_commit w
     end).
Proof.
  intros He Hh Ha. unfold FastAGIRequestHandler_handle_body. unfold bind at 1.
  rewrite Ha. unfold try_finally.
  destruct (emits_acquire _ _ _ Ha) as (Hh1 & _).
  destruct (acquire_ok _ _ _ Ha) as (Hb1 & Hr1 & Hro1 & _).
  match goal with |- context [match ?inner w1 with _ => _ end] =>
    destruct (inner w1) as [ri w4] eqn:Hi end.
  pose proof (emits_serve fagi c) as Hserve.
  assert (Hin : ∀ P, (∀ ev, serve_ev ev = true → P ev = false) →
                     tally P w4 = tally P w1).
  { intros P HP. eapply emits_tally; [exact Hserve|exact Hi|exact HP]. }
  assert (Hacq : ∀ P, (∀ ev, pool_ev ev = true → P ev = false) →
                      tally P w1 = tally P w).
  { intros P HP. eapply emits_tally; [apply emits_acquire|exact Ha|exact HP]. }
  destruct (DBConnectionPool_release c w4) as [rr w5] eqn:Hrel.
  destruct (release_result _ _ _ _ Hrel) as (Hrr & Hr5 & Hro5 & Hb5).
  assert (Hrl : ∀ P, (∀ ev, pool_ev ev = true → P ev = false) →
                     tally P w5 = tally P w4).
  { intros P HP. eapply emits_tally; [apply emits_release|exact Hrel|exact HP]. }
  intros Hres. assert (w' = w5) as ->.
  { by destruct rr as [[]|]; simplify_eq. }
  clear Hres.
  split. { rewrite Hb5, Hin, Hb1 by by_cases_on_event. done. }
  split. { rewrite Hr5, Hin, Hr1 by by_cases_on_event. done. }
  split. { rewrite Hro5, Hin, Hro1 by by_cases_on_event. done. }
  split.
  - intros x w2 Hc. revert Hi. unfold bind at 1. rewrite Hc. intros [= <- <-].
    rewrite Hrl, <- (Hacq is_commit) by by_cases_on_event.
    unfold conn_cursor_new, bind, collab, ret in Hc.
    destruct (oracle (conn_cursor c) (ext w1)) as [[y|] e']; simplify_eq.
    unfold tally. simpl. rewrite count_ev_app. simpl. lia.
  - intros w2 rh w3 Hc Hrun. revert Hi. unfold bind at 1. rewrite Hc.
    unfold bind at 1, env_getitem. rewrite He. unfold ret at 1.
    unfold bind at 1. simpl in Hrun.
    unfold log at 1, emit at 1. unfold bind at 1, handlers_getitem at 1,
      bind at 1, get_handlers at 1.
    assert (_handlers w2 = _handlers w) as Hh2.
    { unfold conn_cursor_new, bind, collab, ret in Hc.
      destruct (oracle (conn_cursor c) (ext w1)) as [[y|] e']; simplify_eq.
      exact Hh1. }
    simpl. rewrite Hh2, Hh. unfold ret at 1. unfold bind at 1.
    unfold log, emit in Hrun. simpl in Hrun. rewrite Hrun.
    assert (Hc3 : ∀ P, (∀ ev, handler_ev ev = true → P ev = false) →
              tally P w3 = tally P w + count_ev P
                [Call (conn_cursor c) None;
                 Log DEBUG "delegating request handling %r" [name]] +
              (tally P w1 - tally P w)).
    { intros P HP.
      rewrite (emits_tally _ _ P _ _ _ (emits_Handler_handle _ _ _ _) Hrun HP).
      unfold conn_cursor_new, bind, collab, ret in Hc.
      destruct (oracle (conn_cursor c) (ext w1)) as [[y|] e']; simplify_eq.
      destruct (emits_acquire _ _ _ Ha) as (_ & d1 & Hd1 & _).
      unfold tally. simpl. rewrite Hd1, !count_ev_app. simpl. lia. }
    destruct rh as [[]|x].
    + unfold bind, collab, log, emit.
      destruct (oracle (conn_commit c) (ext w3)) as [[y|] e4]; simpl.
      * intros [= <- <-]. rewrite !Hrl by by_cases_on_event.
        rewrite !tally_io, !Hc3 by by_cases_on_event.
        rewrite !Hacq by by_cases_on_event. simpl.
        rewrite bool_decide_true by done. lia.
      * destruct (oracle (fagi_verbose _) e4) as [[y|] e5]; simpl;
          intros [= <- <-]; rewrite !Hrl by by_cases_on_event;
          unfold tally; simpl; rewrite !count_ev_app; fold (tally is_commit w3);
          fold (tally (is_commit_on c) w3);
          rewrite !Hc3 by by_cases_on_event;
          rewrite !Hacq by by_cases_on_event; simpl;
          rewrite ?bool_decide_true by done; unfold tally; lia.
    + intros [= <- <-]. rewrite Hrl, Hc3 by by_cases_on_event.
      rewrite Hacq by by_cases_on_event. simpl. lia.
Qed.


(** the commit of the dispatcher, once [Handler.handle] returned: the
    call is recorded with the outcome the driver gives it, and when it
    raises the body raises, by an exception that is no broken dial plan *)
Lemma body_commit_outcome fagi name h w c w1 w2 w3 o e4 r w' :
  env fagi !! "agi_network_script"%string = Some name →
  _handlers w !! name = Some h →
  DBConnectionPool_acquire w = (Ok c, w1) →
  conn_cursor_new c w1 = (Ok c, w2) →
  Handler_handle h fagi c (args fagi)
    (log DEBUG "delegating request handling %r" [name] w2).2 = (Ok tt, w3) →
  oracle (conn_commit c) (ext w3) = (o, e4) →
  FastAGIRequestHandler_handle_body fagi w = (r, w') →
  tally (is_ev (Call (conn_commit c) o)) w'
    = tally (is_ev (Call (conn_commit c) o)) w + 1 ∧
  (∀ x, o = Some x → ∃ y, r = Raise y ∧ is_break y = false) ∧
  tally (is_ev (Log EXCEPTION "unexpected exception" [])) w'
    = tally (is_ev (Log EXCEPTION "unexpected exception" [])) w.
Proof.
  intros He Hh Ha Hc Hrun Ho.
  unfold FastAGIRequestHandler_handle_body. unfold bind at 1.
  rewrite Ha. unfold try_finally.
  destruct (emits_acquire _ _ _ Ha) as (Hh1 & _).
  match goal with |- context [match ?inner w1 with _ => _ end] =>
    destruct (inner w1) as [ri w4] eqn:Hi end.
  pose proof (emits_serve fagi c) as Hserve.
  assert (Hacq : ∀ P, (∀ ev, pool_ev ev = true → P ev = false) →
                      tally P w1 = tally P w).
  { intros P HP. eapply emits_tally; [apply emits_acquire|exact Ha|exact HP]. }
  destruct (DBConnectionPool_release c w4) as [rr w5] eqn:Hrel.
  destruct (release_result _ _ _ _ Hrel) as (Hrr & _).
  assert (Hrl : ∀ P, (∀ ev, pool_ev ev = true → P ev = false) →
                     tally P w5 = tally P w4).
  { intros P HP. eapply emits_tally; [apply emits_release|exact Hrel|exact HP]. }
  assert (Hin : ∀ P, (∀ ev, serve_ev ev = true → P ev = false) →
                     tally P w4 = tally P w1).
  { intros P HP. eapply emits_tally; [exact Hserve|exact Hi|exact HP]. }
  intros Hres.
  assert (w' = w5) as -> by (by destruct rr as [[]|]; simplify_eq).
  assert (Hcommit : tally (is_ev (Call (conn_commit c) o)) w4
                    = tally (is_ev (Call (conn_commit c) o)) w1 + 1 ∧
                    ∀ x, o = Some x → ri = Raise x).
  { revert Hi. unfold bind at 1. rewrite Hc.
    unfold bind at 1, env_getitem. rewrite He. unfold ret at 1.
    unfold bind at 1. simpl in Hrun.
    unfold log at 1, emit at 1. unfold bind at 1, handlers_getitem at 1,
      bind at 1, get_handlers at 1.
    assert (_handlers w2 = _handlers w) as Hh2.
    { unfold conn_cursor_new, bind, collab, ret in Hc.
      destruct (oracle (conn_cursor c) (ext w1)) as [[y|] e']; simplify_eq.
      exact Hh1. }
    simpl. rewrite Hh2, Hh. unfold ret at 1. unfold bind at 1.
    unfold log, emit in Hrun. simpl in Hrun. rewrite Hrun.
    assert (Hc3 : ∀ P, (∀ ev, handler_ev ev = true → P ev = false) →
              tally P w3 = tally P w1 + count_ev P
                [Call (conn_cursor c) None;
                 Log DEBUG "delegating request handling %r" [name]]).
    { intros P HP.
      rewrite (emits_tally _ _ P _ _ _ (emits_Handler_handle _ _ _ _) Hrun HP).
      unfold conn_cursor_new, bind, collab, ret in Hc.
      destruct (oracle (conn_cursor c) (ext w1)) as [[y|] e']; simplify_eq.
      unfold tally. simpl. rewrite !count_ev_app. simpl. lia. }
    assert (Hhev : ∀ ev, handler_ev ev = true →
              is_ev (Call (conn_commit c) o) ev = false).
    { intros ev. unfold is_ev. case_bool_decide; [by subst|done]. }
    unfold bind, collab, log, emit. rewrite Ho.
    destruct o as [x|]; simpl.
    - intros [= <- <-]. split; [|by intros ? [= ->]].
      rewrite tally_io, Hc3 by exact Hhev. simpl. unfold is_ev at 2.
      rewrite bool_decide_true by done. lia.
    - split; [|done]. revert Hi.
      destruct (oracle (fagi_verbose _) e4) as [[y|] e5]; simpl;
        intros [= <- <-]; unfold tally; simpl; rewrite !count_ev_app;
        fold (tally (is_ev (Call (conn_commit c) None)) w3);
        rewrite Hc3 by exact Hhev; simpl; unfold is_ev at 2;
        rewrite bool_decide_true by done; unfold tally; lia. }
  destruct Hcommit as [Hcount Hraise].
  split; [|split].
  - rewrite Hrl, Hcount, Hacq; [done| |];
      intros ev; unfold is_ev; case_bool_decide; by subst.
  - intros x Hx. specialize (Hraise x Hx). subst ri.
    assert (Hxb : is_break x = false).
    { subst o. destruct x; try done. exfalso.
      eapply (db_errors (conn_commit c) (ext w3)); [done|]. by rewrite Ho. }
    destruct Hrr as [->|(y & -> & Hy)]; simplify_eq; eauto.
  - rewrite Hrl, Hin, Hacq; [done| | |];
      intros ev; unfold is_ev; case_bool_decide; by subst.
Qed.

(** the traceback hook cannot be built: the dispatcher goes to its
    [except] clauses with what was recorded so far *)
Lemma hook_fails_inv w fagi wf x wk :
  (log DEBUG "handling request" [] ;; FastAGI_new) w = (Ok fagi, wf) →
  collab Hook_new wf = (Raise x, wk) →
  ∃ e, wk = set_ext e (set_trace
    (trace w ++ [Log DEBUG "handling request" []; NewFastAGI None;
                 Call Hook_new (Some x)]) w).
Proof.
  unfold bind, log, emit, FastAGI_new, collab. simpl.
  destruct (read_request (ext w)) as [[f|y] e1]; intros [= <- <-]. simpl.
  destruct (oracle Hook_new e1) as [[y|] e2]; intros [= <- <-].
  exists e2. simpl. by rewrite <- !app_assoc.
Qed.

(** C2: for a request whose header names a registered handler the
    dispatcher always returns, and what it does with the pool depends on
    [acquire].  When the traceback hook cannot be built or [acquire]
    raises (the reserve is empty and the driver cannot connect), no
    connection is borrowed, none is given back and [commit] is not
    called.  When [acquire] hands out a connection, that one connection
    is borrowed and given back to the pool exactly once, whatever
    happens in between; [commit] is called exactly once, on that
    connection, if [Handler.handle] returned, and is not called if the
    cursor cannot be made or [Handler.handle] raises (a broken dial
    plan or anything else).  The call of [commit] may itself raise:
    it is recorded with the outcome the driver gives it, and when it
    raises the request ends in the bare [except] clause, after that one
    call. *)
Theorem C2_dispatch_borrows_when_acquire_returns w fagi wf name h :
  (log DEBUG "handling request" [] ;; FastAGI_new) w = (Ok fagi, wf) →
  env fagi !! "agi_network_script"%string = Some name →
  _handlers w !! name = Some h →
  ∃ w', FastAGIRequestHandler_handle w = (Ok tt, w') ∧
    (∀ x wk, collab Hook_new wf = (Raise x, wk) →
       tally is_borrow w' = tally is_borrow w ∧
       tally is_release w' = tally is_release w ∧
       tally is_commit w' = tally is_commit w) ∧
    (∀ wk x w1,
       collab Hook_new wf = (Ok tt, wk) →
       DBConnectionPool_acquire wk = (Raise x, w1) →
       tally is_borrow w' = tally is_borrow w ∧
       tally is_release w' = tally is_release w ∧
       tally is_commit w' = tally is_commit w) ∧
    (∀ wk c w1,
       collab Hook_new wf = (Ok tt, wk) →
       DBConnectionPool_acquire wk = (Ok c, w1) →
       tally is_borrow w' = tally is_borrow w + 1 ∧
       tally is_release w' = tally is_release w + 1 ∧
       tally (is_release_of c) w' = tally (is_release_of c) w + 1 ∧
       (∀ x w2, conn_cursor_new c w1 = (Raise x, w2) →
          tally is_commit w' = tally is_commit w) ∧
       (∀ w2 rh w3,
          conn_cursor_new c w1 = (Ok c, w2) →
          Handler_handle h fagi c (args fagi)
            (log DEBUG "delegating request handling %r" [name] w2).2 = (rh, w3) →
          match rh with
          | Ok _ =>
              tally is_commit w' = tally is_commit w + 1 ∧
              tally (is_commit_on c) w' = tally (is_commit_on c) w + 1 ∧
              ∀ o e, oracle (conn_commit c) (ext w3) = (o, e) →
                tally (is_ev (Call (conn_commit c) o)) w'
                  = tally (is_ev (Call (conn_commit c) o)) w + 1 ∧
                (is_Some o →
                 tally (is_ev (Log EXCEPTION "unexpected exception" [])) w'
                   = tally (is_ev (Log EXCEPTION "unexpected exception" [])) w + 1)
          | Raise _ => tally is_commit w' = tally is_commit w
          end)).
Proof.
  intros Hf He Hh.
  unfold FastAGIRequestHandler_handle. rewrite Hf.
  destruct (collab Hook_new wf) as [[[]|xk] wk] eqn:Hk.
  2:{ (* the hook cannot be built *)
    destruct (hook_fails_inv _ _ _ _ _ Hf Hk) as [e2 Hwk].
    destruct (handle_except_ok (Some fagi) None xk wk) as [w' Hw'].
    exists w'. split; [done|].
    assert (Hsig : ∀ P, (∀ ev, signal_ev ev = true → P ev = false) →
                        tally P w' = tally P wk).
    { intros P HP.
      eapply emits_tally; [apply emits_handle_except|exact Hw'|exact HP]. }
    assert (Hpre : ∀ P, tally P wk = tally P w + count_ev P
              [Log DEBUG "handling request" []; NewFastAGI None;
               Call Hook_new (Some xk)]).
    { intros P. rewrite Hwk. apply tally_io. }
    split; [|split; intros; simplify_eq; congruence].
    intros x wk' _.
    split_and!; rewrite Hsig, Hpre by by_cases_on_event; simpl; lia. }
  destruct (prefix_inv _ _ _ _ Hf Hk) as [e2 Hwk].
  assert (Hpre : ∀ P, tally P wk = tally P w + count_ev P
            [Log DEBUG "handling request" []; NewFastAGI None; Call Hook_new None]).
  { intros P. rewrite Hwk. apply tally_io. }
  unfold try_except.
  destruct (FastAGIRequestHandler_handle_body fagi wk) as [rb w3] eqn:Hb.
  assert (Hexc : ∃ w', match rb with
                | Ok a => (Ok a, w3)
                | Raise e => handle_except (Some fagi) (Some tt) e w3
                end = (Ok tt, w') ∧
            ∀ P, (∀ ev, signal_ev ev = true → P ev = false) →
                 tally P w' = tally P w3).
  { destruct rb as [[]|x].
    - exists w3. split; [done|]. done.
    - destruct (handle_except_ok (Some fagi) (Some tt) x w3) as [w' Hw'].
      exists w'. split; [done|]. intros P HP.
      eapply emits_tally; [apply emits_handle_except|exact Hw'|exact HP]. }
  destruct Hexc as (w' & Hw' & Hsig). rewrite Hw'.
  exists w'. split; [done|].
  split; [intros; simplify_eq; congruence|].
  destruct (DBConnectionPool_acquire wk) as [[c|xa] w1] eqn:Ha.
  2:{ (* [acquire] raises *)
    split; [|intros; simplify_eq; congruence].
    intros wk' x w1' [= <-] _.
    destruct (acquire_raise _ _ _ Ha) as (_ & B & R).
    assert (w3 = w1) as ->.
    { revert Hb. unfold FastAGIRequestHandler_handle_body. unfold bind at 1.
      rewrite Ha. by intros [= _ <-]. }
    assert (C : tally is_commit w1 = tally is_commit wk).
    { eapply emits_tally; [apply emits_acquire|exact Ha|by_cases_on_event]. }
    split_and!; rewrite Hsig by by_cases_on_event;
      rewrite ?B, ?R, ?C, Hpre; simpl; lia. }
  split; [intros; simplify_eq; congruence|].
  intros wk' c' w1' [= <-] Ha'. rewrite Ha in Ha'. injection Ha' as <- <-.
  assert (Hhk : _handlers wk !! name = Some h) by by rewrite Hwk.
  destruct (body_known _ _ _ _ _ _ _ _ He Hhk Ha Hb)
    as (B & R & RO & Hcur & Hrun).
  split. { rewrite Hsig, B, Hpre by by_cases_on_event. simpl. lia. }
  split. { rewrite Hsig, R, Hpre by by_cases_on_event. simpl. lia. }
  split. { rewrite Hsig, RO, Hpre by by_cases_on_event. simpl. lia. }
  split.
  - intros x w2 Hc. rewrite Hsig, (Hcur _ _ Hc), Hpre by by_cases_on_event.
    simpl. lia.
  - intros w2 rh w4 Hc Hh4. specialize (Hrun _ _ _ Hc Hh4).
    destruct rh as [[]|x].
    + destruct Hrun as [C1 C2].
      split. { rewrite Hsig, C1, Hpre by by_cases_on_event. simpl. lia. }
      split. { rewrite Hsig, C2, Hpre by by_cases_on_event. simpl. lia. }
      intros o e Ho.
      destruct (body_commit_outcome _ _ _ _ _ _ _ _ _ _ _ _
                  He Hhk Ha Hc Hh4 Ho Hb) as (Hce & Hraise & Hlog).
      split.
      * rewrite Hsig, Hce, Hpre.
        -- simpl. lia.
        -- intros ev. unfold is_ev. case_bool_decide; by subst.
      * intros [x ->]. destruct (Hraise x eq_refl) as (y & -> & Hy).
        rewrite handle_except_other in Hw' by done.
        destruct (except_any_spec fagi tt w3) as (w'' & Hrun' & S1 & _).
        rewrite Hrun' in Hw'. injection Hw' as <-.
        rewrite S1, Hlog, Hpre. simpl. lia.
    + rewrite Hsig, Hrun, Hpre by by_cases_on_event. simpl. lia.
Qed.


(** ** The reload signal *)

Lemma emits_tally_le {A} (m : M A) allowed P w r w' :
  emits m allowed → m w = (r, w') → tally P w ≤ tally P w'.
Proof.
  intros Hm Hrun. destruct (Hm _ _ _ Hrun) as (_ & d & Hd & _).
  unfold tally. rewrite Hd, count_ev_app. lia.
Qed.

(** one handler: its setup routine runs or its reload is given up, once;
    [Handler.reload] raises exactly when the setup routine did *)
Lemma reload_tally h cur n w r w' :
  Handler_reload h cur w = (r, w') →
  tally (is_setup_of n) w' + tally (is_skip_of n) w'
    = tally (is_setup_of n) w + tally (is_skip_of n) w
      + (if reloadable n h then 1 else 0) ∧
  tally is_failed_setup w'
    = tally is_failed_setup w + (match r with Ok _ => 0 | Raise _ => 1 end) ∧
  tally is_commit w' = tally is_commit w.
Proof.
  unfold Handler_reload, reloadable, bind, try_finally, RWLock_acquire_write,
    RWLock_release, log, emit, collab, ret, tally, is_skip_of.
  destruct (setup_fn h) as [f|].
  2:{ intros [= <- <-]. rewrite andb_false_r. lia. }
  rewrite andb_true_r.
  destruct (grant_write (lock h) (sched w)) as [[] s']; simpl.
  - destruct (oracle _ (ext w)) as [[x|] e']; simpl; intros [= <- <-]; simpl;
      rewrite !count_ev_app; simpl; case_bool_decide; simpl; lia.
  - intros [= <- <-]. simpl. rewrite !count_ev_app. simpl.
    case_bool_decide as Hn; simpl.
    + rewrite bool_decide_true by congruence. lia.
    + rewrite bool_decide_false by congruence. lia.
Qed.

Lemma loop_tally cur n hs w r w' :
  for_each hs (λ handler, Handler_reload handler cur) w = (r, w') →
  tally (is_setup_of n) w' + tally (is_skip_of n) w'
    ≤ tally (is_setup_of n) w + tally (is_skip_of n) w + num_reloadable n hs ∧
  (r = Ok tt →
   tally (is_setup_of n) w' + tally (is_skip_of n) w'
     = tally (is_setup_of n) w + tally (is_skip_of n) w + num_reloadable n hs) ∧
  tally is_failed_setup w'
    = tally is_failed_setup w + (match r with Ok _ => 0 | Raise _ => 1 end) ∧
  tally is_commit w' = tally is_commit w.
Proof.
  revert w. induction hs as [|h hs IH]; intros w; simpl.
  - intros [= <- <-]. repeat split; lia.
  - unfold bind at 1.
    destruct (Handler_reload h cur w) as [[[]|x] w1] eqn:H1;
      destruct (reload_tally _ _ n _ _ _ H1) as (T1 & F1 & C1).
    + intros H2. destruct (IH _ H2) as (T2 & T2' & F2 & C2).
      split; [lia|]. split; [|split; lia].
      intros Hr. specialize (T2' Hr). lia.
    + intros [= <- <-]. split; [lia|]. split; [done|]. split; lia.
Qed.

(** an exception in the body of a loop ends the loop where it is *)
Lemma for_each_abort {A} (body : A → M unit) pre x post w w1 e w2 :
  for_each pre body w = (Ok tt, w1) →
  body x w1 = (Raise e, w2) →
  for_each (pre ++ x :: post) body w = (Raise e, w2).
Proof.
  revert w. induction pre as [|y pre IH]; intros w; simpl.
  - intros [= ->] Hx. unfold bind. by rewrite Hx.
  - unfold bind. destruct (body y w) as [[[]|z] w0]; [|done].
    intros Hpre Hx. by apply IH.
Qed.

Lemma num_reloadable_absent n (l : list (string * Handler)) :
  n ∉ l.*1 → (∀ k h, (k, h) ∈ l → handler_name h = k) →
  num_reloadable n l.*2 = 0.
Proof.
  induction l as [|[k h] l IH]; [done|].
  rewrite !fmap_cons. cbn [fst snd num_reloadable]. intros Hn Hwf.
  apply not_elem_of_cons in Hn as [Hnk Hn].
  rewrite IH; [|done|by intros ???; apply Hwf; right].
  unfold reloadable. rewrite bool_decide_false; [done|].
  rewrite (Hwf k h); [done|left].
Qed.

Lemma num_reloadable_unique n (l : list (string * Handler)) :
  NoDup l.*1 → (∀ k h, (k, h) ∈ l → handler_name h = k) →
  num_reloadable n l.*2 ≤ 1 ∧
  (∀ h, (n, h) ∈ l → is_Some (setup_fn h) → num_reloadable n l.*2 = 1).
Proof.
  induction l as [|[k h] l IH].
  - intros _ _. split; [simpl; lia|]. intros h Hin. by apply elem_of_nil in Hin.
  - rewrite !fmap_cons. cbn [fst snd num_reloadable]. intros Hnd Hwf.
    apply NoDup_cons in Hnd as [Hk Hnd].
    destruct IH as [IH1 IH2]; [done|by intros ???; apply Hwf; right|].
    assert (Hrest : k = n → num_reloadable n l.*2 = 0).
    { intros ->. apply num_reloadable_absent; [done|].
      by intros ???; apply Hwf; right. }
    assert (Hkh : handler_name h = k) by (apply Hwf; left).
    unfold reloadable at 1. rewrite Hkh.
    split.
    + case_bool_decide; simpl; [|lia]. rewrite Hrest by done.
      destruct (setup_fn h); lia.
    + intros h0 [Heq|Hin]%elem_of_cons [f Hf]; unfold reloadable.
      * simplify_eq. rewrite bool_decide_true, Hf by done. simpl.
        by rewrite Hrest.
      * rewrite Hkh, bool_decide_false; [simpl; eauto|].
        intros ->. apply Hk. apply list_elem_of_fmap. by exists (n, h0).
Qed.

Lemma num_reloadable_registry n (hs : gmap string Handler) :
  registry_wf hs →
  num_reloadable n (itervalues hs) ≤ 1 ∧
  (∀ h, hs !! n = Some h → is_Some (setup_fn h) →
        num_reloadable n (itervalues hs) = 1).
Proof.
  intros Hwf. unfold itervalues.
  destruct (num_reloadable_unique n (map_to_list hs)) as [H1 H2].
  - apply NoDup_fst_map_to_list.
  - intros k h Hin. apply elem_of_map_to_list in Hin. by apply Hwf in Hin.
  - split; [done|]. intros h Hh. apply H2. by apply elem_of_map_to_list.
Qed.


Lemma emits_config_getitem key allowed :
  @emits E Sch _ (config_getitem key) allowed.
Proof.
  apply emits_pure. intros w. unfold config_getitem.
  destruct (config w !! key); by eexists _, _.
Qed.

Lemma emits_AGID_setup : emits AGID_setup reload_ev.
Proof.
  unfold AGID_setup. apply emits_bind.
  - assert (Hfirst : emits
      (a ← config_getitem "listen_address";
       (λ w, (Ok tt, set_listen_addr a w)) ;;
       log DEBUG "listen_addr: %s" [a] ;;
       s ← config_getitem "listen_port";
       p ← int s;
       (λ w, (Ok tt, set_listen_port p w)) ;;
       log DEBUG "listen_port: %d" [pretty p]) reload_ev).
    { unfold int, log.
      apply emits_bind; [apply emits_config_getitem|]. intros a.
      apply emits_bind; [emits_tac|]. intros _.
      apply emits_bind; [emits_tac|]. intros _.
      apply emits_bind; [apply emits_config_getitem|]. intros p. emits_tac. }
    intros w r w'. destruct (initialized w); simpl.
    + intros [= <- <-]. split; [done|]. exists []. by rewrite app_nil_r.
    + apply Hfirst.
  - intros _. unfold int.
    apply emits_bind; [apply emits_config_getitem|].
    intros s. apply emits_bind; [emits_tac|]. intros n.
    apply emits_bind; [apply emits_config_getitem|].
    intros u. apply emits_reload.
Qed.

Lemma emits_reload_loop cur hs :
  emits (for_each hs (λ handler, Handler_reload handler cur)) handler_ev.
Proof. apply emits_for_each. intros h. apply emits_Handler_reload. Qed.

(** the statements of [sighup_handle] between [acquire] and [release] *)
Lemma reload_pass c n w r w' :
  (cur ← conn_cursor_new c;
   log DEBUG "reloading handlers" [] ;;
   hs ← get_handlers;
   for_each (itervalues hs) (λ handler, Handler_reload handler cur) ;;
   collab (conn_commit c) ;;
   log DEBUG "finished reload" []) w = (r, w') →
  _handlers w' = _handlers w ∧
  tally (is_skip_of n) w ≤ tally (is_skip_of n) w' ∧
  tally (is_setup_of n) w' + tally (is_skip_of n) w'
    ≤ tally (is_setup_of n) w + tally (is_skip_of n) w
      + num_reloadable n (itervalues (_handlers w)) ∧
  (r = Ok tt →
   tally (is_setup_of n) w' + tally (is_skip_of n) w'
     = tally (is_setup_of n) w + tally (is_skip_of n) w
       + num_reloadable n (itervalues (_handlers w)) ∧
   tally is_commit w' = tally is_commit w + 1) ∧
  tally is_failed_setup w' ≤ tally is_failed_setup w + 1 ∧
  (tally is_failed_setup w' = tally is_failed_setup w + 1 →
   (∃ x, r = Raise x) ∧ tally is_commit w' = tally is_commit w).
Proof.
  unfold conn_cursor_new, bind at 1, bind at 1.
  destruct (collab (conn_cursor c) w) as [[[]|x] w1] eqn:Hc.
  2:{ intros [= <- <-]. unfold collab in Hc.
      destruct (oracle _ (ext w)) as [[y|] e']; simplify_eq.
      unfold tally. simpl. rewrite !count_ev_app. simpl.
      split; [done|]. split; [lia|]. split; [lia|]. split; [done|].
      split; lia. }
  unfold collab in Hc.
  destruct (oracle _ (ext w)) as [[y|] e']; simplify_eq.
  unfold ret at 1, bind at 1, log at 1, emit at 1, bind at 1, get_handlers at 1.
  cbn [_handlers set_ext set_trace]. unfold bind at 1.
  match goal with |- context [for_each ?l ?b ?w0] =>
    destruct (for_each l b w0) as [[[]|x] w2] eqn:Hl;
    destruct (loop_tally _ n _ _ _ _ Hl) as (T1 & T2 & F & C);
    destruct (emits_reload_loop _ _ _ _ _ Hl) as (Hh & _);
    pose proof (emits_tally_le _ _ (is_skip_of n) _ _ _ (emits_reload_loop _ _) Hl) as Hle
  end; revert T1 T2 F C Hle Hh; unfold tally; simpl;
    rewrite !count_ev_app; simpl; intros T1 T2 F C Hle Hh.
  - specialize (T2 eq_refl). unfold bind, collab, log, emit.
    destruct (oracle (conn_commit c) (ext w2)) as [[y|] e2]; simpl;
      intros [= <- <-]; simpl; rewrite !count_ev_app; simpl;
      (split; [done|]); (split; [lia|]); (split; [lia|]);
      (split; [try done; intros _; lia|]); split; lia.
  - intros [= <- <-]. split; [done|]. split; [lia|]. split; [lia|].
    split; [done|]. split; [lia|]. intros _. split; [by eexists|lia].
Qed.


Lemma emits_reload_pass c :
  emits (cur ← conn_cursor_new c;
         log DEBUG "reloading handlers" [] ;;
         hs ← get_handlers;
         for_each (itervalues hs) (λ handler, Handler_reload handler cur) ;;
         collab (conn_commit c) ;;
         log DEBUG "finished reload" [])
    serve_ev.
Proof.
  unfold conn_cursor_new, get_handlers, log.
  apply emits_bind; [emits_tac|]. intros cur.
  apply emits_bind; [emits_tac|]. intros _.
  apply emits_bind; [emits_tac|]. intros hs.
  apply emits_bind; [|intros _; emits_tac].
  eapply emits_mono; [|apply emits_reload_loop].
  intros ev Hev. unfold serve_ev. by rewrite Hev.
Qed.

(** C1 (as amended): on a reload signal the setup routine of a handler
    runs at most once; when the signal handler returns, every registered
    handler that has a setup routine was either reloaded or, its lock
    refusing the writer, given up, exactly once, and one commit followed.
    Failures are not isolated: at most one setup routine raises per
    signal, and when one does the loop ends there (the handlers that
    come later in the iteration are not reloaded), nothing is committed
    and the signal handler raises.  The connection it borrowed is
    released in every case. *)
Theorem C1_reload_pass_stops_at_first_failure w r w' :
  registry_wf (_handlers w) →
  sighup_handle w = (r, w') →
  (∀ n, tally (is_setup_of n) w' ≤ tally (is_setup_of n) w + 1) ∧
  (r = Ok tt →
   (∀ n h, _handlers w !! n = Some h → is_Some (setup_fn h) →
      tally (is_setup_of n) w' + tally (is_skip_of n) w'
        = tally (is_setup_of n) w + tally (is_skip_of n) w + 1) ∧
   tally is_commit w' = tally is_commit w + 1) ∧
  tally is_failed_setup w' ≤ tally is_failed_setup w + 1 ∧
  (tally is_failed_setup w' = tally is_failed_setup w + 1 →
   (∃ x, r = Raise x) ∧ tally is_commit w' = tally is_commit w) ∧
  (∀ cur pre h post wa w1 x w2,
     itervalues (_handlers w) = pre ++ h :: post →
     for_each pre (λ handler, Handler_reload handler cur) wa = (Ok tt, w1) →
     Handler_reload h cur w1 = (Raise x, w2) →
     for_each (itervalues (_handlers w))
       (λ handler, Handler_reload handler cur) wa = (Raise x, w2)) ∧
  tally is_release w' + tally is_borrow w
    = tally is_release w + tally is_borrow w'.
Proof.
  intros Hwf. unfold sighup_handle.
  unfold bind at 1, log at 1, emit at 1. unfold bind at 1.
  match goal with |- context [AGID_setup ?w0] =>
    destruct (AGID_setup w0) as [rs ws] eqn:Hs;
    assert (Hpre : ∀ P, (∀ ev, reload_ev ev = true → P ev = false) →
                        tally P ws = tally P w);
    [intros P HP;
     rewrite (emits_tally _ _ P _ _ _ emits_AGID_setup Hs HP);
     unfold tally; simpl; rewrite count_ev_app; simpl;
     rewrite (HP (Log DEBUG "reloading core engine" [])) by done; lia|];
    destruct (emits_AGID_setup _ _ _ Hs) as (Hhs & _); simpl in Hhs
  end.
  assert (Habort : ∀ cur pre h post wa w1 x w2,
     itervalues (_handlers w) = pre ++ h :: post →
     for_each pre (λ handler, Handler_reload handler cur) wa = (Ok tt, w1) →
     Handler_reload h cur w1 = (Raise x, w2) →
     for_each (itervalues (_handlers w))
       (λ handler, Handler_reload handler cur) wa = (Raise x, w2)).
  { intros cur pre h post wa w1 x w2 -> Hp Hx. by eapply for_each_abort. }
  destruct rs as [[]|x].
  2:{ intros [= <- <-].
      split; [intros n; rewrite Hpre by by_cases_on_event; lia|].
      rewrite !Hpre by by_cases_on_event.
      split; [done|]. split; [lia|].
      split; [lia|]. split; [done|lia]. }
  unfold bind at 1.
  destruct (DBConnectionPool_acquire ws) as [[c|x] wa] eqn:Ha.
  2:{ intros [= <- <-]. destruct (acquire_raise _ _ _ Ha) as (_ & B & R).
      assert (Hacq : ∀ P, (∀ ev, pool_ev ev = true → P ev = false) →
                          tally P wa = tally P ws).
      { intros P HP. eapply emits_tally; [apply emits_acquire|exact Ha|exact HP]. }
      rewrite B, R. rewrite !Hacq by by_cases_on_event.
      rewrite !Hpre by by_cases_on_event.
      split; [intros n; rewrite Hacq, Hpre by by_cases_on_event; lia|].
      split; [done|]. split; [lia|]. split; [lia|]. split; [done|lia]. }
  destruct (acquire_ok _ _ _ Ha) as (B & R & _ & _).
  destruct (emits_acquire _ _ _ Ha) as (Hha & _).
  assert (Hacq : ∀ P, (∀ ev, pool_ev ev || reload_ev ev = true → P ev = false) →
                      tally P wa = tally P w).
  { intros P HP. rewrite <- Hpre.
    - eapply emits_tally; [apply emits_acquire|exact Ha|].
      intros ev Hev. apply HP. by rewrite Hev.
    - intros ev Hev. apply HP. rewrite Hev. apply orb_true_r. }
  unfold try_finally.
  match goal with |- context [match ?inner wa with _ => _ end] =>
    destruct (inner wa) as [ri wi] eqn:Hi end.
  assert (Hin : ∀ P, (∀ ev, serve_ev ev = true → P ev = false) →
                     tally P wi = tally P wa).
  { intros P HP. eapply emits_tally; [apply emits_reload_pass|exact Hi|exact HP]. }
  destruct (DBConnectionPool_release c wi) as [rr w5] eqn:Hrel.
  destruct (release_result _ _ _ _ Hrel) as (Hrr & R5 & _ & B5).
  assert (Hrl : ∀ P, (∀ ev, pool_ev ev = true → P ev = false) →
                     tally P w5 = tally P wi).
  { intros P HP. eapply emits_tally; [apply emits_release|exact Hrel|exact HP]. }
  intros Hres.
  assert (w' = w5 ∧ (r = Ok tt → ri = Ok tt) ∧
          ((∃ x, ri = Raise x) → ∃ x, r = Raise x)) as (-> & Hok & Hraise).
  { destruct rr as [[]|y]; simplify_eq; [by eauto|].
    split; [done|]. split; [done|]. eauto. }
  clear Hres.
  assert (Hnum : ∀ n, num_reloadable n (itervalues (_handlers wa)) ≤ 1 ∧
            (∀ h, _handlers w !! n = Some h → is_Some (setup_fn h) →
               num_reloadable n (itervalues (_handlers wa)) = 1)).
  { intros n. rewrite Hha, Hhs. by apply num_reloadable_registry. }
  split.
  { intros n. destruct (reload_pass _ n _ _ _ Hi) as (_ & Hle & T & _).
    destruct (Hnum n) as [Hn _].
    rewrite Hrl by by_cases_on_event.
    rewrite <- (Hacq (is_setup_of n)) by by_cases_on_event.
    lia. }
  split.
  { intros Hr. specialize (Hok Hr). split.
    - intros n h Hh Hf.
      destruct (reload_pass _ n _ _ _ Hi) as (_ & _ & _ & T & _).
      destruct (T Hok) as [T' _]. destruct (Hnum n) as [_ Hn].
      rewrite (Hn h Hh Hf) in T'.
      rewrite !Hrl by by_cases_on_event.
      rewrite <- (Hacq (is_setup_of n)), <- (Hacq (is_skip_of n))
        by by_cases_on_event.
      done.
    - destruct (reload_pass _ "" _ _ _ Hi) as (_ & _ & _ & T & _).
      destruct (T Hok) as [_ T'].
      rewrite Hrl, T', Hacq by by_cases_on_event. done. }
  destruct (reload_pass _ "" _ _ _ Hi) as (_ & _ & _ & _ & F1 & F2).
  split. { rewrite Hrl, <- (Hacq is_failed_setup) by by_cases_on_event. lia. }
  split.
  { rewrite !Hrl by by_cases_on_event.
    rewrite <- (Hacq is_failed_setup), <- (Hacq is_commit) by by_cases_on_event.
    intros HF. destruct (F2 HF) as [Hx HC]. split; [by apply Hraise|done]. }
  split; [done|].
  rewrite R5, B5, !Hin by by_cases_on_event. rewrite B, R.
  assert (tally is_borrow ws = tally is_borrow w) as ->
    by (apply Hpre; by_cases_on_event).
  assert (tally is_release ws = tally is_release w) as ->
    by (apply Hpre; by_cases_on_event).
  lia.
Qed.

End Proofs.

(** * The module on sample inputs *)

Local Open Scope string_scope.

Local Abbreviation world := (@World script (list lock_id)).

(** A pool of size 2: the reload opens two connections; three calls of
    [acquire] return the two of them and a new one; the reserve being
    empty, the release of the new one caches it. *)
Example pool_of_two :
  let w : world := fresh_world ∅ quiet [] in
  ∃ w1 w2 w3,
    DBConnectionPool_reload 2 "postgresql://asterisk" w = (Ok tt, w1) ∧
    conns (db_conn_pool w1) = [0; 1] ∧
    comprehension 3 DBConnectionPool_acquire w1 = (Ok [1; 0; 2], w2) ∧
    conns (db_conn_pool w2) = [] ∧
    DBConnectionPool_release 2 w2 = (Ok tt, w3) ∧
    conns (db_conn_pool w3) = [2].
Proof.
  intros w. eexists _, _, _.
  split; [vm_compute; reflexivity|]. split; [vm_compute; reflexivity|].
  split; [vm_compute; reflexivity|]. split; [vm_compute; reflexivity|].
  split; vm_compute; reflexivity.
Qed.

(** A request that the handler rejects: the lock and the connection are
    released, nothing is committed, and the switch is told to fail. *)
Example rejected_request :
  let w : world :=
    fresh_world sample_registry
      {| failing := [];
         breaking := [run_handle_fn "did_set_call_rights"
                        did_set_call_rights 0 ["42"]];
         request := Some sample_request |} [] in
  (FastAGIRequestHandler_handle w).1 = Ok tt ∧
  trace (FastAGIRequestHandler_handle w).2 =
    [Log DEBUG "handling request" []; NewFastAGI None; Call Hook_new None;
     Call (connect_by_uri None) None;
     Log DEBUG "acquiring connection: pool empty, created new connection" [];
     Borrowed 0; Call (conn_cursor 0) None;
     Log DEBUG "delegating request handling %r" ["did_set_call_rights"];
     AcquireRead 0; Call session_enter None;
     Call (run_handle_fn "did_set_call_rights" did_set_call_rights 0 ["42"])
       (Some (FastAGIDialPlanBreak "rejected"));
     Call (session_exit true) None; ReleaseLock 0;
     Released 0; Call (conn_close 0) None;
     Log DEBUG "releasing connection: pool full, connection closed" [];
     Log INFO "invalid request, dial plan broken" [];
     Call (fagi_verbose "rejected") None;
     Call (fagi_appexec "Goto" "agi_fail,s,1") None; Call fagi_fail None].
Proof. intros w. split; vm_compute; reflexivity. Qed.

(** C1, as stated, fails: the registry holds [callerid_forphones] and
    [handynumbers], both with a setup routine; on the reload signal the
    setup routine of [callerid_forphones] raises, the signal handler
    raises, and the setup routine of [handynumbers] has not run (nor was
    its reload given up for its lock). *)
Lemma C1_counterexample :
  let w : world :=
    started_world sample_registry
      {| failing := [run_setup_fn "callerid_forphones" callerid_setup 3];
         breaking := []; request := None |} [] in
  ∃ h x w',
    _handlers w !! "handynumbers" = Some h ∧ is_Some (setup_fn h) ∧
    sighup_handle w = (Raise x, w') ∧
    tally is_failed_setup w' = tally is_failed_setup w + 1 ∧
    tally (is_setup_of "callerid_forphones") w'
      = tally (is_setup_of "callerid_forphones") w + 1 ∧
    tally (is_setup_of "handynumbers") w' = tally (is_setup_of "handynumbers") w ∧
    tally (is_skip_of "handynumbers") w' = tally (is_skip_of "handynumbers") w.
Proof.
  intros w. eexists _, _, _.
  split; [vm_compute; reflexivity|]. split; [by eexists|].
  split; [vm_compute; reflexivity|]. by vm_compute.
Qed.

(** C1 at work: every call returns, and each handler with a setup
    routine is reloaded once. *)
Lemma C1_witness :
  let w : world := started_world sample_registry quiet [] in
  registry_wf (_handlers w) ∧
  ∃ w', sighup_handle w = (Ok tt, w') ∧
    (∀ n h, _handlers w !! n = Some h → is_Some (setup_fn h) →
       tally (is_setup_of n) w' + tally (is_skip_of n) w'
         = tally (is_setup_of n) w + tally (is_skip_of n) w + 1) ∧
    tally is_commit w' = tally is_commit w + 1.
Proof.
  intros w.
  assert (Hwf : registry_wf (_handlers w)).
  { apply (bool_decide_unpack _). vm_compute. exact I. }
  split; [exact Hwf|].
  pose (w' := (sighup_handle w).2). exists w'.
  assert (Hrun : sighup_handle w = (Ok tt, w')) by (vm_compute; reflexivity).
  split; [exact Hrun|].
  destruct (C1_reload_pass_stops_at_first_failure w (Ok tt) w' Hwf Hrun)
    as (_ & H & _).
  exact (H eq_refl).
Defined.

(** C2, as stated, fails: both connections of the reserve are out and
    the database is down when a request for [did_set_call_rights]
    arrives; [acquire] raises, no connection is borrowed and none is
    given back. *)
Lemma C2_counterexample :
  let busy : world :=
    (bind DBConnectionPool_acquire (λ _, DBConnectionPool_acquire)
       (started_world sample_registry quiet [])).2 in
  let w : world :=
    set_ext {| failing := [connect_by_uri (Some "postgresql://asterisk")];
               breaking := []; request := Some sample_request |} busy in
  ∃ h w',
    read_request (ext w) = (Ok sample_request, ext w) ∧
    env sample_request !! "agi_network_script" = Some "did_set_call_rights" ∧
    _handlers w !! "did_set_call_rights" = Some h ∧
    conns (db_conn_pool w) = [] ∧
    FastAGIRequestHandler_handle w = (Ok tt, w') ∧
    tally is_borrow w' = tally is_borrow w ∧
    tally is_release w' = tally is_release w ∧
    tally is_commit w' = tally is_commit w ∧
    tally is_handle_fn w' = tally is_handle_fn w.
Proof.
  intros busy w. eexists _, _.
  split; [vm_compute; reflexivity|]. split; [vm_compute; reflexivity|].
  split; [vm_compute; reflexivity|]. split; [vm_compute; reflexivity|].
  split; [vm_compute; reflexivity|]. by vm_compute.
Qed.

(** C2 at work: a request for [did_set_call_rights] on a started server. *)
Lemma C2_witness :
  let w : world := started_world sample_registry (serving sample_request) [] in
  ∃ w', FastAGIRequestHandler_handle w = (Ok tt, w') ∧
    tally is_borrow w' = tally is_borrow w + 1 ∧
    tally is_release w' = tally is_release w + 1 ∧
    tally (is_release_of 1) w' = tally (is_release_of 1) w + 1 ∧
    tally is_commit w' = tally is_commit w + 1 ∧
    tally (is_commit_on 1) w' = tally (is_commit_on 1) w + 1.
Proof.
  intros w.
  pose (wf := (bind (log DEBUG "handling request" []) (λ _, FastAGI_new) w).2).
  pose (wk := (collab Hook_new wf).2).
  pose (w1 := (DBConnectionPool_acquire wk).2).
  pose (w2 := (conn_cursor_new 1 w1).2).
  pose (h := {| handler_name := "did_set_call_rights"; setup_fn := None;
                handle_fn := did_set_call_rights; lock := 0 |}).
  pose (w3 := (Handler_handle h sample_request 1 ["42"]
                 (log DEBUG "delegating request handling %r"
                    ["did_set_call_rights"] w2).2).2).
  destruct (C2_dispatch_borrows_when_acquire_returns w sample_request wf
              "did_set_call_rights" h)
    as (w' & Hrun & _ & _ & Hok);
    [vm_compute; reflexivity ..|].
  destruct (Hok wk 1 w1) as (B & R & RO & _ & Hc);
    [vm_compute; reflexivity ..|].
  exists w'. split; [exact Hrun|]. split; [exact B|]. split; [exact R|].
  split; [exact RO|].
  destruct (Hc w2 (Ok tt) w3) as (C & CO & _); [vm_compute; reflexivity ..|].
  split; [exact C|exact CO].
Defined.

(** C3, as stated, fails: connection 0 is borrowed before the reload;
    after [reload(1, uri)] the connection of the new reserve is borrowed
    in turn, and the release of connection 0 then puts it in the reserve
    of the reloaded pool: it is not closed. *)
Lemma C3_counterexample :
  let w : world := fresh_world ∅ quiet [] in
  ∃ w1 w2 w3 w4,
    DBConnectionPool_acquire w = (Ok 0, w1) ∧
    DBConnectionPool_reload 1 "postgresql://asterisk" w1 = (Ok tt, w2) ∧
    DBConnectionPool_acquire w2 = (Ok 1, w3) ∧
    DBConnectionPool_release 0 w3 = (Ok tt, w4) ∧
    conns (db_conn_pool w4) = [0] ∧
    tally (is_close_of 0) w4 = 0.
Proof.
  intros w. eexists _, _, _, _.
  split; [vm_compute; reflexivity|]. split; [vm_compute; reflexivity|].
  split; [vm_compute; reflexivity|]. split; [vm_compute; reflexivity|].
  by vm_compute.
Qed.

(** C3 at work: the connection borrowed before the reload is released
    right after it. *)
Lemma C3_witness :
  let w : world := fresh_world ∅ quiet [] in
  ∃ w0 w1 r w2,
    DBConnectionPool_acquire w = (Ok 0, w0) ∧
    DBConnectionPool_reload 1 "postgresql://asterisk" w0 = (Ok tt, w1) ∧
    DBConnectionPool_release 0 w1 = (r, w2) ∧
    db_conn_pool w2 = db_conn_pool w1 ∧
    tally (is_close_of 0) w2 = tally (is_close_of 0) w1 + 1.
Proof.
  intros w.
  pose (w0 := (DBConnectionPool_acquire w).2).
  pose (w1 := (DBConnectionPool_reload 1 "postgresql://asterisk" w0).2).
  assert (Hr : DBConnectionPool_reload 1 "postgresql://asterisk" w0 = (Ok tt, w1))
    by (vm_compute; reflexivity).
  destruct (C3_stale_connection_closed_when_full 0 _ _ _ _ Hr)
    as [(r & w2 & Hrel & Hp & Hc) _].
  exists w0, w1, r, w2. split; [vm_compute; reflexivity|]. by repeat split.
Defined.

(** C4, as stated, fails: after [reload(-1, uri)] the reserve holds no
    connection and the size is -1. *)
Lemma C4_counterexample :
  let w : world :=
    run_pool_ops [Reload (-1) "postgresql://asterisk"] (fresh_world ∅ quiet []) in
  ¬ (Z.of_nat (length (conns (db_conn_pool w))) ≤ size (db_conn_pool w))%Z.
Proof. intros w. vm_compute. intros H. by apply H. Qed.

(** C4 at work: a pool of size 2 that is given more connections than it
    handed out. *)
Lemma C4_witness :
  let w0 : world := fresh_world ∅ quiet [] in
  let w := run_pool_ops
             [Reload 2 "postgresql://asterisk"; Acquire; Release 7; Release 8] w0 in
  db_conn_pool w0 = DBConnectionPool_init ∧
  (Z.of_nat (length (conns (db_conn_pool w))) ≤ size (db_conn_pool w))%Z.
Proof.
  intros w0 w. split; [reflexivity|].
  destruct (C4_reserve_bounded
              [Reload 2 "postgresql://asterisk"; Acquire; Release 7; Release 8]
              9 w0 eq_refl) as (_ & H & _).
  apply H. by vm_compute.
Defined.

(** C5 at work: a reserve of two, an empty reserve, and three calls
    after [reload(3, uri)]. *)
Lemma C5_witness :
  let w : world := started_world sample_registry quiet [] in
  let w0 : world := fresh_world ∅ quiet [] in
  (∃ w', DBConnectionPool_acquire w = (Ok 1, w') ∧
     conns (db_conn_pool w') = [0]) ∧
  (∃ w', DBConnectionPool_acquire w0 = (Ok 0, w') ∧
     conns (db_conn_pool w') = []) ∧
  ∃ w1 w2 c' w3,
    DBConnectionPool_reload 3 "postgresql://asterisk" w = (Ok tt, w1) ∧
    comprehension 3 DBConnectionPool_acquire w1 = (Ok [4; 3; 2], w2) ∧
    DBConnectionPool_acquire w2 = (Ok c', w3) ∧
    c' ∉ [2; 3; 4].
Proof.
  intros w w0. split; [|split].
  - destruct (C5_acquire_pops_or_opens w) as (H & _).
    destruct (H [0] 1) as (w' & Hrun & Hc & _); [vm_compute; reflexivity|].
    by exists w'.
  - destruct (C5_acquire_pops_or_opens w0) as (_ & H & _).
    destruct (H quiet) as (w' & Hrun & Hc & _);
      [vm_compute; reflexivity ..|].
    by exists w'.
  - destruct (C5_acquire_pops_or_opens w) as (_ & _ & H).
    pose (w1 := (DBConnectionPool_reload 3 "postgresql://asterisk" w).2).
    destruct (H 3 "postgresql://asterisk" w1) as (w2 & Hrun & _ & _ & _ & Hnext);
      [vm_compute; reflexivity|].
    assert (Hw2 : w2 = (comprehension 3 DBConnectionPool_acquire w1).2)
      by (by rewrite Hrun).
    destruct (Hnext quiet) as (c' & w3 & Ha & Hc' & _).
    { rewrite Hw2. vm_compute. reflexivity. }
    exists w1, w2, c', w3. split; [vm_compute; reflexivity|].
    split; [exact Hrun|]. split; [exact Ha|]. exact Hc'.
Defined.

(** C6 at work: [did_set_call_rights] registered twice, and a new name. *)
Lemma C6_witness :
  let w : world := fresh_world sample_registry quiet [] in
  register did_set_call_rights (Some callerid_setup) w
    = (Raise (ValueError "handler %r already registered" "did_set_call_rights"), w) ∧
  ∃ w', register {| fn_name := "incoming_user_set_features"; fn_id := 9 |} None w
          = (Ok tt, w') ∧
    base.size (_handlers w') = S (base.size (_handlers w)).
Proof.
  intros w. split.
  - destruct (C6_register_refuses_duplicates did_set_call_rights
                (Some callerid_setup) w) as [H _].
    eapply H. vm_compute. reflexivity.
  - destruct (C6_register_refuses_duplicates
                {| fn_name := "incoming_user_set_features"; fn_id := 9 |}
                None w) as [_ H].
    destruct H as (w' & Hrun & _ & _ & Hsize); [vm_compute; reflexivity|].
    by exists w'.
Defined.

(** C7 at work: the lock of [callerid_forphones] refuses the writer. *)
Lemma C7_witness :
  let w : world := started_world sample_registry quiet [1] in
  let h := {| handler_name := "callerid_forphones";
              setup_fn := Some callerid_setup;
              handle_fn := callerid_forphones; lock := 1 |} in
  _handlers w !! "callerid_forphones" = Some h ∧
  ∃ w', Handler_reload h 3 w = (Ok tt, w') ∧
    (∀ name, tally (is_setup_of name) w' = tally (is_setup_of name) w) ∧
    ext w' = ext w.
Proof.
  intros w h. split; [vm_compute; reflexivity|].
  destruct (C7_refused_reload_is_skipped h callerid_setup 3 w [1])
    as (w' & Hrun & _ & Hs & He & _); [reflexivity|vm_compute; reflexivity|].
  by exists w'.
Defined.

(** C8 at work: a request for [ghost_handler], which nobody registered. *)
Lemma C8_witness :
  let w : world := started_world sample_registry (serving ghost_request) [] in
  ∃ w', FastAGIRequestHandler_handle w = (Ok tt, w') ∧
    tally (is_call fagi_fail) w' = tally (is_call fagi_fail) w + 1 ∧
    tally is_commit w' = tally is_commit w ∧
    tally (is_release_of 1) w' = tally (is_release_of 1) w + 1.
Proof.
  intros w.
  pose (wf := (bind (log DEBUG "handling request" []) (λ _, FastAGI_new) w).2).
  pose (wk := (collab Hook_new wf).2).
  pose (w1 := (DBConnectionPool_acquire wk).2).
  destruct (C8_unknown_handler_fails_cleanly w ghost_request wf wk
              "ghost_handler")
    as (w' & Hrun & _ & _ & _ & _ & _ & Hc & _ & Hrel & _);
    [vm_compute; reflexivity ..|].
  exists w'. split; [exact Hrun|].
  destruct (Hrel 1 w1) as (_ & _ & RO); [vm_compute; reflexivity|].
  split; [|by split].
  assert (Hw' : w' = (FastAGIRequestHandler_handle w).2) by (by rewrite Hrun).
  rewrite Hw'. vm_compute. reflexivity.
Defined.

(** C9 at work: [did_set_call_rights] has no setup routine. *)
Lemma C9_witness :
  let w : world := started_world sample_registry quiet [] in
  let h := {| handler_name := "did_set_call_rights"; setup_fn := None;
              handle_fn := did_set_call_rights; lock := 0 |} in
  _handlers w !! "did_set_call_rights" = Some h ∧
  Handler_setup h 1 w = (Ok tt, w) ∧ Handler_reload h 1 w = (Ok tt, w).
Proof.
  intros w h. split; [vm_compute; reflexivity|].
  apply (C9_no_setup_routine_is_noop h 1 w). reflexivity.
Defined.

(** * More properties *)

Local Close Scope string_scope.

Section More.

Context {E Sch : Type} `{!Collaborators E Sch}.

Implicit Types (w : @World E Sch) (c : conn) (p : DBConnectionPool).

Local Abbreviation M := (@M E Sch).

Local Notation "x ← m ; k" := (bind m (λ x, k))
  (at level 20, m at level 100, k at level 200, only parsing).
Local Notation "m ;; k" := (bind m (λ _, k))
  (at level 100, k at level 200, right associativity).

(** ** The pool *)

Lemma close_all_ok l w w' :
  for_each l (λ c, collab (conn_close c)) w = (Ok tt, w') →
  ∃ e, w' = set_ext e
    (set_trace (trace w ++ map (λ c, Call (conn_close c) None) l) w).
Proof.
  revert w. induction l as [|c l IH]; intros w; simpl.
  - intros [= <-]. exists (ext w). destruct w; simpl. by rewrite app_nil_r.
  - unfold bind, collab.
    destruct (oracle (conn_close c) (ext w)) as [[x|] e1]; [done|].
    intros Hl. destruct (IH _ Hl) as [e ->]. exists e. simpl.
    by rewrite <- app_assoc.
Qed.


Lemma collab_inv k w r w' :
  collab k w = (r, w') →
  ∃ o e, oracle k (ext w) = (o, e) ∧
    r = match o with None => Ok tt | Some x => Raise x end ∧
    w' = set_ext e (set_trace (trace w ++ [Call k o]) w).
Proof.
  unfold collab. destruct (oracle k (ext w)) as [[x|] e];
    intros [= <- <-]; by eexists _, _.
Qed.

Lemma connect_inv uri w r w' :
  anysql_connect_by_uri uri w = (r, w') →
  ∃ o e, oracle (connect_by_uri uri) (ext w) = (o, e) ∧
    match o with
    | None =>
        r = Ok (next_conn w) ∧
        w' = set_next_conn (S (next_conn w))
               (set_ext e (set_trace (trace w ++ [Call (connect_by_uri uri) None]) w))
    | Some x =>
        r = Raise x ∧
        w' = set_ext e (set_trace (trace w ++ [Call (connect_by_uri uri) (Some x)]) w)
    end.
Proof.
  unfold anysql_connect_by_uri, bind, collab.
  destruct (oracle _ (ext w)) as [[x|] e]; intros [= <- <-]; by eexists _, _.
Qed.

Lemma open_all_ok n uri w cs w' :
  comprehension n (anysql_connect_by_uri uri) w = (Ok cs, w') →
  ∃ e, w' = set_next_conn (next_conn w + n) (set_ext e
    (set_trace (trace w ++ replicate n (Call (connect_by_uri uri) None)) w)).
Proof.
  revert w cs w'. induction n as [|n IH]; intros w cs w'; simpl.
  - intros [= <- <-]. exists (ext w). destruct w; simpl.
    by rewrite app_nil_r, Nat.add_0_r.
  - unfold bind at 1.
    destruct (anysql_connect_by_uri uri w) as [[c|x] w1] eqn:Hc; [|done].
    destruct (connect_inv _ _ _ _ Hc) as ([y|] & e1 & _ & Hr); [by destruct Hr|].
    destruct Hr as [_ ->]. unfold bind at 1.
    destruct (comprehension n _ _) as [[l|x] w2] eqn:Hl; [|done].
    intros [= <- <-]. destruct (IH _ _ _ Hl) as [e ->]. exists e. simpl.
    rewrite <- app_assoc. simpl.
    unfold set_next_conn, set_ext, set_trace. simpl. f_equal. lia.
Qed.



(** X1: a [reload(size, uri)] that returns has closed every connection
    of the old reserve, once and in order, then opened [max(size, 0)]
    connections against [uri]; the reserve is made of these new
    connections, which are distinct and are none of the old ones, and
    [size] and [uri] are recorded. *)
Theorem reload_closes_old_opens_new n u w w' :
  DBConnectionPool_reload n u w = (Ok tt, w') →
  trace w' = trace w
    ++ map (λ c, Call (conn_close c) None) (conns (db_conn_pool w))
    ++ replicate (Z.to_nat n) (Call (connect_by_uri (Some u)) None)
    ++ [Log DEBUG "reloaded db conn pool" []] ∧
  db_conn_pool w' =
    {| conns := seq (next_conn w) (Z.to_nat n); size := n; db_uri := Some u |} ∧
  next_conn w' = next_conn w + Z.to_nat n ∧
  NoDup (conns (db_conn_pool w')) ∧
  length (conns (db_conn_pool w')) = Z.to_nat n.
Proof.
  intros Hr.
  destruct (reload_pool _ _ _ _ _ Hr) as [(_ & Hp & Hn)|(x & ? & _)]; [|done].
  split; [|rewrite Hp; simpl; split_and!; try done;
            [apply NoDup_seq|apply length_seq]].
  revert Hr. unfold DBConnectionPool_reload, bind, get_pool, put_pool, log, emit.
  destruct (for_each _ _ w) as [[[]|x] w1] eqn:H1; [|done].
  destruct (close_all_ok _ _ _ H1) as [e1 ->].
  destruct (comprehension _ _ _) as [[cs|x] w2] eqn:H2; [|done].
  destruct (open_all_ok _ _ _ _ _ H2) as [e2 ->].
  intros [= <-]. simpl. by rewrite <- ?app_assoc.
Qed.


(** X3: [acquire()] raises only when the reserve is empty and
    [connect_by_uri] raised for the current uri; the exception is the
    driver's, the pool is as before and no connection is handed out. *)
Theorem acquire_fails_only_by_connect w x w' :
  DBConnectionPool_acquire w = (Raise x, w') →
  conns (db_conn_pool w) = [] ∧
  (oracle (connect_by_uri (db_uri (db_conn_pool w))) (ext w)).1 = Some x ∧
  db_conn_pool w' = db_conn_pool w ∧
  next_conn w' = next_conn w ∧
  trace w' = trace w
    ++ [Call (connect_by_uri (db_uri (db_conn_pool w))) (Some x)].
Proof.
  destruct (conns (db_conn_pool w)) as [|c cs _] eqn:Hcs using rev_ind.
  - rewrite acquire_open by done.
    destruct (oracle _ (ext w)) as [[y|] e'] eqn:Ho; intros [= <- <-]. done.
  - by rewrite (acquire_pop cs c).
Qed.

(** X4: the reserve is a stack.  When it holds fewer than [size]
    connections, [release(conn)] followed by [acquire()] hands [conn]
    out again and leaves the pool as it was, without a call to the
    driver. *)
Theorem release_then_acquire_returns_it c w :
  (Z.of_nat (length (conns (db_conn_pool w))) < size (db_conn_pool w))%Z →
  ∃ w1 w2,
    DBConnectionPool_release c w = (Ok tt, w1) ∧
    DBConnectionPool_acquire w1 = (Ok c, w2) ∧
    db_conn_pool w2 = db_conn_pool w ∧
    ext w2 = ext w ∧ next_conn w2 = next_conn w.
Proof.
  intros Hlt.
  destruct (release_pool c w) as (r & w1 & Hrel & _ & Hn & _ & _ & _ & _ & Hc).
  rewrite bool_decide_true in Hc by done. destruct Hc as (-> & He & Hp & _).
  exists w1. eexists. split; [done|].
  rewrite (acquire_pop (conns (db_conn_pool w)) c) by by rewrite Hp.
  split; [done|]. simpl. rewrite Hp, He, Hn. simpl.
  by destruct (db_conn_pool w).
Qed.

(** X5: in a pool whose reserve is not empty and holds at most [size]
    connections, [acquire()] followed by the release of the connection
    it returned leaves the pool as it was, without a call to the
    driver. *)
Theorem acquire_then_release_restores w :
  conns (db_conn_pool w) ≠ [] →
  (Z.of_nat (length (conns (db_conn_pool w))) ≤ size (db_conn_pool w))%Z →
  ∃ c w1 w2,
    DBConnectionPool_acquire w = (Ok c, w1) ∧
    DBConnectionPool_release c w1 = (Ok tt, w2) ∧
    db_conn_pool w2 = db_conn_pool w ∧
    ext w2 = ext w ∧ next_conn w2 = next_conn w ∧
    tally is_connect w2 = tally is_connect w ∧
    tally (is_close_of c) w2 = tally (is_close_of c) w.
Proof.
  intros Hne Hle.
  destruct (conns (db_conn_pool w)) as [|c cs _] eqn:Hcs using rev_ind; [done|].
  rewrite length_app in Hle. simpl in Hle.
  exists c. rewrite (acquire_pop cs c) by done.
  match goal with |- ∃ w1 w2, (_, ?w0) = _ ∧ _ => set (w1 := w0) end.
  destruct (release_pool c w1)
    as (r & w2 & Hrel & _ & Hn & _ & _ & _ & Hco & Hc).
  rewrite bool_decide_true in Hc by (subst w1; simpl; lia).
  destruct Hc as (-> & He & Hp & Hcl).
  exists w1, w2. split; [done|]. split; [done|].
  split. { rewrite Hp. subst w1. simpl. rewrite <- Hcs. by destruct (db_conn_pool w). }
  split; [by rewrite He|]. split; [by rewrite Hn|].
  rewrite Hco, Hcl. subst w1. unfold tally. simpl.
  rewrite !count_ev_app. simpl. lia.
Qed.


(** ** The handlers and the registry *)

(** X6: when the handler has a setup routine and its lock grants the
    writer, [Handler.reload] calls the routine once, between the
    acquisition and the release of the lock; the lock is released
    whether the routine returns or raises, and an exception of the
    routine is the exception of [reload]. *)
Theorem reload_runs_setup_under_the_write_lock h f cur w s' :
  setup_fn h = Some f →
  grant_write (lock h) (sched w) = (true, s') →
  ∃ o e r w',
    oracle (run_setup_fn (handler_name h) f cur) (ext w) = (o, e) ∧
    Handler_reload h cur w = (r, w') ∧
    r = match o with None => Ok tt | Some x => Raise x end ∧
    ext w' = e ∧
    trace w' = trace w
      ++ [AcquireWrite (lock h) true;
          Call (run_setup_fn (handler_name h) f cur) o]
      ++ match o with
         | None => [Log DEBUG "handler %r reloaded" [handler_name h]]
         | Some _ => []
         end
      ++ [ReleaseLock (lock h)].
Proof.
  intros Hf Hg.
  unfold Handler_reload, bind, try_finally, RWLock_acquire_write,
    RWLock_release, log, emit, collab.
  rewrite Hf, Hg. simpl.
  destruct (oracle _ (ext w)) as [[x|] e]; simpl;
    eexists _, _, _, _; (split; [done|]); (split; [done|]); simpl;
    (split; [done|]); (split; [done|]); by rewrite <- ?app_assoc.
Qed.

(** X7: [Handler.handle] calls the handle routine at most once, and only
    inside the session: the routine runs exactly when the session was
    entered, the session is left exactly when it was entered, as a
    success when the routine returned and as a failure when it raised,
    and [handle] returns exactly when the session was left as a success
    and the leaving returned. *)
Theorem handle_runs_the_routine_inside_the_session h agi cur a w r w' :
  Handler_handle h agi cur a w = (r, w') →
  let routine := run_handle_fn (handler_name h) (handle_fn h) cur a in
  tally is_handle_fn w' ≤ tally is_handle_fn w + 1 ∧
  tally (is_call routine) w' + tally (is_returned session_enter) w
    = tally (is_call routine) w + tally (is_returned session_enter) w' ∧
  tally is_session_exit w' + tally (is_returned session_enter) w
    = tally is_session_exit w + tally (is_returned session_enter) w' ∧
  tally (is_call (session_exit false)) w' + tally (is_returned routine) w
    = tally (is_call (session_exit false)) w + tally (is_returned routine) w' ∧
  (r = Ok tt ↔
   tally (is_returned (session_exit false)) w'
     = tally (is_returned (session_exit false)) w + 1).
Proof.
  unfold Handler_handle, bind, try_finally, with_session_scope, bind,
    RWLock_acquire_read, RWLock_release, emit, collab, raise, tally.
  simpl.
  destruct (oracle session_enter (ext w)) as [[x1|] e1]; simpl.
  { intros [= <- <-]. simpl. rewrite !count_ev_app. simpl.
    unfold is_returned, is_call. repeat case_bool_decide; try congruence.
    split_and!; try lia. split; [done|lia]. }
  destruct (oracle (run_handle_fn _ _ _ _) e1) as [[x2|] e2]; simpl;
    (destruct (oracle (session_exit _) e2) as [[x3|] e3]; simpl;
     intros [= <- <-]; simpl; rewrite !count_ev_app; simpl;
     unfold is_returned, is_call; repeat case_bool_decide; try congruence;
     split_and!; try lia; split; (done || lia)).
Qed.

Lemma register_keeps_entries f s w r w' k h :
  _handlers w !! k = Some h → register f s w = (r, w') →
  _handlers w' !! k = Some h.
Proof.
  unfold register, bind, get_handlers, put_handlers, Handler_init, bind,
    RWLock_new, ret, raise.
  intros Hk. destruct (_handlers w !! fn_name f) eqn:Hf; intros [= <- <-].
  - done.
  - simpl. rewrite lookup_insert_ne; [done|]. intros <-. congruence.
Qed.

Lemma register_locks f s w r w' :
  locks_allocated w → locks_distinct (_handlers w) →
  register f s w = (r, w') →
  locks_allocated w' ∧ locks_distinct (_handlers w').
Proof.
  unfold register, bind, get_handlers, put_handlers, Handler_init, bind,
    RWLock_new, ret, raise, locks_allocated.
  intros Ha Hd. destruct (_handlers w !! fn_name f) eqn:Hf; intros [= <- <-].
  - done.
  - simpl. split.
    + apply map_Forall_insert_2; [simpl; lia|].
      eapply map_Forall_impl; [exact Ha|]. simpl. intros; lia.
    + intros k1 k2 h1 h2. rewrite !lookup_insert.
      repeat case_decide; intros; simplify_eq; simpl in *; try done.
      * match goal with H : _ !! k2 = Some _ |- _ => apply Ha in H end.
        simpl in *. lia.
      * match goal with H : _ !! k1 = Some _ |- _ => apply Ha in H end.
        simpl in *. lia.
      * by eapply Hd.
Qed.

Lemma load_modules_keeps_entries mods w k h :
  _handlers w !! k = Some h → _handlers (load_modules mods w) !! k = Some h.
Proof.
  revert w. induction mods as [|[f s] mods IH]; intros w Hk; simpl; [done|].
  apply IH. destruct (register f s w) as [r w1] eqn:Hr.
  by eapply register_keeps_entries.
Qed.

Lemma load_modules_invariant mods w :
  registry_wf (_handlers w) → locks_allocated w → locks_distinct (_handlers w) →
  registry_wf (_handlers (load_modules mods w)) ∧
  locks_distinct (_handlers (load_modules mods w)).
Proof.
  revert w. induction mods as [|[f s] mods IH]; intros w Hwf Ha Hd; simpl; [done|].
  destruct (register f s w) as [r w1] eqn:Hr. simpl.
  destruct (register_locks _ _ _ _ _ Ha Hd Hr) as [Ha1 Hd1].
  apply IH; [by eapply register_wf|done|done].
Qed.

Lemma load_modules_new_entry mods w name :
  _handlers w !! name = None →
  match first_named name mods with
  | Some (f, s) =>
      ∃ l, _handlers (load_modules mods w) !! name =
             Some {| handler_name := name; setup_fn := s; handle_fn := f;
                     lock := l |}
  | None => _handlers (load_modules mods w) !! name = None
  end.
Proof.
  revert w. induction mods as [|[f s] mods IH]; intros w Hn; simpl; [done|].
  case_bool_decide as Hname.
  - exists (next_lock w). apply load_modules_keeps_entries.
    unfold register, bind, get_handlers, put_handlers, Handler_init, bind,
      RWLock_new, ret. rewrite Hname, Hn. simpl.
    by rewrite lookup_insert_eq.
  - apply IH.
    unfold register, bind, get_handlers, put_handlers, Handler_init, bind,
      RWLock_new, ret, raise.
    destruct (_handlers w !! fn_name f); simpl; [done|].
    by rewrite lookup_insert_ne.
Qed.

(** X8: whatever modules register their functions into an empty
    registry, and whichever of these registrations raise, the registry
    ends up with one handler for each name, the one registered first
    under it (its handle routine and setup routine are those of the
    first call); every entry is filed under its own name and no two
    handlers share a lock. *)
Theorem first_registration_wins mods w :
  _handlers w = ∅ →
  let hs := _handlers (load_modules mods w) in
  (∀ name,
     match first_named name mods with
     | Some (f, s) =>
         ∃ h, hs !! name = Some h ∧ handler_name h = name ∧
              handle_fn h = f ∧ setup_fn h = s
     | None => hs !! name = None
     end) ∧
  registry_wf hs ∧ locks_distinct hs.
Proof.
  intros Hempty hs. split.
  - intros name. pose proof (load_modules_new_entry mods w name) as H.
    rewrite Hempty, lookup_empty in H. specialize (H eq_refl).
    destruct (first_named name mods) as [[f s]|]; [|done].
    destruct H as [l H]. eexists. split; [exact H|]. done.
  - apply load_modules_invariant.
    + rewrite Hempty. apply map_Forall_empty.
    + unfold locks_allocated. rewrite Hempty. apply map_Forall_empty.
    + rewrite Hempty. intros k1 k2 h1 h2. by rewrite lookup_empty.
Qed.


(** ** The dispatcher *)

(** X9: [FastAGIRequestHandler.handle] never raises, whatever the
    request, the registry, the pool and the collaborators do: every
    exception ends in one of its two [except] clauses, and what these
    raise in turn is dropped. *)
Theorem dispatcher_never_raises w :
  ∃ w', FastAGIRequestHandler_handle w = (Ok tt, w').
Proof.
  unfold FastAGIRequestHandler_handle.
  destruct ((log DEBUG "handling request" [] ;; FastAGI_new) w)
    as [[fagi|x] w1]; [|apply handle_except_ok].
  destruct (collab Hook_new w1) as [[[]|x] w2]; [|apply handle_except_ok].
  unfold try_except.
  destruct (FastAGIRequestHandler_handle_body fagi w2) as [[[]|x] w3].
  - by eexists.
  - apply handle_except_ok.
Qed.

(** X10: when the request cannot be decoded ([fastagi.FastAGI] raises),
    the dispatcher records the failure and returns: [fagi] and
    [except_hook] are not bound, so neither [except] clause gets to send
    anything to the switch or to run the traceback hook, and no
    connection is borrowed.  When only [agitb.Hook] raises, other than
    by a broken dial plan, nothing is sent either. *)
Theorem undecoded_request_gets_no_answer w :
  (∀ x e, read_request (ext w) = (Raise x, e) →
     FastAGIRequestHandler_handle w =
       (Ok tt,
        set_ext e (set_trace
          (trace w ++
             [Log DEBUG "handling request" []; NewFastAGI (Some x);
              if is_break x
              then Log INFO "invalid request, dial plan broken" []
              else Log EXCEPTION "unexpected exception" []]) w))) ∧
  (∀ fagi e x e',
     read_request (ext w) = (Ok fagi, e) →
     oracle Hook_new e = (Some x, e') → is_break x = false →
     FastAGIRequestHandler_handle w =
       (Ok tt,
        set_ext e' (set_trace
          (trace w ++
             [Log DEBUG "handling request" []; NewFastAGI None;
              Call Hook_new (Some x);
              Log EXCEPTION "unexpected exception" []]) w))).
Proof.
  split.
  - intros x e Hr.
    unfold FastAGIRequestHandler_handle, bind, log, emit, FastAGI_new. simpl.
    rewrite Hr.
    destruct x; simpl;
      unfold except_any, except_FastAGIDialPlanBreak, try_except, bind, log,
        emit, raise, ret; simpl; by rewrite <- ?app_assoc.
  - intros fagi e x e' Hr Ho Hx.
    unfold FastAGIRequestHandler_handle, bind, log, emit, FastAGI_new, collab.
    simpl. rewrite Hr. simpl. rewrite Ho.
    rewrite handle_except_other by done.
    unfold except_any, try_except, bind, log, emit, raise, ret; simpl.
    by rewrite <- ?app_assoc.
Qed.


Ltac event_cases :=
  let ev := fresh "ev" in
  intros ev; destruct ev as [[]| |[] ? [|? []]| | | | |]; simpl; done.

Lemma request_inv w r w1 :
  (log DEBUG "handling request" [] ;; FastAGI_new) w = (r, w1) →
  ∃ o e, w1 = set_ext e (set_trace
    (trace w ++ [Log DEBUG "handling request" []; NewFastAGI o]) w).
Proof.
  unfold bind, log, emit, FastAGI_new. simpl.
  destruct (read_request (ext w)) as [[f|x] e]; intros [= <- <-];
    eexists _, e; simpl; by rewrite <- ?app_assoc.
Qed.

Lemma handle_exit_tally h agi cur a w r w' :
  Handler_handle h agi cur a w = (r, w') →
  tally (is_returned (session_exit false)) w'
    = tally (is_returned (session_exit false)) w
      + match r with Ok _ => 1 | Raise _ => 0 end.
Proof.
  unfold Handler_handle, bind, try_finally, with_session_scope, bind,
    RWLock_acquire_read, RWLock_release, emit, collab, raise, tally.
  simpl.
  destruct (oracle session_enter (ext w)) as [[x1|] e1]; simpl.
  { intros [= <- <-]. simpl. rewrite !count_ev_app. simpl. lia. }
  destruct (oracle (run_handle_fn _ _ _ _) e1) as [[x2|] e2]; simpl;
    (destruct (oracle (session_exit _) e2) as [[x3|] e3]; simpl;
     intros [= <- <-]; simpl; rewrite !count_ev_app; simpl; lia).
Qed.

(** between [acquire] and [release]: [commit] is called exactly when
    [Handler.handle] returned *)
Lemma serve_accounting fagi c w r w' :
  (cur ← conn_cursor_new c;
   handler_name' ← env_getitem fagi "agi_network_script";
   log DEBUG "delegating request handling %r" [handler_name'] ;;
   h ← handlers_getitem handler_name';
   Handler_handle h fagi cur (args fagi) ;;
   collab (conn_commit c) ;;
   collab (fagi_verbose
             ("AGI handler '" +:+ handler_name' +:+ "' successfully executed")) ;;
   log DEBUG "request successfully handled" []) w = (r, w') →
  tally is_commit w' + tally (is_returned (session_exit false)) w
    = tally is_commit w + tally (is_returned (session_exit false)) w' ∧
  tally is_commit w' ≤ tally is_commit w + 1.
Proof.
  unfold bind at 1.
  destruct (conn_cursor_new c w) as [[cur|x] w1] eqn:Hc;
    unfold conn_cursor_new, bind, ret in Hc;
    destruct (collab (conn_cursor c) w) as [[[]|y] w0] eqn:Hc0;
    simplify_eq; destruct (collab_inv _ _ _ _ Hc0) as (o & e0 & _ & _ & ->).
  2:{ intros [= <- <-]. unfold tally. simpl. rewrite !count_ev_app. simpl. lia. }
  unfold bind at 1, env_getitem.
  destruct (env fagi !! "agi_network_script"%string) as [name|]; unfold ret, raise.
  2:{ intros [= <- <-]. unfold tally. simpl. rewrite !count_ev_app. simpl. lia. }
  unfold bind at 1, log at 1, emit at 1. unfold bind at 1, handlers_getitem,
    bind at 1, get_handlers. cbn [_handlers set_ext set_trace].
  destruct (_handlers w !! name) as [h|]; unfold ret, raise.
  2:{ intros [= <- <-]. unfold tally. simpl. rewrite !count_ev_app. simpl. lia. }
  unfold bind at 1.
  match goal with |- context [Handler_handle h fagi ?cc (args fagi) ?w2] =>
    destruct (Handler_handle h fagi cc (args fagi) w2) as [[[]|x] w3] eqn:Hh;
    pose proof (handle_exit_tally _ _ _ _ _ _ _ Hh) as Hx;
    assert (Hcm : tally is_commit w3 = tally is_commit w2)
      by (eapply emits_tally;
          [apply emits_Handler_handle|exact Hh|event_cases])
  end; revert Hx Hcm; unfold tally; simpl;
    rewrite !count_ev_app; simpl; intros Hx Hcm.
  - unfold bind, collab, log, emit.
    destruct (oracle (conn_commit _) (ext w3)) as [[y|] e4]; simpl.
    + intros [= <- <-]. simpl. rewrite !count_ev_app. simpl. lia.
    + destruct (oracle (fagi_verbose _) e4) as [[y|] e5]; simpl;
        intros [= <- <-]; simpl; rewrite !count_ev_app; simpl; lia.
  - intros [= <- <-]. lia.
Qed.

(** X11: in every run of the dispatcher, at most one connection is
    borrowed and each borrowed connection is given back once; [commit]
    is called at most once, and exactly when the session of the handle
    routine was left as a success, that is when [Handler.handle]
    returned. *)
Theorem dispatcher_accounting w r w' :
  FastAGIRequestHandler_handle w = (r, w') →
  tally is_borrow w' ≤ tally is_borrow w + 1 ∧
  tally is_release w' + tally is_borrow w
    = tally is_release w + tally is_borrow w' ∧
  tally is_commit w' ≤ tally is_commit w + 1 ∧
  tally is_commit w' + tally (is_returned (session_exit false)) w
    = tally is_commit w + tally (is_returned (session_exit false)) w'.
Proof.
  unfold FastAGIRequestHandler_handle.
  destruct ((log DEBUG "handling request" [] ;; FastAGI_new) w)
    as [r1 w1] eqn:H1.
  destruct (request_inv _ _ _ H1) as (o1 & e1 & Hw1).
  assert (Hpre : ∀ P, tally P w1 = tally P w + count_ev P
            [Log DEBUG "handling request" []; NewFastAGI o1]).
  { intros P. rewrite Hw1. apply tally_io. }
  assert (Hexc : ∀ fagi hook x w0 r0 w0',
            handle_except fagi hook x w0 = (r0, w0') →
            ∀ P, (∀ ev, signal_ev ev = true → P ev = false) →
                 tally P w0' = tally P w0).
  { intros fagi hook x w0 r0 w0' Hrun P HP.
    eapply emits_tally; [apply emits_handle_except|exact Hrun|exact HP]. }
  destruct r1 as [fagi|x].
  2:{ intros Hrun. rewrite !(Hexc _ _ _ _ _ _ Hrun) by event_cases.
      rewrite !Hpre. simpl. lia. }
  destruct (collab Hook_new w1) as [[[]|x] w2] eqn:H2;
    destruct (collab_inv _ _ _ _ H2) as (o2 & e2 & _ & _ & Hw2).
  2:{ intros Hrun. rewrite !(Hexc _ _ _ _ _ _ Hrun) by event_cases.
      rewrite Hw2, !tally_io, !Hpre. simpl. lia. }
  assert (Hpre2 : ∀ P, tally P w2 = tally P w + count_ev P
            [Log DEBUG "handling request" []; NewFastAGI o1; Call Hook_new o2]).
  { intros P. rewrite Hw2, tally_io, Hpre. simpl. lia. }
  unfold try_except.
  destruct (FastAGIRequestHandler_handle_body fagi w2) as [rb w3] eqn:Hb.
  assert (Hbody :
    tally is_borrow w3 ≤ tally is_borrow w2 + 1 ∧
    tally is_release w3 + tally is_borrow w2
      = tally is_release w2 + tally is_borrow w3 ∧
    tally is_commit w3 ≤ tally is_commit w2 + 1 ∧
    tally is_commit w3 + tally (is_returned (session_exit false)) w2
      = tally is_commit w2 + tally (is_returned (session_exit false)) w3).
  { revert Hb. unfold FastAGIRequestHandler_handle_body. unfold bind at 1.
    destruct (DBConnectionPool_acquire w2) as [[c|x] wa] eqn:Ha.
    2:{ intros [= <- <-]. destruct (acquire_raise _ _ _ Ha) as (_ & B & R).
        rewrite B, R.
        rewrite !(emits_tally _ _ _ _ _ _ emits_acquire Ha) by event_cases.
        lia. }
    destruct (acquire_ok _ _ _ Ha) as (B & R & _ & _).
    unfold try_finally.
    match goal with |- context [match ?inner wa with _ => _ end] =>
      destruct (inner wa) as [ri wi] eqn:Hi end.
    destruct (serve_accounting _ _ _ _ _ Hi) as [C1 C2].
    pose proof (emits_serve fagi c) as Hserve.
    destruct (DBConnectionPool_release c wi) as [rr w5] eqn:Hrel.
    destruct (release_result _ _ _ _ Hrel) as (_ & R5 & _ & B5).
    intros Hres. assert (w3 = w5) as -> by (by destruct rr as [[]|]; simplify_eq).
    rewrite R5, B5.
    rewrite !(emits_tally _ _ _ _ _ _ (emits_release c) Hrel) by event_cases.
    rewrite (emits_tally _ _ is_borrow _ _ _ Hserve Hi) by event_cases.
    rewrite (emits_tally _ _ is_release _ _ _ Hserve Hi) by event_cases.
    rewrite B, R.
    rewrite (emits_tally _ _ is_commit _ _ _ emits_acquire Ha) in C1, C2
      by event_cases.
    rewrite (emits_tally _ _ (is_returned (session_exit false)) _ _ _
               emits_acquire Ha) in C1 by event_cases.
    lia. }
  assert (∃ wf, match rb with
                | Ok a => (Ok a, w3)
                | Raise e => handle_except (Some fagi) (Some tt) e w3
                end = (Ok tt, wf) ∧
            ∀ P, (∀ ev, signal_ev ev = true → P ev = false) →
                 tally P wf = tally P w3) as (wf & -> & Hsig).
  { destruct rb as [[]|x].
    - exists w3. by split.
    - destruct (handle_except_ok (Some fagi) (Some tt) x w3) as [wf Hwf].
      exists wf. split; [done|]. by eapply Hexc. }
  intros [= <- <-]. rewrite !Hsig by event_cases.
  rewrite !Hpre2 in Hbody. simpl in Hbody. lia.
Qed.


Lemma body_handler_raises fagi name h w c w1 w2 x w3 :
  env fagi !! "agi_network_script"%string = Some name →
  _handlers w !! name = Some h →
  DBConnectionPool_acquire w = (Ok c, w1) →
  conn_cursor_new c w1 = (Ok c, w2) →
  Handler_handle h fagi c (args fagi)
    (log DEBUG "delegating request handling %r" [name] w2).2 = (Raise x, w3) →
  FastAGIRequestHandler_handle_body fagi w =
    match DBConnectionPool_release c w3 with
    | (Ok _, w4) => (Raise x, w4)
    | (Raise y, w4) => (Raise y, w4)
    end.
Proof.
  intros He Hh Ha Hc Hrun.
  unfold FastAGIRequestHandler_handle_body. unfold bind at 1. rewrite Ha.
  unfold try_finally. unfold bind at 1. rewrite Hc.
  unfold bind at 1, env_getitem. rewrite He. unfold ret at 1.
  unfold bind at 1. unfold log at 1, emit at 1.
  unfold bind at 1, handlers_getitem at 1, bind at 1, get_handlers at 1.
  assert (_handlers w2 = _handlers w) as Hh2.
  { destruct (emits_acquire _ _ _ Ha) as (Hh1 & _).
    unfold conn_cursor_new, bind, ret in Hc.
    destruct (collab (conn_cursor c) w1) as [[[]|y] w0] eqn:Hc0; simplify_eq.
    destruct (collab_inv _ _ _ _ Hc0) as (o & e0 & _ & _ & ->). exact Hh1. }
  cbn [_handlers set_trace]. rewrite Hh2, Hh. unfold ret at 1.
  unfold bind at 1. unfold log, emit in Hrun. simpl in Hrun. rewrite Hrun.
  done.
Qed.

(** the clause for a broken dial plan, with [fagi] bound: the record,
    the message, then the two commands, each one sent if the call
    before returned; the traceback hook is left alone *)
Lemma except_break_spec fagi m w :
  ∃ w', except_FastAGIDialPlanBreak (Some fagi) m w = (Ok tt, w') ∧
    tally (is_ev (Log INFO "invalid request, dial plan broken" [])) w'
      = tally (is_ev (Log INFO "invalid request, dial plan broken" [])) w + 1 ∧
    tally (is_ev (Log EXCEPTION "unexpected exception" [])) w'
      = tally (is_ev (Log EXCEPTION "unexpected exception" [])) w ∧
    tally (is_call hook_handle) w' = tally (is_call hook_handle) w ∧
    tally (is_call (fagi_verbose m)) w' = tally (is_call (fagi_verbose m)) w + 1 ∧
    tally (is_call (fagi_appexec "Goto" "agi_fail,s,1")) w'
      + tally (is_returned (fagi_verbose m)) w
      = tally (is_call (fagi_appexec "Goto" "agi_fail,s,1")) w
        + tally (is_returned (fagi_verbose m)) w' ∧
    tally (is_call fagi_fail) w'
      + tally (is_returned (fagi_appexec "Goto" "agi_fail,s,1")) w
      = tally (is_call fagi_fail) w
        + tally (is_returned (fagi_appexec "Goto" "agi_fail,s,1")) w'.
Proof.
  unfold except_FastAGIDialPlanBreak, try_except, bind, log, emit, collab,
    raise, ret, tally.
  simpl.
  destruct (oracle (fagi_verbose m) (ext w)) as [[x1|] e1]; simpl.
  { eexists. split; [done|]. simpl. rewrite !count_ev_app. simpl.
    unfold is_returned, is_call. repeat case_bool_decide; try congruence.
    repeat split; lia. }
  destruct (oracle (fagi_appexec _ _) e1) as [[x2|] e2]; simpl.
  { eexists. split; [done|]. simpl. rewrite !count_ev_app. simpl.
    unfold is_returned, is_call. repeat case_bool_decide; try congruence.
    repeat split; lia. }
  destruct (oracle fagi_fail e2) as [[x3|] e3]; simpl;
    (eexists; split; [done|]; simpl; rewrite !count_ev_app; simpl;
     unfold is_returned, is_call; repeat case_bool_decide; try congruence;
     repeat split; lia).
Qed.

(** X12: when the handle routine (or the end of its session) breaks the
    dial plan with a message and the connection is given back without
    an exception, the dispatcher records an invalid request, sends the
    message, then [Goto agi_fail] and the fail command, each if the
    call before returned; it does not record an unexpected exception
    and does not run the traceback hook. *)
Theorem broken_dial_plan_is_reported w fagi wf wk name h c w1 w2 m w3 w4 :
  (log DEBUG "handling request" [] ;; FastAGI_new) w = (Ok fagi, wf) →
  collab Hook_new wf = (Ok tt, wk) →
  env fagi !! "agi_network_script"%string = Some name →
  _handlers w !! name = Some h →
  DBConnectionPool_acquire wk = (Ok c, w1) →
  conn_cursor_new c w1 = (Ok c, w2) →
  Handler_handle h fagi c (args fagi)
    (log DEBUG "delegating request handling %r" [name] w2).2
    = (Raise (FastAGIDialPlanBreak m), w3) →
  DBConnectionPool_release c w3 = (Ok tt, w4) →
  ∃ w', FastAGIRequestHandler_handle w = (Ok tt, w') ∧
    tally (is_ev (Log INFO "invalid request, dial plan broken" [])) w'
      = tally (is_ev (Log INFO "invalid request, dial plan broken" [])) w4 + 1 ∧
    tally (is_ev (Log EXCEPTION "unexpected exception" [])) w'
      = tally (is_ev (Log EXCEPTION "unexpected exception" [])) w4 ∧
    tally (is_call hook_handle) w' = tally (is_call hook_handle) w4 ∧
    tally (is_call (fagi_verbose m)) w' = tally (is_call (fagi_verbose m)) w4 + 1 ∧
    tally (is_call (fagi_appexec "Goto" "agi_fail,s,1")) w'
      + tally (is_returned (fagi_verbose m)) w4
      = tally (is_call (fagi_appexec "Goto" "agi_fail,s,1")) w4
        + tally (is_returned (fagi_verbose m)) w' ∧
    tally (is_call fagi_fail) w'
      + tally (is_returned (fagi_appexec "Goto" "agi_fail,s,1")) w4
      = tally (is_call fagi_fail) w4
        + tally (is_returned (fagi_appexec "Goto" "agi_fail,s,1")) w'.
Proof.
  intros Hf Hk He Hh Ha Hc Hrun Hrel.
  destruct (prefix_inv _ _ _ _ Hf Hk) as [e2 Hwk].
  assert (Hhk : _handlers wk !! name = Some h) by by rewrite Hwk.
  unfold FastAGIRequestHandler_handle. rewrite Hf, Hk. unfold try_except.
  rewrite (body_handler_raises _ _ _ _ _ _ _ _ _ He Hhk Ha Hc Hrun), Hrel.
  simpl. apply except_break_spec.
Qed.

(** X13: when the handle routine raises, a broken dial plan included,
    and [close] then raises while the connection is given back, the
    exception of [close] takes the place of the first one: the
    dispatcher records an unexpected exception and runs the traceback
    hook, it does not record a broken dial plan, and the message of the
    handler is not sent. *)
Theorem close_failure_hides_the_first_exception
    w fagi wf wk name h c w1 w2 x w3 y w4 :
  (log DEBUG "handling request" [] ;; FastAGI_new) w = (Ok fagi, wf) →
  collab Hook_new wf = (Ok tt, wk) →
  env fagi !! "agi_network_script"%string = Some name →
  _handlers w !! name = Some h →
  DBConnectionPool_acquire wk = (Ok c, w1) →
  conn_cursor_new c w1 = (Ok c, w2) →
  Handler_handle h fagi c (args fagi)
    (log DEBUG "delegating request handling %r" [name] w2).2 = (Raise x, w3) →
  DBConnectionPool_release c w3 = (Raise y, w4) →
  ∃ w', FastAGIRequestHandler_handle w = (Ok tt, w') ∧
    tally (is_ev (Log EXCEPTION "unexpected exception" [])) w'
      = tally (is_ev (Log EXCEPTION "unexpected exception" [])) w4 + 1 ∧
    tally (is_ev (Log INFO "invalid request, dial plan broken" [])) w'
      = tally (is_ev (Log INFO "invalid request, dial plan broken" [])) w4 ∧
    tally (is_call hook_handle) w' = tally (is_call hook_handle) w4 + 1 ∧
    tally is_verbose w' = tally is_verbose w4.
Proof.
  intros Hf Hk He Hh Ha Hc Hrun Hrel.
  destruct (prefix_inv _ _ _ _ Hf Hk) as [e2 Hwk].
  assert (Hhk : _handlers wk !! name = Some h) by by rewrite Hwk.
  unfold FastAGIRequestHandler_handle. rewrite Hf, Hk. unfold try_except.
  rewrite (body_handler_raises _ _ _ _ _ _ _ _ _ He Hhk Ha Hc Hrun), Hrel.
  simpl.
  destruct (release_result _ _ _ _ Hrel) as ([?|(y' & [= <-] & Hy)] & _); [done|].
  rewrite handle_except_other by done.
  destruct (except_any_spec fagi tt w4) as (w' & Hw' & S1 & S2 & S3 & _).
  exists w'. split; [done|]. split; [done|]. split; [done|]. split; [done|].
  revert Hw'. unfold except_any, try_except, bind, log, emit, collab, raise,
    ret, tally. simpl.
  destruct (oracle hook_handle (ext w4)) as [[x1|] e1]; simpl.
  { intros [= <-]. simpl. rewrite !count_ev_app. simpl. lia. }
  destruct (oracle (fagi_appexec _ _) e1) as [[x2|] e3]; simpl.
  { intros [= <-]. simpl. rewrite !count_ev_app. simpl. lia. }
  destruct (oracle fagi_fail e3) as [[x3|] e4]; simpl;
    intros [= <-]; simpl; rewrite !count_ev_app; simpl; lia.
Qed.





(** ** What the server keeps *)

Lemma keeps_same {A X} (f : @World E Sch → X) (m : M A) :
  (∀ w, ∃ r, m w = (r, w)) → keeps f m.
Proof.
  intros Hm w r w' Hrun. destruct (Hm w) as [r0 H0]. rewrite Hrun in H0.
  by simplify_eq.
Qed.

Lemma keeps_ret {A X} (f : @World E Sch → X) (a : A) : keeps f (ret a : M A).
Proof. apply keeps_same. intros w. by eexists. Qed.

Lemma keeps_raise {A X} (f : @World E Sch → X) x : keeps f (raise x : M A).
Proof. apply keeps_same. intros w. by eexists. Qed.

Lemma keeps_bind {A B X} (f : @World E Sch → X) (m : M A) (k : A → M B) :
  keeps f m → (∀ a, keeps f (k a)) → keeps f (bind m k).
Proof.
  intros Hm Hk w r w'. unfold bind.
  destruct (m w) as [[a|x] w1] eqn:H1.
  - intros H2. rewrite (Hk a _ _ _ H2). by eapply Hm.
  - intros [= <- <-]. by eapply Hm.
Qed.

Lemma keeps_try_finally {A X} (f : @World E Sch → X) (m : M A) fin :
  keeps f m → keeps f fin → keeps f (try_finally m fin).
Proof.
  intros Hm Hf w r w'. unfold try_finally.
  destruct (m w) as [r1 w1] eqn:H1.
  destruct (fin w1) as [[[]|x] w2] eqn:H2; intros [= <- <-];
    rewrite (Hf _ _ _ H2); by eapply Hm.
Qed.

Lemma keeps_try_except {A X} (f : @World E Sch → X) (m : M A) h :
  keeps f m → (∀ x, keeps f (h x)) → keeps f (try_except m h).
Proof.
  intros Hm Hh w r w'. unfold try_except.
  destruct (m w) as [[a|x] w1] eqn:H1.
  - intros [= <- <-]. by eapply Hm.
  - intros H2. rewrite (Hh x _ _ _ H2). by eapply Hm.
Qed.

Lemma keeps_for_each {A X} (f : @World E Sch → X) (l : list A)
    (body : A → M unit) :
  (∀ x, keeps f (body x)) → keeps f (for_each l body).
Proof.
  intros Hb. induction l as [|x l IH]; simpl.
  - apply keeps_ret.
  - apply keeps_bind; [apply Hb | by intros _].
Qed.

Lemma keeps_comprehension {A X} (f : @World E Sch → X) n (m : M A) :
  keeps f m → keeps f (comprehension n m).
Proof.
  intros Hm. induction n as [|n IH]; simpl.
  - apply keeps_ret.
  - apply keeps_bind; [done|]. intros x. apply keeps_bind; [done|].
    intros l. apply keeps_ret.
Qed.

Lemma keeps_emit {X} (f : @World E Sch → X) ev :
  server_attr f → keeps f (emit ev).
Proof.
  intros Hf w r w' [= <- <-].
  by destruct (Hf w (trace w ++ [ev]) (ext w) (db_conn_pool w) 0 (sched w))
    as (-> & _).
Qed.

Lemma keeps_collab {X} (f : @World E Sch → X) k :
  server_attr f → keeps f (collab k).
Proof.
  intros Hf w r w' Hrun.
  destruct (collab_inv _ _ _ _ Hrun) as (o & e & _ & _ & ->).
  destruct (Hf (set_trace (trace w ++ [Call k o]) w) [] e (db_conn_pool w) 0
              (sched w)) as (_ & -> & _).
  by destruct (Hf w (trace w ++ [Call k o]) (ext w) (db_conn_pool w) 0 (sched w))
    as (-> & _).
Qed.

Lemma keeps_put_pool {X} (f : @World E Sch → X) p :
  server_attr f → keeps f (put_pool p).
Proof.
  intros Hf w r w' [= <- <-].
  by destruct (Hf w [] (ext w) p 0 (sched w)) as (_ & _ & -> & _).
Qed.

Lemma keeps_connect {X} (f : @World E Sch → X) uri :
  server_attr f → keeps f (anysql_connect_by_uri uri).
Proof.
  intros Hf. unfold anysql_connect_by_uri.
  apply keeps_bind; [by apply keeps_collab|]. intros _ w r w' [= <- <-].
  by destruct (Hf w [] (ext w) (db_conn_pool w) (S (next_conn w)) (sched w))
    as (_ & _ & _ & -> & _).
Qed.

Lemma keeps_acquire_write {X} (f : @World E Sch → X) l :
  server_attr f → keeps f (RWLock_acquire_write l).
Proof.
  intros Hf w r w'. unfold RWLock_acquire_write.
  destruct (grant_write l (sched w)) as [b s']. intros [= <- <-].
  destruct (Hf (set_trace (trace w ++ [AcquireWrite l b]) w) [] (ext w)
              (db_conn_pool w) 0 s') as (_ & _ & _ & _ & ->).
  by destruct (Hf w (trace w ++ [AcquireWrite l b]) (ext w) (db_conn_pool w) 0
                 (sched w)) as (-> & _).
Qed.

Ltac keeps_step Hf :=
  first
    [ apply keeps_ret | apply keeps_raise
    | apply keeps_emit; exact Hf
    | apply keeps_collab; exact Hf
    | apply keeps_put_pool; exact Hf
    | apply keeps_connect; exact Hf
    | apply keeps_acquire_write; exact Hf
    | apply keeps_bind; [|intros ?]
    | apply keeps_try_finally
    | apply keeps_try_except; [|intros ?]
    | apply keeps_for_each; intros ?
    | apply keeps_comprehension
    | apply keeps_same; intros ?; by eexists
    | match goal with |- keeps _ (match ?x with _ => _ end) => destruct x end
    | match goal with |- keeps _ (if ?b then _ else _) => destruct b end ].

Ltac keeps_tac Hf := repeat keeps_step Hf.

Lemma keeps_reload {X} (f : @World E Sch → X) n u :
  server_attr f → keeps f (DBConnectionPool_reload n u).
Proof.
  intros Hf. unfold DBConnectionPool_reload, log, get_pool. keeps_tac Hf.
Qed.

Lemma keeps_acquire {X} (f : @World E Sch → X) :
  server_attr f → keeps f DBConnectionPool_acquire.
Proof.
  intros Hf. unfold DBConnectionPool_acquire, conns_pop, log, get_pool.
  keeps_tac Hf.
Qed.

Lemma keeps_release {X} (f : @World E Sch → X) c :
  server_attr f → keeps f (DBConnectionPool_release c).
Proof.
  intros Hf. unfold DBConnectionPool_release, log, get_pool. keeps_tac Hf.
Qed.

Lemma keeps_Handler_reload {X} (f : @World E Sch → X) h cur :
  server_attr f → keeps f (Handler_reload h cur).
Proof.
  intros Hf. unfold Handler_reload, RWLock_release, log. keeps_tac Hf.
Qed.

Lemma keeps_config_getitem {X} (f : @World E Sch → X) key :
  keeps f (config_getitem key).
Proof.
  apply keeps_same. intros w. unfold config_getitem.
  destruct (config w !! key); by eexists.
Qed.

Lemma setup_keeps {X} (f : @World E Sch → X) w r w' :
  server_attr f → initialized w = true →
  AGID_setup w = (r, w') → f w' = f w.
Proof.
  intros Hf Hinit. unfold AGID_setup. unfold bind at 1. rewrite Hinit. simpl.
  intros Hrun.
  match type of Hrun with ?m w = _ =>
    assert (keeps f m) as Hk; [|exact (Hk _ _ _ Hrun)] end.
  unfold int. apply keeps_bind; [apply keeps_config_getitem|]. intros ?.
  apply keeps_bind; [keeps_tac Hf|]. intros ?.
  apply keeps_bind; [apply keeps_config_getitem|]. intros ?.
  by apply keeps_reload.
Qed.

Lemma sighup_keeps {X} (f : @World E Sch → X) w r w' :
  server_attr f → initialized w = true →
  sighup_handle w = (r, w') → f w' = f w.
Proof.
  intros Hf Hinit. unfold sighup_handle.
  unfold bind at 1, log at 1, emit at 1. unfold bind at 1.
  destruct (Hf w (trace w ++ [Log DEBUG "reloading core engine" []]) (ext w)
              (db_conn_pool w) 0 (sched w)) as (Hlog & _).
  match goal with |- context [AGID_setup ?w0] =>
    destruct (AGID_setup w0) as [[[]|x] w1] eqn:H1;
    pose proof (setup_keeps f w0 _ _ Hf Hinit H1) as H1'
  end; rewrite Hlog in H1'.
  2: by intros [= <- <-].
  intros Hrun. rewrite <- H1'.
  match type of Hrun with ?m w1 = _ =>
    assert (keeps f m) as Hk; [|exact (Hk _ _ _ Hrun)] end.
  apply keeps_bind; [by apply keeps_acquire|]. intros c.
  apply keeps_try_finally; [|by apply keeps_release].
  unfold conn_cursor_new, log, get_handlers.
  apply keeps_bind; [keeps_tac Hf|]. intros cur.
  apply keeps_bind; [keeps_tac Hf|]. intros _.
  apply keeps_bind; [keeps_tac Hf|]. intros hs.
  apply keeps_bind; [|intros _; keeps_tac Hf].
  apply keeps_for_each. intros h. by apply keeps_Handler_reload.
Qed.

(** X15: once the server is initialized, a reload signal changes
    neither the listen address nor the listen port, whatever the
    configuration now says, and it leaves the configuration, the
    registry and the [initialized] flag as they are: only the pool, the
    connections and what the handlers cache are reloaded. *)
Theorem reload_signal_keeps_the_listen_address w r w' :
  initialized w = true →
  sighup_handle w = (r, w') →
  listen_addr w' = listen_addr w ∧ listen_port w' = listen_port w ∧
  initialized w' = true ∧ config w' = config w ∧
  _handlers w' = _handlers w.
Proof.
  intros Hinit Hrun.
  assert (∀ X (f : @World E Sch → X), server_attr f → f w' = f w) as Hk.
  { intros X f Hf. by eapply sighup_keeps. }
  split_and!; [apply (Hk _ listen_addr)|apply (Hk _ listen_port)|
               rewrite <- Hinit; apply (Hk _ initialized)|
               apply (Hk _ config)|apply (Hk _ _handlers)];
    by intros ??????.
Qed.

(** X16: on an initialized server, a reload signal that finds the pool
    size missing from the configuration or not an integer, or the
    database uri missing, raises after its first record and before
    anything else: the pool is not reloaded, no connection is borrowed
    and no handler is reloaded. *)
Theorem reload_signal_with_broken_configuration w :
  initialized w = true →
  config w !! "connection_pool_size"%string = None ∨
  (∃ s, config w !! "connection_pool_size"%string = Some s ∧ py_int s = None) ∨
  config w !! "db_uri"%string = None →
  ∃ x, sighup_handle w =
         (Raise x, set_trace (trace w ++ [Log DEBUG "reloading core engine" []]) w) ∧
       (x = KeyError "connection_pool_size" ∨
        (∃ s, x = ValueError "invalid literal for int() with base 10: %r" s) ∨
        x = KeyError "db_uri").
Proof.
  intros Hinit Hbad.
  unfold sighup_handle, bind, log, emit, AGID_setup, bind, config_getitem, int,
    ret, raise.
  cbn [initialized set_trace config]. rewrite Hinit. simpl.
  destruct (config w !! "connection_pool_size"%string) as [s|] eqn:Hs; simpl.
  2:{ eexists. split; [done|]. by left. }
  destruct (py_int s) as [n|] eqn:Hn; simpl.
  2:{ eexists. split; [done|]. right. left. by eexists. }
  destruct (config w !! "db_uri"%string) as [u|] eqn:Hu; simpl.
  2:{ eexists. split; [done|]. by right; right. }
  destruct Hbad as [?|[(s' & ? & ?)|?]]; simplify_eq.
Qed.


(** ** Start-up *)









Lemma setup_returns w w' :
  AGID_setup w = (Ok tt, w') →
  ∃ s n u,
    config w !! "connection_pool_size"%string = Some s ∧ py_int s = Some n ∧
    config w !! "db_uri"%string = Some u ∧
    db_conn_pool w' =
      {| conns := seq (next_conn w) (Z.to_nat n); size := n; db_uri := Some u |} ∧
    initialized w' = initialized w ∧
    if initialized w
    then listen_addr w' = listen_addr w ∧ listen_port w' = listen_port w
    else ∃ a sp port,
      config w !! "listen_address"%string = Some a ∧
      config w !! "listen_port"%string = Some sp ∧ py_int sp = Some port ∧
      listen_addr w' = Some a ∧ listen_port w' = Some port.
Proof.
  assert (Hattr : ∀ n u w0 r0 w1,
    DBConnectionPool_reload n u w0 = (r0, w1) →
    initialized w1 = initialized w0 ∧ listen_addr w1 = listen_addr w0 ∧
    listen_port w1 = listen_port w0).
  { intros n u w0 r0 w1 Hr.
    split_and!;
      [apply (keeps_reload initialized n u) in Hr
      |apply (keeps_reload listen_addr n u) in Hr
      |apply (keeps_reload listen_port n u) in Hr];
      try done; by intros ??????. }
  unfold AGID_setup. unfold bind at 1.
  destruct (initialized w) eqn:Hinit; simpl.
  - unfold bind, config_getitem, int, ret, raise.
    destruct (config w !! "connection_pool_size"%string) as [s|] eqn:Hcs; [|done].
    destruct (py_int s) as [n|] eqn:Hn; simpl; [|done].
    destruct (config w !! "db_uri"%string) as [u|] eqn:Hu; [|done].
    intros Hr. destruct (Hattr _ _ _ _ _ Hr) as (Hi & Ha & Hp).
    destruct (reload_pool _ _ _ _ _ Hr) as [(_ & Hpool & _)|(x & ? & _)]; [|done].
    exists s, n, u. rewrite Hi, Ha, Hp. done.
  - unfold bind, config_getitem, int, log, emit, ret, raise.
    destruct (config w !! "listen_address"%string) as [a|] eqn:Hla; [|done].
    simpl.
    destruct (config w !! "listen_port"%string) as [sp|] eqn:Hlp; [|done].
    destruct (py_int sp) as [p|] eqn:Hsp; simpl; [|done].
    destruct (config w !! "connection_pool_size"%string) as [s|] eqn:Hcs; [|done].
    destruct (py_int s) as [n|] eqn:Hn; simpl; [|done].
    destruct (config w !! "db_uri"%string) as [u|] eqn:Hu; [|done].
    intros Hr. destruct (Hattr _ _ _ _ _ Hr) as (Hi & Ha & Hp).
    destruct (reload_pool _ _ _ _ _ Hr) as [(_ & Hpool & _)|(x & ? & _)]; [|done].
    exists s, n, u. rewrite Hi, Ha, Hp. simpl.
    split_and!; try done. by exists a, sp, p.
Qed.

(** X19: an [AGID.setup] that returns has read the pool size and the
    database uri from the configuration and reloaded the pool with
    them; the listen address and port are read from the configuration
    on the first call only, before [initialized] is set, and are left
    alone afterwards. *)
Theorem setup_loads_the_pool_from_the_configuration w w' :
  AGID_setup w = (Ok tt, w') →
  ∃ s n u,
    config w !! "connection_pool_size"%string = Some s ∧ py_int s = Some n ∧
    config w !! "db_uri"%string = Some u ∧
    db_conn_pool w' =
      {| conns := seq (next_conn w) (Z.to_nat n); size := n; db_uri := Some u |} ∧
    initialized w' = initialized w ∧
    if initialized w
    then listen_addr w' = listen_addr w ∧ listen_port w' = listen_port w
    else ∃ a sp port,
      config w !! "listen_address"%string = Some a ∧
      config w !! "listen_port"%string = Some sp ∧ py_int sp = Some port ∧
      listen_addr w' = Some a ∧ listen_port w' = Some port.
Proof. apply setup_returns. Qed.



End More.

(** * More sample runs *)

Local Open Scope string_scope.

Local Abbreviation process := (@World script (list lock_id)).

(** X1 at work: a started server reloads its pool with three connections. *)
Lemma reload_closes_old_opens_new_witness :
  let w : process := started_world sample_registry quiet [] in
  ∃ w', DBConnectionPool_reload 3 sample_uri w = (Ok tt, w') ∧
    db_conn_pool w' =
      {| conns := seq (next_conn w) (Z.to_nat 3); size := 3;
         db_uri := Some sample_uri |} ∧
    NoDup (conns (db_conn_pool w')).
Proof.
  intros w. pose (w' := (DBConnectionPool_reload 3 sample_uri w).2).
  assert (Hr : DBConnectionPool_reload 3 sample_uri w = (Ok tt, w'))
    by (vm_compute; reflexivity).
  destruct (reload_closes_old_opens_new 3 sample_uri w w' Hr)
    as (_ & Hp & _ & Hnd & _).
  by exists w'.
Defined.


(** X3 at work: an empty reserve and a driver that cannot connect. *)
Lemma acquire_fails_only_by_connect_witness :
  let w : process :=
    fresh_world ∅ {| failing := [connect_by_uri None]; breaking := [];
                     request := None |} [] in
  ∃ w', DBConnectionPool_acquire w = (Raise (Error "failure"), w') ∧
    db_conn_pool w' = db_conn_pool w.
Proof.
  intros w. pose (w' := (DBConnectionPool_acquire w).2).
  assert (Hr : DBConnectionPool_acquire w = (Raise (Error "failure"), w'))
    by (vm_compute; reflexivity).
  destruct (acquire_fails_only_by_connect w _ w' Hr) as (_ & _ & Hp & _).
  by exists w'.
Defined.

(** X4 at work: one of the two connections is out; connection 9 is released. *)
Lemma release_then_acquire_returns_it_witness :
  let w : process :=
    (DBConnectionPool_acquire (started_world sample_registry quiet [])).2 in
  ∃ w1 w2,
    DBConnectionPool_release 9 w = (Ok tt, w1) ∧
    DBConnectionPool_acquire w1 = (Ok 9, w2) ∧
    db_conn_pool w2 = db_conn_pool w.
Proof.
  intros w.
  destruct (release_then_acquire_returns_it 9 w)
    as (w1 & w2 & H1 & H2 & Hp & _); [vm_compute; reflexivity|].
  by exists w1, w2.
Defined.

(** X5 at work: the reserve of a started server. *)
Lemma acquire_then_release_restores_witness :
  let w : process := started_world sample_registry quiet [] in
  ∃ c w1 w2,
    DBConnectionPool_acquire w = (Ok c, w1) ∧
    DBConnectionPool_release c w1 = (Ok tt, w2) ∧
    db_conn_pool w2 = db_conn_pool w.
Proof.
  intros w.
  destruct (acquire_then_release_restores w)
    as (c & w1 & w2 & H1 & H2 & Hp & _).
  - vm_compute. discriminate.
  - vm_compute. discriminate.
  - by exists c, w1, w2.
Defined.

(** X6 at work: the lock of [callerid_forphones] grants the writer. *)
Lemma reload_runs_setup_under_the_write_lock_witness :
  let w : process := started_world sample_registry quiet [] in
  let h := {| handler_name := "callerid_forphones";
              setup_fn := Some callerid_setup;
              handle_fn := callerid_forphones; lock := 1 |} in
  ∃ w', Handler_reload h 1 w = (Ok tt, w') ∧
    trace w' = (trace w ++
      [AcquireWrite 1 true;
       Call (run_setup_fn "callerid_forphones" callerid_setup 1) None;
       Log DEBUG "handler %r reloaded" ["callerid_forphones"];
       ReleaseLock 1])%list.
Proof.
  intros w h.
  destruct (reload_runs_setup_under_the_write_lock h callerid_setup 1 w [])
    as (o & e & r & w' & Ho & Hrun & Hr & _ & Ht);
    [reflexivity|vm_compute; reflexivity|].
  assert (o = None) as -> by (vm_compute in Ho; congruence).
  subst r. exists w'. split; [exact Hrun|]. exact Ht.
Defined.

(** X7 at work: the handle routine of [did_set_call_rights] returns. *)
Lemma handle_runs_the_routine_inside_the_session_witness :
  let w : process := started_world sample_registry quiet [] in
  let h := {| handler_name := "did_set_call_rights"; setup_fn := None;
              handle_fn := did_set_call_rights; lock := 0 |} in
  ∃ w', Handler_handle h sample_request 1 ["42"] w = (Ok tt, w') ∧
    tally (is_returned (session_exit false)) w'
      = tally (is_returned (session_exit false)) w + 1.
Proof.
  intros w h. pose (w' := (Handler_handle h sample_request 1 ["42"] w).2).
  assert (Hr : Handler_handle h sample_request 1 ["42"] w = (Ok tt, w'))
    by (vm_compute; reflexivity).
  destruct (handle_runs_the_routine_inside_the_session _ _ _ _ _ _ _ Hr)
    as (_ & _ & _ & _ & Hiff).
  exists w'. split; [exact Hr|]. by apply Hiff.
Defined.

(** X8 at work: the second function called [did_set_call_rights] does
    not replace the first. *)
Lemma first_registration_wins_witness :
  let w : process := fresh_world ∅ quiet [] in
  ∃ h, _handlers (load_modules sample_modules w) !! "did_set_call_rights"
         = Some h ∧
    handle_fn h = did_set_call_rights ∧ setup_fn h = None.
Proof.
  intros w.
  destruct (first_registration_wins sample_modules w eq_refl) as (H & _).
  destruct (H "did_set_call_rights") as (h & Hh & _ & Hf & Hs).
  by exists h.
Defined.

(** X10 at work: the connection is reset before the header is read. *)
Lemma undecoded_request_gets_no_answer_witness :
  let w : process := started_world sample_registry quiet [] in
  ∃ w', FastAGIRequestHandler_handle w = (Ok tt, w') ∧
    trace w' = (trace w ++
      [Log DEBUG "handling request" [];
       NewFastAGI (Some (Error "connection reset"));
       Log EXCEPTION "unexpected exception" []])%list.
Proof.
  intros w.
  destruct (undecoded_request_gets_no_answer w) as (H & _).
  eexists. split.
  - apply (H (Error "connection reset") quiet). vm_compute. reflexivity.
  - reflexivity.
Defined.

(** X11 at work: a request for [did_set_call_rights]. *)
Lemma dispatcher_accounting_witness :
  let w : process := started_world sample_registry (serving sample_request) [] in
  ∃ w', FastAGIRequestHandler_handle w = (Ok tt, w') ∧
    tally is_release w' + tally is_borrow w
      = tally is_release w + tally is_borrow w' ∧
    (tally is_commit w' ≤ tally is_commit w + 1)%nat.
Proof.
  intros w. pose (w' := (FastAGIRequestHandler_handle w).2).
  assert (Hr : FastAGIRequestHandler_handle w = (Ok tt, w'))
    by (vm_compute; reflexivity).
  clearbody w'.
  destruct (dispatcher_accounting w _ w' Hr) as (_ & Hb & Hc & _).
  exists w'. split; [exact Hr|]. split; [exact Hb|exact Hc].
Defined.

(** X12 at work: the handle routine rejects the call. *)
Lemma broken_dial_plan_is_reported_witness :
  let s := {| failing := [];
              breaking := [run_handle_fn "did_set_call_rights"
                             did_set_call_rights 1 ["42"]];
              request := Some sample_request |} in
  let w : process := started_world sample_registry s [] in
  ∃ w', FastAGIRequestHandler_handle w = (Ok tt, w') ∧
    Call (fagi_verbose "rejected") None ∈ trace w' ∧
    Call hook_handle None ∉ trace w'.
Proof.
  intros s w.
  pose (wf := (bind (log DEBUG "handling request" []) (λ _, FastAGI_new) w).2).
  pose (wk := (collab Hook_new wf).2).
  pose (w1 := (DBConnectionPool_acquire wk).2).
  pose (w2 := (conn_cursor_new 1 w1).2).
  pose (h := {| handler_name := "did_set_call_rights"; setup_fn := None;
                handle_fn := did_set_call_rights; lock := 0 |}).
  pose (w3 := (Handler_handle h sample_request 1 ["42"]
                 (log DEBUG "delegating request handling %r"
                    ["did_set_call_rights"] w2).2).2).
  pose (w4 := (DBConnectionPool_release 1 w3).2).
  destruct (broken_dial_plan_is_reported w sample_request wf wk
              "did_set_call_rights" h 1 w1 w2 "rejected" w3 w4)
    as (w' & Hrun & _); [vm_compute; reflexivity ..|].
  exists w'. split; [exact Hrun|].
  assert (Hw' : w' = (FastAGIRequestHandler_handle w).2) by (by rewrite Hrun).
  rewrite Hw'. split.
  - apply (bool_decide_unpack _). vm_compute. exact I.
  - apply (bool_decide_unpack _). vm_compute. exact I.
Defined.

(** X13 at work: the routine rejects the call and [close] fails. *)
Lemma close_failure_hides_the_first_exception_witness :
  let s := {| failing := [conn_close 0];
              breaking := [run_handle_fn "did_set_call_rights"
                             did_set_call_rights 0 ["42"]];
              request := Some sample_request |} in
  let w : process := fresh_world sample_registry s [] in
  ∃ w', FastAGIRequestHandler_handle w = (Ok tt, w') ∧
    Log EXCEPTION "unexpected exception" [] ∈ trace w' ∧
    tally is_verbose w' = 0.
Proof.
  intros s w.
  pose (wf := (bind (log DEBUG "handling request" []) (λ _, FastAGI_new) w).2).
  pose (wk := (collab Hook_new wf).2).
  pose (w1 := (DBConnectionPool_acquire wk).2).
  pose (w2 := (conn_cursor_new 0 w1).2).
  pose (h := {| handler_name := "did_set_call_rights"; setup_fn := None;
                handle_fn := did_set_call_rights; lock := 0 |}).
  pose (w3 := (Handler_handle h sample_request 0 ["42"]
                 (log DEBUG "delegating request handling %r"
                    ["did_set_call_rights"] w2).2).2).
  pose (w4 := (DBConnectionPool_release 0 w3).2).
  destruct (close_failure_hides_the_first_exception w sample_request wf wk
              "did_set_call_rights" h 0 w1 w2
              (FastAGIDialPlanBreak "rejected") w3 (Error "failure") w4)
    as (w' & Hrun & _ & _ & _ & Hv); [vm_compute; reflexivity ..|].
  exists w'. split; [exact Hrun|]. split.
  - assert (Hw' : w' = (FastAGIRequestHandler_handle w).2) by (by rewrite Hrun).
    rewrite Hw'. apply (bool_decide_unpack _). vm_compute. exact I.
  - rewrite Hv. vm_compute. reflexivity.
Defined.


(** X15 at work: a reload signal on a started server. *)
Lemma reload_signal_keeps_the_listen_address_witness :
  let w : process := started_world sample_registry quiet [] in
  ∃ w', sighup_handle w = (Ok tt, w') ∧
    listen_addr w' = Some "127.0.0.1" ∧ listen_port w' = Some 4573%Z.
Proof.
  intros w. pose (w' := (sighup_handle w).2).
  assert (Hr : sighup_handle w = (Ok tt, w')) by (vm_compute; reflexivity).
  destruct (reload_signal_keeps_the_listen_address w _ w' eq_refl Hr)
    as (Ha & Hp & _).
  exists w'. split; [exact Hr|]. rewrite Ha, Hp. split; reflexivity.
Defined.

(** X16 at work: the configuration lost its database uri. *)
Lemma reload_signal_with_broken_configuration_witness :
  ∃ x, sighup_handle misconfigured_world =
         (Raise x,
          set_trace (trace misconfigured_world
                       ++ [Log DEBUG "reloading core engine" []])%list
            misconfigured_world).
Proof.
  destruct (reload_signal_with_broken_configuration misconfigured_world)
    as (x & Hrun & _).
  - reflexivity.
  - right. right. vm_compute. reflexivity.
  - by exists x.
Defined.



(** X19 at work: the first [setup] of a server. *)
Lemma setup_loads_the_pool_from_the_configuration_witness :
  let w : process := fresh_world ∅ quiet [] in
  ∃ w', AGID_setup w = (Ok tt, w') ∧
    listen_addr w' = Some "127.0.0.1" ∧ listen_port w' = Some 4573%Z ∧
    db_conn_pool w' = {| conns := [0; 1]; size := 2; db_uri := Some sample_uri |}.
Proof.
  intros w. pose (w' := (AGID_setup w).2).
  assert (Hr : AGID_setup w = (Ok tt, w')) by (vm_compute; reflexivity).
  destruct (setup_loads_the_pool_from_the_configuration w w' Hr)
    as (s0 & n & u & Hs & Hn & Hu & Hp & _ & Hl).
  exists w'. split; [exact Hr|]. vm_compute. by split_and!.
Defined.


(** * The handler module [did_set_call_rights]: properties *)

Local Close Scope string_scope.

Section RightsProofs.
Import Rights.
Context {E Rule : Type} `{!CallRights E Rule}.

Local Abbreviation R := (@R E Rule).
Local Abbreviation Run := (@Run E Rule).
Local Notation "x ← m ; k" := (bind m (λ x, k))
  (at level 20, m at level 100, k at level 200, only parsing).
Local Notation "m ;; k" := (bind m (λ _, k))
  (at level 100, k at level 200, right associativity).

Implicit Types (w : Run) (l : list (step Rule)) (agi : FastAGI) (cur : cursor).

Lemma did_inv {A} (a : act Rule) (f : E → outcome A * E) w o w' :
  did a f w = (o, w') →
  f (backend w) = (o, backend w') ∧ steps w' = steps w ++ [Did a (thrown o)].
Proof.
  unfold did. destruct (f (backend w)) as [o' e] eqn:Hf.
  intros [= <- <-]. simpl. split; [done|]. by destruct o'.
Qed.

Lemma count_steps_app (P : step Rule → bool) l1 l2 :
  count_steps P (l1 ++ l2) = count_steps P l1 + count_steps P l2.
Proof. induction l1 as [|s l1 IH]; simpl; [done|]. rewrite IH. lia. Qed.

Lemma count_steps_none (P Q : step Rule → bool) l :
  Forall (λ s, Q s = true) l → (∀ s, Q s = true → P s = false) →
  count_steps P l = 0.
Proof.
  intros Hl HPQ. induction Hl as [|s l Hs _ IH]; simpl; [done|].
  by rewrite (HPQ s Hs), IH.
Qed.

(** ** The generator *)

Lemma matching_ids_ok srcnum res w :
  Forall (λ r, ∃ b, call_rights_extension_matches srcnum (exten r) = Return b) res →
  matching_ids srcnum res w =
    (Return (rightcallid <$> filter (λ r, matched srcnum r) res),
     {| steps := steps w ++ (asked srcnum <$> res); backend := backend w |}).
Proof.
  intros Hres. revert w. induction Hres as [|r res [b Hb] _ IH]; intros w.
  - simpl. unfold ret. destruct w. simpl. by rewrite app_nil_r.
  - cbn [matching_ids]. unfold bind at 1. unfold did at 1. rewrite Hb.
    unfold bind at 1. rewrite IH. cbn [steps backend]. unfold ret.
    assert (Hm : matched srcnum r = b)
      by (unfold matched; rewrite Hb; by destruct b).
    rewrite filter_cons, <- app_assoc.
    destruct (decide (matched srcnum r)) as [Hd|Hd]; rewrite Hm in Hd;
      destruct b; simpl in Hd; try done; exfalso; by apply Hd.
Qed.

Lemma runs_ret {A} (a : A) P : runs (ret a : R A) P.
Proof.
  intros w r w' [= <- <-]. exists []. rewrite app_nil_r.
  split; [done|]. split; [constructor|constructor].
Qed.

Lemma runs_did {A} (a : act Rule) (f : E → outcome A * E) (P : step Rule → bool) :
  (∀ o, P (Did a o) = true) → runs (did a f) P.
Proof.
  intros HP w r w' Hrun. apply did_inv in Hrun as [_ Hs].
  exists [Did a (thrown r)]. split; [done|]. split.
  - destruct r as [a'|x]; simpl.
    + by repeat constructor.
    + exists [], (Did a (Some x)). by repeat split.
  - by repeat constructor.
Qed.

Lemma runs_bind {A B} (m : R A) (k : A → R B) P :
  runs m P → (∀ a, runs (k a) P) → runs (bind m k) P.
Proof.
  intros Hm Hk w r w' Hrun. unfold bind in Hrun.
  destruct (m w) as [[a|x] w1] eqn:Hmw.
  - destruct (Hm _ _ _ Hmw) as (l1 & Hs1 & Hp1 & HP1).
    destruct (Hk a _ _ _ Hrun) as (l2 & Hs2 & Hp2 & HP2).
    exists (l1 ++ l2). rewrite Hs2, Hs1, <- app_assoc. split; [done|].
    split; [|by apply Forall_app].
    simpl in Hp1. destruct r as [b|y]; simpl in *.
    + by apply Forall_app.
    + destruct Hp2 as (before & last & -> & Hb & Hl).
      exists (l1 ++ before), last. rewrite <- app_assoc.
      split; [done|]. split; [by apply Forall_app|done].
  - injection Hrun as <- <-.
    destruct (Hm _ _ _ Hmw) as (l & Hs & Hp & HP). by exists l.
Qed.

Lemma runs_matching_ids srcnum res :
  runs (matching_ids srcnum res) is_extension_matches.
Proof.
  induction res as [|r res IH]; simpl.
  - apply runs_ret.
  - apply runs_bind; [by apply runs_did|]. intros b.
    apply runs_bind; [exact IH|]. intros ids. apply runs_ret.
Qed.

Lemma runs_weaken {A} (m : R A) (P Q : step Rule → bool) :
  (∀ s, P s = true → Q s = true) → runs m P → runs m Q.
Proof.
  intros HPQ Hm w r w' Hrun.
  destruct (Hm _ _ _ Hrun) as (l & Hs & Hp & HP).
  exists l. split; [done|]. split; [done|].
  eapply Forall_impl; [exact HP|]. auto.
Qed.

Lemma runs_inner agi cur args :
  runs (_did_set_call_rights agi cur args) (λ _, true).
Proof.
  unfold _did_set_call_rights.
  repeat first
    [ apply runs_did; done
    | apply runs_ret
    | apply (runs_weaken _ is_extension_matches); [done|apply runs_matching_ids]
    | apply runs_bind; [|intros ?]
    | match goal with |- runs (match ?x with _ => _ end) _ => destruct x end ].
Qed.

(** X21: the handler stops at the first call that raises.  When that
    call raised [RuleAppliedException] the handler returns, as it does
    when every call returned; any other exception is the exception of
    the handler, which therefore never raises
    [RuleAppliedException]. *)
Theorem rule_applied_ends_the_handler agi cur args w r w' :
  did_set_call_rights agi cur args w = (r, w') →
  ∃ l, steps w' = steps w ++ l ∧
    match r with
    | Return _ =>
        Forall returned l ∨
        ∃ before last, l = before ++ [last] ∧ Forall returned before ∧
          raised_by last = Some RuleAppliedException
    | Throw x =>
        x ≠ RuleAppliedException ∧
        ∃ before last, l = before ++ [last] ∧ Forall returned before ∧
          raised_by last = Some x
    end.
Proof.
  unfold did_set_call_rights, try_except. intros Hrun.
  destruct (_did_set_call_rights agi cur args w) as [[[]|x] w1] eqn:Hin.
  - injection Hrun as <- <-.
    destruct (runs_inner _ _ _ _ _ _ Hin) as (l & Hs & Hp & _).
    exists l. split; [done|]. by left.
  - destruct (runs_inner _ _ _ _ _ _ Hin) as (l & Hs & Hp & _).
    destruct x as [|what].
    + injection Hrun as <- <-. exists l. split; [done|]. by right.
    + injection Hrun as <- <-. exists l. split; [done|]. by split.
Qed.

(** X22: when [allow] ends the handler (it raises
    [RuleAppliedException]) and no row of [rightcallexten] matches the
    number of the caller, an empty table included, the call is allowed
    after the first query: the handler returns, the second query is
    not issued and [apply_rules] is not called.  With an empty table
    [extension_matches] is not called either. *)
Theorem no_matching_right_allows_the_call
    agi cur args w srcnum incall_id res e1 e2 e3 e4 e5 :
  agi_get_variable agi "XIVO_SRCNUM"%string (backend w) = (Return srcnum, e1) →
  agi_get_variable agi "XIVO_INCALL_ID"%string e1 = (Return incall_id, e2) →
  cursor_query cur "SELECT ${columns} FROM rightcallexten"%string
    ["rightcallid"; "exten"]%string None e2 = (Return tt, e3) →
  fetch_rightcallexten cur e3 = (Return res, e4) →
  Forall (λ r, call_rights_extension_matches srcnum (exten r) = Return false) res →
  call_rights_allow agi e4 = (Throw RuleAppliedException, e5) →
  did_set_call_rights agi cur args w =
    (Return tt,
     {| steps := steps w ++ opening cur ++ (asked srcnum <$> res)
                   ++ [Did allow (Some RuleAppliedException)];
        backend := e5 |}).
Proof.
  intros H1 H2 H3 H4 Hres Hallow.
  unfold did_set_call_rights, try_except, _did_set_call_rights, opening.
  unfold bind at 1. unfold did at 1. rewrite H1.
  unfold bind at 1. unfold did at 1. simpl. rewrite H2.
  unfold bind at 1. unfold did at 1. simpl. rewrite H3.
  unfold bind at 1. unfold did at 1. simpl. rewrite H4.
  destruct res as [|r0 res'].
  - unfold bind at 1. unfold did at 1. simpl. rewrite Hallow. simpl.
    unfold ret. f_equal. f_equal. by rewrite <- !app_assoc.
  - unfold bind at 1. unfold ret at 1.
    unfold bind at 1. rewrite matching_ids_ok; last first.
    { eapply Forall_impl; [exact Hres|]. intros r Hr. by exists false. }
    assert (Hnone : filter (λ r, matched srcnum r) (r0 :: res') = []).
    { clear -Hres. induction Hres as [|r res Hr _ IH]; [done|].
      rewrite filter_cons.
      assert (Hm : matched srcnum r = false) by (unfold matched; by rewrite Hr).
      destruct (decide (matched srcnum r)) as [Hd|Hd]; [|exact IH].
      rewrite Hm in Hd. by simpl in Hd. }
    rewrite Hnone. simpl fmap at 1. cbv iota.
    unfold bind at 1. unfold did at 1. simpl. rewrite Hallow. simpl.
    unfold ret. f_equal. f_equal. by rewrite <- !app_assoc.
Qed.

(** X23: when some row of [rightcallexten] matches the number of the
    caller, the second query is issued right after the rows were
    tried, on the same cursor.  Its list of ids is ["("], the decimal
    ids separated by commas, and [")"], where the ids are those of the
    matching rows, each one once; its only parameter is the value of
    [XIVO_INCALL_ID]. *)
Theorem rights_are_looked_up_for_the_matching_rows
    agi cur args w srcnum incall_id res e1 e2 e3 e4 :
  agi_get_variable agi "XIVO_SRCNUM"%string (backend w) = (Return srcnum, e1) →
  agi_get_variable agi "XIVO_INCALL_ID"%string e1 = (Return incall_id, e2) →
  cursor_query cur "SELECT ${columns} FROM rightcallexten"%string
    ["rightcallid"; "exten"]%string None e2 = (Return tt, e3) →
  fetch_rightcallexten cur e3 = (Return res, e4) →
  Forall (λ r, ∃ b, call_rights_extension_matches srcnum (exten r) = Return b) res →
  Exists (λ r, call_rights_extension_matches srcnum (exten r) = Return true) res →
  ∃ ids o rest r w',
    did_set_call_rights agi cur args w = (r, w') ∧
    steps w' = steps w ++ opening cur ++ (asked srcnum <$> res)
      ++ [Did (query cur
                 (rightcall_query
                    ("(" +:+ join "," (pretty <$> ids) +:+ ")")%string)
                 [RIGHTCALL_AUTHORIZATION_COLNAME; RIGHTCALL_PASSWD_COLNAME]
                 (Some [incall_id])) o]
      ++ rest ∧
    ids ≠ [] ∧ NoDup ids ∧
    ∀ id, id ∈ ids ↔
      ∃ r, r ∈ res ∧ rightcallid r = id ∧
           call_rights_extension_matches srcnum (exten r) = Return true.
Proof.
  intros H1 H2 H3 H4 Hres Hsome.
  destruct res as [|r0 res']; [by apply Exists_nil in Hsome|].
  set (res := r0 :: res') in *.
  pose (found := rightcallid <$> filter (λ r, matched srcnum r) res).
  assert (Hfound : ∀ id, id ∈ found ↔
            ∃ r, r ∈ res ∧ rightcallid r = id ∧
                 call_rights_extension_matches srcnum (exten r) = Return true).
  { intros id. unfold found. rewrite list_elem_of_fmap. split.
    - intros (r & -> & Hr). apply list_elem_of_filter in Hr as [Hm Hr].
      exists r. split; [done|]. split; [done|].
      unfold matched in Hm.
      destruct (call_rights_extension_matches srcnum (exten r)) as [[]|];
        by simpl in Hm.
    - intros (r & Hr & <- & Hm). exists r. split; [done|].
      apply list_elem_of_filter. split; [|done]. unfold matched. by rewrite Hm. }
  assert (Hne : found ≠ []).
  { apply Exists_exists in Hsome as (r & Hr & Hm).
    intros Hnil. assert (rightcallid r ∈ found) as Hin by (apply Hfound; eauto).
    rewrite Hnil in Hin. by apply elem_of_nil in Hin. }
  assert (Hperm := set_iter_perm found).
  assert (Hids : set_iter found ≠ [] ∧ NoDup (set_iter found) ∧
            ∀ id, id ∈ set_iter found ↔
              ∃ r, r ∈ res ∧ rightcallid r = id ∧
                   call_rights_extension_matches srcnum (exten r) = Return true).
  { split; [|split].
    - intros Hn. apply Exists_exists in Hsome as (r & Hr & Hm).
      assert (rightcallid r ∈ set_iter found) as Hin
        by (rewrite Hperm, elem_of_remove_dups; apply Hfound; eauto).
      rewrite Hn in Hin. by apply elem_of_nil in Hin.
    - rewrite Hperm. apply NoDup_remove_dups.
    - intros id. rewrite Hperm, elem_of_remove_dups. apply Hfound. }
  exists (set_iter found).
  unfold did_set_call_rights, try_except, _did_set_call_rights, opening.
  unfold bind at 1. unfold did at 1. rewrite H1.
  unfold bind at 1. unfold did at 1. cbn [steps backend thrown]. rewrite H2.
  unfold bind at 1. unfold did at 1. cbn [steps backend thrown]. rewrite H3.
  unfold bind at 1. unfold did at 1. cbn [steps backend thrown]. rewrite H4.
  unfold res at 1. unfold bind at 1. unfold ret at 1.
  unfold bind at 1. rewrite matching_ids_ok by done.
  fold found. cbn [steps backend].
  destruct found as [|id0 found'] eqn:Hf; [done|]. rewrite <- Hf in *.
  unfold bind at 1. unfold ret at 1.
  match goal with |- context [bind (did ?a ?f) ?k ?w0] =>
    destruct (bind (did a f) k w0) as [ra wb] eqn:Hrest;
    assert (Hsteps : ∃ o rest, steps wb = steps w0 ++ [Did a o] ++ rest)
  end.
  { unfold bind at 1 in Hrest.
    match type of Hrest with context [did ?a ?f ?w0] =>
      destruct (did a f w0) as [o1 wq] eqn:Hq end.
    apply did_inv in Hq as [_ Hq].
    destruct o1 as [[]|x1].
    - assert (Hr : runs (λ w0 : Run,
        bind (did (fetchall cur) (fetch_rightcall cur))
          (λ res0, bind (did (apply_rules res0)
                           (call_rights_apply_rules agi res0))
             (λ _, did allow (call_rights_allow agi))) w0) (λ _, true)).
      { apply runs_bind; [by apply runs_did|]. intros ?.
        apply runs_bind; [by apply runs_did|]. intros ?. by apply runs_did. }
      destruct (Hr _ _ _ Hrest) as (l & Hl & _).
      exists None, l. by rewrite Hl, Hq, <- app_assoc.
    - injection Hrest as _ <-. exists (Some x1), []. by rewrite Hq. }
  destruct Hsteps as (o & rest & Hsteps). cbn [steps] in Hsteps.
  exists o, rest.
  destruct ra as [[]|[|what]]; eexists _, _; (split; [reflexivity|]);
    (split; [|exact Hids]); rewrite Hsteps, <- ?app_assoc; reflexivity.
Qed.

(** ** Every path through the handler *)

Lemma post_conseq {A} (m : R A) (Q Q' : outcome A → list (step Rule) → Prop) :
  post m Q → (∀ r l, Q r l → Q' r l) → post m Q'.
Proof.
  intros Hm HQ w r w' Hrun. destruct (Hm _ _ _ Hrun) as (l & Hs & Hl).
  exists l. split; [done|]. by apply HQ.
Qed.

Lemma post_ret {A} (a : A) :
  post (ret a : R A) (λ r l, r = Return a ∧ l = []).
Proof. intros w r w' [= <- <-]. exists []. by rewrite app_nil_r. Qed.

Lemma post_did {A} (a : act Rule) (f : E → outcome A * E)
    (ok : outcome A → Prop) :
  (∀ e, ok (f e).1) →
  post (did a f) (λ r l, l = [Did a (thrown r)] ∧ ok r).
Proof.
  intros Hok w r w' Hrun. apply did_inv in Hrun as [Hf Hs].
  exists [Did a (thrown r)]. split; [done|]. split; [done|].
  specialize (Hok (backend w)). by rewrite Hf in Hok.
Qed.

Lemma post_bind {A B} (m : R A) (k : A → R B) Q1 Q2 :
  post m Q1 → (∀ a, post (k a) (Q2 a)) →
  post (bind m k)
    (λ r l, (∃ x, r = Throw x ∧ Q1 (Throw x) l) ∨
            (∃ a l1 l2, l = l1 ++ l2 ∧ Q1 (Return a) l1 ∧ Q2 a r l2)).
Proof.
  intros Hm Hk w r w' Hrun. unfold bind in Hrun.
  destruct (m w) as [[a|x] w1] eqn:Hmw.
  - destruct (Hm _ _ _ Hmw) as (l1 & Hs1 & Hl1).
    destruct (Hk a _ _ _ Hrun) as (l2 & Hs2 & Hl2).
    exists (l1 ++ l2). rewrite Hs2, Hs1, <- app_assoc. split; [done|].
    right. by exists a, l1, l2.
  - injection Hrun as <- <-.
    destruct (Hm _ _ _ Hmw) as (l & Hs & Hl). exists l. split; [done|].
    left. by exists x.
Qed.

Lemma post_matching_ids srcnum res :
  post (matching_ids srcnum res)
    (λ _ l, Forall (λ s, is_extension_matches s = true) l).
Proof.
  intros w r w' Hrun.
  destruct (runs_matching_ids srcnum res _ _ _ Hrun) as (l & Hs & _ & Hl).
  by exists l.
Qed.

(** [if not x: call_rights.allow(agi)] *)
Lemma post_unless {X} agi (x : list X) (ok : outcome unit → Prop) :
  (∀ e, ok (call_rights_allow agi e).1) →
  post (match x with
        | [] => did allow (call_rights_allow agi)
        | _ :: _ => ret tt
        end)
    (λ r l, (x = [] ∧ l = [Did allow (thrown r)] ∧ ok r) ∨
            (x ≠ [] ∧ r = Return tt ∧ l = [])).
Proof.
  intros Hok. destruct x as [|x0 x'].
  - eapply post_conseq; [by apply (post_did _ _ ok)|].
    intros r l [-> Hr]. by left.
  - eapply post_conseq; [apply post_ret|].
    intros r l [-> ->]. by right.
Qed.

Lemma set_iter_nonempty (l : list Z) : l ≠ [] → set_iter l ≠ [].
Proof.
  destruct l as [|z l]; [done|]. intros _ Hn.
  assert (z ∈ set_iter (z :: l)) as Hin
    by (rewrite set_iter_perm, elem_of_remove_dups; left).
  rewrite Hn in Hin. by apply elem_of_nil in Hin.
Qed.

Lemma matches_only l :
  Forall (λ s, is_extension_matches s = true) l →
  count_steps is_query l = 0 ∧ count_steps is_fetchall l = 0 ∧
  count_steps is_apply_rules l = 0 ∧ count_steps is_allow l = 0 ∧
  ∀ cur sql cols ps o, Did (query cur sql cols ps) o ∉ l.
Proof.
  intros Hl. split_and!;
    try (apply (count_steps_none _ is_extension_matches); [done|];
         by intros [[] ?]).
  intros cur sql cols ps o Hin.
  rewrite Forall_forall in Hl. by apply Hl in Hin.
Qed.

Ltac break_paths :=
  repeat match goal with
    | H : _ ∨ _ |- _ => destruct H
    | H : _ ∧ _ |- _ => destruct H
    | H : ∃ _, _ |- _ => destruct H
    | H : Forall (λ s, is_extension_matches s = true) _ |- _ =>
        apply matches_only in H
    | H : @Return _ _ = Return _ |- _ => clear H
    | H : @Throw _ _ = Return _ |- _ => discriminate H
    | H : @Return _ _ = Throw _ |- _ => discriminate H
    | H : @Throw _ _ = Throw _ |- _ => injection H as H
    end.

(** what every run of [_did_set_call_rights] keeps to; [ok] is what is
    known of the outcomes of [allow] *)
Lemma inner_post agi cur args (ok : outcome unit → Prop) :
  (∀ e, ok (call_rights_allow agi e).1) →
  post (_did_set_call_rights agi cur args) (λ r l,
    count_steps is_query l ≤ 2 ∧
    count_steps is_fetchall l ≤ count_steps is_query l ∧
    2 * count_steps is_apply_rules l ≤ count_steps is_fetchall l ∧
    count_steps is_allow l ≤ 3 ∧
    ((∀ o, ok o → o = Throw RuleAppliedException) →
     count_steps is_allow l ≤ 1 ∧
     ∀ sql cols ps o, Did (query cur sql cols (Some ps)) o ∈ l →
       ∃ ids : list Z, ids ≠ [] ∧
         sql = rightcall_query
                 ("(" +:+ join "," (pretty <$> ids) +:+ ")")%string)).
Proof.
  intros Hok. unfold _did_set_call_rights. eapply post_conseq.
  { eapply post_bind; [by apply (post_did _ _ (λ _, True))|intros srcnum].
    eapply post_bind; [by apply (post_did _ _ (λ _, True))|intros incall_id].
    eapply post_bind; [by apply (post_did _ _ (λ _, True))|intros ?].
    eapply post_bind; [by apply (post_did _ _ (λ _, True))|intros res].
    eapply post_bind; [exact (post_unless agi res ok Hok)|intros ?].
    eapply post_bind; [apply post_matching_ids|intros ids].
    eapply post_bind; [exact (post_unless agi ids ok Hok)|intros ?].
    cbv zeta.
    eapply post_bind; [by apply (post_did _ _ (λ _, True))|intros ?].
    eapply post_bind; [by apply (post_did _ _ (λ _, True))|intros res2].
    eapply post_bind; [by apply (post_did _ _ (λ _, True))|intros ?].
    exact (post_did _ _ ok Hok). }
  cbv beta. intros r l HQ. break_paths; subst;
    (split_and!;
     [rewrite ?count_steps_app; cbn [count_steps is_query is_fetchall
        is_apply_rules is_allow thrown]; lia ..|]);
    intros Hallow;
    repeat match goal with
      | H : ok (Return _) |- _ => apply Hallow in H; discriminate H
      | H : ok (Throw _) |- _ => apply Hallow in H; injection H as ->
      end;
    (split;
     [rewrite ?count_steps_app; cbn [count_steps is_query is_fetchall
        is_apply_rules is_allow thrown]; lia|]);
    intros sql cols ps o Hin;
    rewrite ?elem_of_app, ?elem_of_cons, ?elem_of_nil in Hin;
    repeat match goal with
      | H : _ ∨ _ |- _ => destruct H
      | H : False |- _ => destruct H
      | H : Did _ _ = Did _ _ |- _ => try discriminate H; injection H as H
      | H : Did _ _ ∈ _, H' : ∀ cur sql cols ps o, _ ∉ _ |- _ =>
          by apply H' in H
      end; subst;
    try match goal with
      | H : ?x ≠ [] |- ∃ ids, _ ∧ rightcall_query (rightcallids_of ?x) = _ =>
          exists (set_iter x); split; [by apply set_iter_nonempty|reflexivity]
      end.
Qed.

Lemma outer_steps agi cur args w r w' :
  did_set_call_rights agi cur args w = (r, w') →
  ∃ r0, _did_set_call_rights agi cur args w = (r0, w').
Proof.
  unfold did_set_call_rights, try_except.
  destruct (_did_set_call_rights agi cur args w) as [[a|[|what]] w1];
    intros [= <- <-]; eauto.
Qed.

(** X24: in every run of the handler at most two queries are issued,
    [fetchall] is called at most once for each query, [apply_rules] is
    called at most once and only after both results were fetched, and
    [allow] is called at most three times. *)
Theorem handler_calls_are_bounded agi cur args w r w' :
  did_set_call_rights agi cur args w = (r, w') →
  ∃ l, steps w' = steps w ++ l ∧
    count_steps is_query l ≤ 2 ∧
    count_steps is_fetchall l ≤ count_steps is_query l ∧
    2 * count_steps is_apply_rules l ≤ count_steps is_fetchall l ∧
    count_steps is_allow l ≤ 3.
Proof.
  intros Hrun. apply outer_steps in Hrun as [r0 Hrun].
  destruct (inner_post agi cur args (λ _, True) (λ _, I) _ _ _ Hrun)
    as (l & Hs & Hq & Hf & Ha & Hal & _).
  by exists l.
Qed.

(** X25: when [allow] ends the handler (it always raises
    [RuleAppliedException]), [allow] is called at most once in a run,
    and the query for the rights is never issued with an empty list of
    ids: a query with parameters is the second query, for a list of
    ids that is not empty. *)
Theorem no_lookup_for_an_empty_set agi cur args w r w' :
  (∀ e, (call_rights_allow agi e).1 = Throw RuleAppliedException) →
  did_set_call_rights agi cur args w = (r, w') →
  ∃ l, steps w' = steps w ++ l ∧
    count_steps is_allow l ≤ 1 ∧
    ∀ sql cols ps o, Did (query cur sql cols (Some ps)) o ∈ l →
      ∃ ids : list Z, ids ≠ [] ∧
        sql = rightcall_query
                ("(" +:+ join "," (pretty <$> ids) +:+ ")")%string.
Proof.
  intros Hallow Hrun. apply outer_steps in Hrun as [r0 Hrun].
  destruct (inner_post agi cur args
              (λ o, o = Throw RuleAppliedException) Hallow _ _ _ Hrun)
    as (l & Hs & _ & _ & _ & _ & Hl).
  exists l. split; [done|]. by apply Hl.
Qed.

End RightsProofs.

(** * Sample runs of [did_set_call_rights] *)

Section RightsSamples.
Import Rights.
Local Open Scope string_scope.

(** X21 at work: the sample call ends when [allow] raises. *)
Lemma rule_applied_ends_the_handler_witness :
  ∃ w', did_set_call_rights sample_request 1 [] (start sample_call)
          = (Return tt, w') ∧
    ∃ l, steps w' = l ∧
      (Forall returned l ∨
       ∃ before last, l = (before ++ [last])%list ∧ Forall returned before ∧
         raised_by last = Some RuleAppliedException).
Proof.
  pose (w' := (did_set_call_rights sample_request 1 [] (start sample_call)).2).
  assert (Hrun : did_set_call_rights sample_request 1 [] (start sample_call)
                 = (Return tt, w')) by (vm_compute; reflexivity).
  clearbody w'. exists w'. split; [exact Hrun|].
  exact (rule_applied_ends_the_handler _ _ _ _ _ _ Hrun).
Defined.

(** X22 at work: a number that no row matches. *)
Lemma no_matching_right_allows_the_call_witness :
  did_set_call_rights sample_request 1 [] (start foreign_call) =
    (Return tt,
     {| steps :=
          [Did (get_variable "XIVO_SRCNUM") None;
           Did (get_variable "XIVO_INCALL_ID") None;
           Did (query 1 "SELECT ${columns} FROM rightcallexten"
                  ["rightcallid"; "exten"] None) None;
           Did (fetchall 1) None;
           Did (extension_matches "0033" "01") None;
           Did (extension_matches "0033" "06") None;
           Did allow (Some RuleAppliedException)];
        backend := foreign_call |}).
Proof.
  apply (no_matching_right_allows_the_call sample_request 1 []
           (start foreign_call) "0033" "12" (table foreign_call)
           foreign_call foreign_call foreign_call foreign_call foreign_call);
    try reflexivity.
  repeat constructor.
Defined.

(** X23 at work: three rows match, two of them for the same right. *)
Lemma rights_are_looked_up_for_the_matching_rows_witness :
  ∃ ids o rest r w',
    did_set_call_rights sample_request 1 [] (start sample_call) = (r, w') ∧
    steps w' =
      ([Did (get_variable "XIVO_SRCNUM") None;
        Did (get_variable "XIVO_INCALL_ID") None;
        Did (query 1 "SELECT ${columns} FROM rightcallexten"
               ["rightcallid"; "exten"] None) None;
        Did (fetchall 1) None;
        Did (extension_matches "0140" "01") None;
        Did (extension_matches "0140" "06") None;
        Did (extension_matches "0140" "014") None;
        Did (extension_matches "0140" "0") None;
        Did (query 1
               (rightcall_query ("(" +:+ join "," (pretty <$> ids) +:+ ")"))
               ["rightcall.authorization"; "rightcall.passwd"]
               (Some ["12"])) o] ++ rest)%list ∧
    NoDup ids ∧ (∀ id, id ∈ ids ↔ id = 7%Z ∨ id = 5%Z).
Proof.
  destruct (rights_are_looked_up_for_the_matching_rows sample_request 1 []
              (start sample_call) "0140" "12" (table sample_call)
              sample_call sample_call sample_call sample_call)
    as (ids & o & rest & r & w' & Hrun & Hs & _ & Hnd & Hids);
    try reflexivity.
  - repeat constructor; eexists; reflexivity.
  - apply Exists_cons_hd. reflexivity.
  - exists ids, o, rest, r, w'. split; [exact Hrun|]. split; [exact Hs|].
    split; [exact Hnd|]. intros id. rewrite Hids. split.
    + intros (row & Hrow & <- & Hm). simpl in Hrow.
      rewrite !elem_of_cons, elem_of_nil in Hrow.
      destruct Hrow as [->|[->|[->|[->|[]]]]];
        first [by left|by right|discriminate Hm].
    + intros [->| ->].
      * exists {| rightcallid := 7; exten := "01" |}.
        split; [|by split]. simpl. rewrite !elem_of_cons. by left.
      * exists {| rightcallid := 5; exten := "0" |}.
        split; [|by split]. simpl. rewrite !elem_of_cons. auto.
Defined.

(** X24 at work: the sample call. *)
Lemma handler_calls_are_bounded_witness :
  ∃ w' l, did_set_call_rights sample_request 1 [] (start sample_call)
            = (Return tt, w') ∧
    steps w' = l ∧
    (count_steps is_query l ≤ 2)%nat ∧
    (2 * count_steps is_apply_rules l ≤ count_steps is_fetchall l)%nat.
Proof.
  pose (w' := (did_set_call_rights sample_request 1 [] (start sample_call)).2).
  assert (Hrun : did_set_call_rights sample_request 1 [] (start sample_call)
                 = (Return tt, w')) by (vm_compute; reflexivity).
  clearbody w'.
  destruct (handler_calls_are_bounded _ _ _ _ _ _ Hrun)
    as (l & Hs & Hq & _ & Ha & _).
  exists w', l. split; [exact Hrun|]. split; [exact Hs|]. split; [exact Hq|exact Ha].
Defined.

(** X25 at work: the scripted [allow] always raises. *)
Lemma no_lookup_for_an_empty_set_witness :
  ∃ w' l, did_set_call_rights sample_request 1 [] (start foreign_call)
            = (Return tt, w') ∧
    steps w' = l ∧ (count_steps is_allow l ≤ 1)%nat.
Proof.
  pose (w' := (did_set_call_rights sample_request 1 [] (start foreign_call)).2).
  assert (Hrun : did_set_call_rights sample_request 1 [] (start foreign_call)
                 = (Return tt, w')) by (vm_compute; reflexivity).
  clearbody w'.
  assert (Hallow : ∀ e : rights_script,
            (call_rights_allow sample_request e).1 = Throw RuleAppliedException)
    by (intros e; reflexivity).
  destruct (no_lookup_for_an_empty_set sample_request 1 [] _ _ _
              Hallow Hrun) as (l & Hs & Ha & _).
  exists w', l. split; [exact Hrun|]. split; [exact Hs|exact Ha].
Defined.

End RightsSamples.
